(** * filaswitch: the Prusa Slic3r front end ([slicer_prusa_slic3r.py])

    A shallow embedding of [PrusaSlic3rCodeFile]: header parsing
    ([parse_header]), first tool change normalisation
    ([parse_print_settings]), layer segmentation ([parse_layers]) and layer
    classification ([filter_layers]).

    Conventions.
    - Python [bytes] are [string]; a g-code line, once read by
      [gcode.read_gcode_line], is a pair [(cmd, comment)] of optional bytes.
    - Python [float]s are rationals ([Q]) with exact arithmetic; [==] on
      floats is [Qeq].  Rounding is not modelled.
    - A raised exception is a value of [exn]; code that can raise returns
      [res A = exn + A].
    - [self.layers] is a list of layer objects; an object is named by its
      position in that list, so that the objects tagged by [filter_layers]
      and the objects listed in [self.filtered_layers] are the same ones. *)

From Stdlib Require Import ZArith QArith String Ascii Sorted Permutation.
From Stdlib Require Import SetoidList SetoidPermutation.
From stdpp Require Import base option list sorting gmap strings.

Local Open Scope Q_scope.
Local Open Scope nat_scope.

(** ** Python values *)

Definition bytes := string.

(** What [gcode.read_gcode_line] returns for one line. *)
Definition line : Type := option bytes * option bytes.

(** Truth value of an optional bytes object: [None] and [b""] are false. *)
Definition truthy (o : option bytes) : bool :=
  match o with
  | Some (String _ _) => true
  | _ => false
  end.

Inductive exn : Type :=
| ValueError_relative_e   (* "Relative E distances not enabled! ..." *)
| ValueError_layer_height (* "Layer height must be 0.2, ..." *)
| ValueError_literal      (* float() or int() of a malformed literal *)
| IndexError
| KeyError
| TypeError.

Definition res (A : Type) : Type := (exn + A)%type.

Definition bind {A B} (m : res A) (k : A -> res B) : res B :=
  match m with
  | inl e => inl e
  | inr a => k a
  end.

Notation "x <- m ;; k" := (bind m (fun x => k))
  (at level 20, m at level 99, k at level 200, only parsing).
Notation "' p <- m ;; k" := (bind m (fun x => let p := x in k))
  (at level 20, p pattern, m at level 99, k at level 200, only parsing).

Definition raise_if_none {A} (e : exn) (o : option A) : res A :=
  match o with
  | Some a => inr a
  | None => inl e
  end.

(** ** Layers ([layer.py]) *)

Inductive action_t : Type := ACT_INFILL | ACT_PASS | ACT_SWITCH.

(** Modelled from the spec: the classes [Layer] and [FirstLayer] are in
    layer.py, which is not among the sources.  A layer has an ordinal, a Z
    height, a thickness, its lines (append-only during segmentation), an
    action tag (unset at creation) and a tower slot count; the first layer
    variant also has the index at which its start g-code ends. The
    constructors store their arguments. *)
Record Layer_t : Type := mkLayer {
  num : Z;
  z : Q;
  height : Q;
  lines : list line;
  action : option action_t;
  tower_slots : nat;
  is_first : bool;
  start_gcode_end : nat
}.

Definition Layer (n : Z) (lz h : Q) : Layer_t :=
  mkLayer n lz h [] None 0 false 0.

Definition FirstLayer (n : Z) (lz h : Q) : Layer_t :=
  mkLayer n lz h [] None 0 true 0.

Definition set_z (v : Q) (l : Layer_t) : Layer_t :=
  mkLayer (num l) v (height l) (lines l) (action l) (tower_slots l)
          (is_first l) (start_gcode_end l).

Definition set_lines (v : list line) (l : Layer_t) : Layer_t :=
  mkLayer (num l) (z l) (height l) v (action l) (tower_slots l)
          (is_first l) (start_gcode_end l).

Definition set_action (v : action_t) (l : Layer_t) : Layer_t :=
  mkLayer (num l) (z l) (height l) (lines l) (Some v) (tower_slots l)
          (is_first l) (start_gcode_end l).

Definition set_tower_slots (v : nat) (l : Layer_t) : Layer_t :=
  mkLayer (num l) (z l) (height l) (lines l) (action l) v
          (is_first l) (start_gcode_end l).

(** [Layer.add_line]. *)
Definition add_line (ln : line) (l : Layer_t) : Layer_t :=
  set_lines (lines l ++ [ln]) l.

(** ** Sorting

    Python's [sorted] is stable; so is this insertion sort. *)
Section Sort.
Context {A : Type} (leb : A -> A -> bool).

Fixpoint insert_sorted (x : A) (l : list A) : list A :=
  match l with
  | [] => [x]
  | y :: l' => if leb x y then x :: l else y :: insert_sorted x l'
  end.

Fixpoint sorted (l : list A) : list A :=
  match l with
  | [] => []
  | x :: l' => insert_sorted x (sorted l')
  end.
End Sort.

(** ** The layer classifier: [filter_layers] *)

(** One entry of the local dictionary [layer_data]: the key, the member
    layers (as object names) and the ['slots'] item, absent until the slot
    pass writes it. *)
Record bucket : Type := mkBucket {
  b_z : Q;
  b_layers : list nat;
  b_slots : option nat
}.

(** [layer_data]: a dictionary keyed by float, in insertion order. *)
Definition layer_data_t : Type := list bucket.

Fixpoint dict_get (k : Q) (d : layer_data_t) : option bucket :=
  match d with
  | [] => None
  | b :: d' => if Qeq_bool (b_z b) k then Some b else dict_get k d'
  end.

Fixpoint dict_alter (f : bucket -> bucket) (k : Q) (d : layer_data_t)
  : layer_data_t :=
  match d with
  | [] => []
  | b :: d' => if Qeq_bool (b_z b) k then f b :: d' else b :: dict_alter f k d'
  end.

(** [d[k]], a [KeyError] when [k] is not a key. *)
Definition getitem (k : Q) (d : layer_data_t) : res bucket :=
  raise_if_none KeyError (dict_get k d).

Definition append_layer (i : nat) (b : bucket) : bucket :=
  mkBucket (b_z b) (b_layers b ++ [i]) (b_slots b).

Definition set_slots (s : nat) (b : bucket) : bucket :=
  mkBucket (b_z b) (b_layers b) (Some s).

(** The object named [i]. *)
Definition deref (store : list Layer_t) (i : nat) : res Layer_t :=
  raise_if_none IndexError (store !! i).

Section Classifier.
(** [gcode.is_tool_change]: the tool a command selects, if it is a tool
    change (gcode.py is not among the sources). *)
Variable is_tool_change : bytes -> option nat.

Definition tool_change_line (ln : line) : bool :=
  match ln with
  | (Some c, _) => truthy (Some c) && bool_decide (is_Some (is_tool_change c))
  | (None, _) => false
  end.

(** Modelled from the spec: [Layer.has_tool_changes] is in layer.py; a
    layer has tool changes when one of its commands is a tool change. *)
Definition has_tool_changes (l : Layer_t) : bool :=
  existsb tool_change_line (lines l).

(** Step 1: populate the dictionary. *)
Fixpoint populate (i : nat) (ls : list Layer_t) (d : layer_data_t)
  : layer_data_t :=
  match ls with
  | [] => d
  | l :: ls' =>
      let d1 := match dict_get (z l) d with
                | Some _ => d
                | None => d ++ [mkBucket (z l) [] None]
                end in
      populate (S i) ls' (dict_alter (append_layer i) (z l) d1)
  end.

(** [lrs], summed over the layers of one bucket. *)
Fixpoint count_tool_changes (store : list Layer_t) (ids : list nat)
         (lrs : nat) : res nat :=
  match ids with
  | [] => inr lrs
  | i :: ids' =>
      l <- deref store i ;;
      count_tool_changes store ids' (lrs + Nat.b2n (has_tool_changes l))
  end.

(** One turn of the slot loop on the pair [(slots, count)]. *)
Definition slot_step (slots count lrs : nat) : nat * nat :=
  let count1 := if slots <? lrs then S count else count in
  if 3 <=? count1 then (lrs, 0) else (slots, count1).

(** The slot loop over the reversed z-list. *)
Fixpoint slot_pass (store : list Layer_t) (zs : list Q) (slots count : nat)
         (d : layer_data_t) : res (nat * layer_data_t) :=
  match zs with
  | [] => inr (slots, d)
  | k :: zs' =>
      b <- getitem k d ;;
      lrs <- count_tool_changes store (b_layers b) 0 ;;
      let sc := slot_step slots count lrs in
      slot_pass store zs' (fst sc) (snd sc)
                (dict_alter (set_slots (fst sc)) k d)
  end.

(** First loop of the tagging pass over one bucket. *)
Fixpoint tag_switch (ids : list nat) (slots : nat) (store : list Layer_t)
         (slots_filled : nat) : res (list Layer_t * nat) :=
  match ids with
  | [] => inr (store, slots_filled)
  | i :: ids' =>
      l <- deref store i ;;
      let l1 := set_tower_slots slots l in
      if has_tool_changes l1
      then tag_switch ids' slots (<[i := set_action ACT_SWITCH l1]> store)
                      (S slots_filled)
      else tag_switch ids' slots (<[i := l1]> store) slots_filled
  end.

(** Second loop of the tagging pass over one bucket. *)
Fixpoint tag_other (ids : list nat) (slots : nat) (store : list Layer_t)
         (slots_filled : nat) : res (list Layer_t) :=
  match ids with
  | [] => inr store
  | i :: ids' =>
      l <- deref store i ;;
      if negb (has_tool_changes l)
      then if slots_filled <? slots
           then tag_other ids' slots (<[i := set_action ACT_INFILL l]> store)
                          (S slots_filled)
           else tag_other ids' slots (<[i := set_action ACT_PASS l]> store)
                          slots_filled
      else tag_other ids' slots store slots_filled
  end.

(** [layer_data[z]['slots']]. *)
Definition getslots (k : Q) (d : layer_data_t) : res nat :=
  b <- getitem k d ;; raise_if_none KeyError (b_slots b).

Fixpoint tag_pass (zs : list Q) (d : layer_data_t) (store : list Layer_t)
  : res (list Layer_t) :=
  match zs with
  | [] => inr store
  | k :: zs' =>
      s <- getslots k d ;;
      if s =? 0 then tag_pass zs' d store
      else
        b <- getitem k d ;;
        '(store1, filled) <- tag_switch (b_layers b) s store 0 ;;
        b' <- getitem k d ;;
        store2 <- tag_other (b_layers b') s store1 filled ;;
        tag_pass zs' d store2
  end.

(** Step 3: pack the groups to a list. *)
Fixpoint pack (zs : list Q) (d : layer_data_t) (acc : list nat)
  : res (list nat) :=
  match zs with
  | [] => inr acc
  | k :: zs' => b <- getitem k d ;; pack zs' d (acc ++ b_layers b)
  end.

(** The sort key of each packed layer. *)
Fixpoint keyed (store : list Layer_t) (ids : list nat)
  : res (list (Z * nat)) :=
  match ids with
  | [] => inr []
  | i :: ids' =>
      l <- deref store i ;;
      rest <- keyed store ids' ;;
      inr ((num l, i) :: rest)
  end.

Definition num_leb (a b : Z * nat) : bool := (fst a <=? fst b)%Z.

(** What [filter_layers] leaves behind: [self.layers] (the objects, now
    tagged), [self.max_slots], [self.filtered_layers] (names of objects
    of [self.layers]) and the local [layer_data] as it is on exit. *)
Record filtered : Type := mkFiltered {
  f_layers : list Layer_t;
  f_max_slots : nat;
  f_filtered_layers : list nat;
  f_layer_data : layer_data_t
}.

(** The z-list of the slot loop: sorted, then reversed. *)
Definition zs_desc (d : layer_data_t) : list Q :=
  rev (sorted Qle_bool (map b_z d)).

Definition filter_layers (layers : list Layer_t) : res filtered :=
  let layer_data := populate 0 layers [] in
  let zs := zs_desc layer_data in
  '(slots, layer_data1) <- slot_pass layers zs 1 0 layer_data ;;
  let zs' := rev zs in
  store <- tag_pass zs' layer_data1 layers ;;
  packed <- pack zs' layer_data1 [] ;;
  ks <- keyed store packed ;;
  inr (mkFiltered store slots (map snd (sorted num_leb ks)) layer_data1).

End Classifier.

Fixpoint mapM_res {A B} (f : A -> res B) (l : list A) : res (list B) :=
  match l with
  | [] => inr []
  | x :: l' => y <- f x ;; ys <- mapM_res f l' ;; inr (y :: ys)
  end.

Definition keeps_key (f : bucket -> bucket) : Prop :=
  forall b, b_z (f b) = b_z b.

Definition all_ids (d : layer_data_t) : list nat := concat (map b_layers d).

(** ** Reading the slot loop *)

Section ClassifierReadout.
Variable is_tool_change : bytes -> option nat.

(** The required tool-change count [lrs] of the bucket under key [k]. *)
Definition required (store : list Layer_t) (d : layer_data_t) (k : Q)
  : res nat :=
  b <- getitem k d ;; count_tool_changes is_tool_change store (b_layers b) 0.

(** The required counts of the Z-buckets, highest Z first. *)
Definition required_counts (layers : list Layer_t) : res (list nat) :=
  let d := populate 0 layers [] in
  mapM_res (required layers d) (zs_desc d).

End ClassifierReadout.

(** The slot counts recorded in the Z-buckets, highest Z first. *)
Definition recorded_slots (r : filtered) : res (list nat) :=
  mapM_res (fun k => getslots k (f_layer_data r)) (zs_desc (f_layer_data r)).

(** The slot loop on the required counts alone: the state [(slots, count)]
    after the buckets [rs], the value recorded for each of them, and the
    final [slots]. *)
Definition slot_state (slots count : nat) (rs : list nat) : nat * nat :=
  fold_left (fun sc lrs => slot_step (fst sc) (snd sc) lrs) rs (slots, count).

Fixpoint slot_scan (slots count : nat) (rs : list nat) : list nat :=
  match rs with
  | [] => []
  | lrs :: rs' =>
      let sc := slot_step slots count lrs in
      fst sc :: slot_scan (fst sc) (snd sc) rs'
  end.

(** Is there a run of three consecutive buckets above [slots]? *)
Fixpoint three_in_a_row (slots : nat) (rs : list nat) : bool :=
  match rs with
  | a :: ((b :: c :: _) as rs') =>
      ((slots <? a) && (slots <? b) && (slots <? c)) || three_in_a_row slots rs'
  | _ => false
  end.

(** How many buckets are above [slots]. *)
Definition count_above (slots : nat) (rs : list nat) : nat :=
  length (List.filter (fun x => slots <? x) rs).

(** The layer objects a list of names stands for. *)
Definition objects (store : list Layer_t) (ids : list nat) : list Layer_t :=
  omap (fun i => store !! i) ids.

(** What the tagging pass leaves alone in a layer. *)
Definition body (l : Layer_t)
  : Z * Q * Q * list line * bool * nat :=
  (num l, z l, height l, lines l, is_first l, start_gcode_end l).

Definition tagged (l : Layer_t) : Prop := is_Some (action l).

(** [l'] is [l] with, possibly, a tag and a slot count written to it. *)
Definition tag_of (l l' : Layer_t) : Prop :=
  body l = body l' /\ (tagged l -> tagged l').

(** A bucket the tagging pass can work on: its slot count is recorded and
    positive, and its layers are objects of a store of [n] layers. *)
Definition taggable (d : layer_data_t) (n : nat) (k : Q) : Prop :=
  exists b s, dict_get k d = Some b /\ b_slots b = Some s /\ 1 <= s /\
              Forall (fun i => i < n) (b_layers b).

(** A sort key paired with the layer it was read from. *)
Definition key_from (store : list Layer_t) (kv : Z * nat) : Prop :=
  exists l, store !! snd kv = Some l /\ fst kv = num l.

(** ** Bytes *)

Local Open Scope string_scope.
Local Open Scope list_scope.
Local Open Scope nat_scope.

(** [sub in s]. *)
Fixpoint contains (sub s : bytes) : bool :=
  String.prefix sub s ||
  match s with
  | EmptyString => false
  | String _ s' => contains sub s'
  end.

(** [s.split(sep)] for a non-empty separator: [skip] counts the bytes of a
    separator just found that are still to be passed over, [cur] is the
    piece being read. *)
Fixpoint split_go (sep : bytes) (skip : nat) (cur s : bytes) : list bytes :=
  match s with
  | EmptyString => [cur]
  | String c s' =>
      match skip with
      | S k => split_go sep k cur s'
      | O =>
          if String.prefix sep s
          then cur :: split_go sep (String.length sep - 1)%nat "" s'
          else split_go sep 0 (cur ++ String c "")%string s'
      end
  end.

Definition split (sep s : bytes) : list bytes := split_go sep 0 "" s.

(** [l[i]]. *)
Definition item {A} (l : list A) (i : nat) : res A :=
  raise_if_none IndexError (l !! i).

Definition is_digit (c : ascii) : bool :=
  (48 <=? nat_of_ascii c)%nat && (nat_of_ascii c <=? 57)%nat.

(** The longest prefix of [s] whose bytes satisfy [p], and the rest. *)
Fixpoint span (p : ascii -> bool) (s : bytes) : bytes * bytes :=
  match s with
  | EmptyString => ("", "")
  | String c s' =>
      if p c then let r := span p s' in (String c (fst r), snd r)
      else ("", s)
  end.

Fixpoint strip_prefix (p s : bytes) : option bytes :=
  match p, s with
  | EmptyString, _ => Some s
  | String a p', String b s' => if Ascii.eqb a b then strip_prefix p' s' else None
  | String _ _, EmptyString => None
  end.

(** ** The layer segmenter: [parse_layers] *)

(** [LAYER_START_RE.match]: the pattern is the literal
    [BEFORE_LAYER_CHANGE], a space, a group of one or more digits, a space,
    and a group made of one or more digits, any number of dots and any
    number of digits; it is anchored at the start of the comment only.
    The result is the two groups.  All quantifiers are greedy and none has
    to give anything back: the first group ends at the space, and nothing
    follows the second. *)
Definition LAYER_START_RE_match (s : bytes) : option (bytes * bytes) :=
  match strip_prefix "BEFORE_LAYER_CHANGE " s with
  | None => None
  | Some s1 =>
      let g1 := span is_digit s1 in
      match fst g1, snd g1 with
      | String _ _, String " " s2 =>
          let d1 := span is_digit s2 in
          match fst d1 with
          | EmptyString => None
          | String _ _ =>
              let dots := span (Ascii.eqb ".") (snd d1) in
              let d2 := span is_digit (snd dots) in
              Some (fst g1, (fst d1 ++ fst dots ++ fst d2)%string)
          end
      | _, _ => None
      end
  end.

Section Segmenter.
(** The external collaborators: [gcode.read_gcode_line], [gcode.is_z_move],
    and the built-ins [int] and [float] on bytes ([None]: [ValueError]). *)
Variable read_gcode_line : bytes -> line.
Variable is_z_move : bytes -> bool.
Variable py_int : bytes -> option Z.
Variable py_float : bytes -> option Q.

(** [check_layer_change(line, current_layer)]. *)
Definition check_layer_change (ln : bytes) (current_layer : option (Z * Q))
  : res (option (Z * Q)) :=
  match LAYER_START_RE_match ln with
  | Some (g0, g1) =>
      n <- raise_if_none ValueError_literal (py_int g0) ;;
      v <- raise_if_none ValueError_literal (py_float g1) ;;
      inr (Some (n, v))
  | None => inr current_layer
  end.

(** The locals of [parse_layers], and the layers appended to
    [self.layers] so far.  [prev_layer] is only ever read for its [z], and
    the object it names is not written to once it has been appended, so
    its value stands for the object. *)
Record seg_state : Type := mkSeg {
  prev_layer : option Layer_t;
  prev_height : Q;
  current_layer : Layer_t;
  layer_start : bool;
  layer_num : Z;
  layer_z : Q;
  seg_layers : list Layer_t
}.

Definition seg_init : seg_state :=
  mkSeg None 0 (FirstLayer 0 (2 # 10) (2 # 10)) false 0 0 [].

(** The body of [if gcode.is_z_move(cmd):]. *)
Definition on_z_move (st : seg_state) : seg_state :=
  if (num (current_layer st) =? 1)%Z && (layer_num st =? 0)%Z
  then
    mkSeg (prev_layer st) (prev_height st)
          (set_z (layer_z st) (current_layer st))
          false (layer_num st) (layer_z st) (seg_layers st)
  else
    let prev_z := match prev_layer st with
                  | Some p => z p
                  | None => 0%Q
                  end in
    let height0 := (z (current_layer st) - prev_z)%Q in
    let nonzero := negb (Qeq_bool height0 0) in
    let prev_height1 := if nonzero then height0 else prev_height st in
    let height1 := if nonzero then height0 else prev_height st in
    mkSeg (Some (current_layer st)) prev_height1
          (Layer (layer_num st) (layer_z st) height1)
          false (layer_num st) (layer_z st)
          (seg_layers st ++ [current_layer st]).

(** One turn of the loop over the lines. *)
Definition seg_line (st : seg_state) (raw : bytes) : res seg_state :=
  let cmd := fst (read_gcode_line raw) in
  let comment := snd (read_gcode_line raw) in
  st1 <- match comment with
         | Some c =>
             if truthy comment then
               ret <- check_layer_change c None ;;
               match ret with
               | Some (n, v) =>
                   inr (mkSeg (prev_layer st) (prev_height st)
                              (current_layer st) true n v (seg_layers st))
               | None => inr st
               end
             else inr st
         | None => inr st
         end ;;
  let st2 := match cmd with
             | Some c =>
                 if truthy cmd && layer_start st1
                 then if is_z_move c then on_z_move st1 else st1
                 else st1
             | None => st1
             end in
  inr (mkSeg (prev_layer st2) (prev_height st2)
             (add_line (cmd, comment) (current_layer st2))
             (layer_start st2) (layer_num st2) (layer_z st2) (seg_layers st2)).

Fixpoint seg_loop (st : seg_state) (lines : list bytes) : res seg_state :=
  match lines with
  | [] => inr st
  | raw :: lines' => st' <- seg_line st raw ;; seg_loop st' lines'
  end.

(** [parse_layers(lines)]: the layers it appends to [self.layers]. *)
Definition parse_layers (lines : list bytes) : res (list Layer_t) :=
  st <- seg_loop seg_init lines ;;
  inr (seg_layers st ++ [current_layer st]).

End Segmenter.

(** ** The first tool change: [parse_print_settings] *)

(** Modelled from the spec: [delete_line], [insert_line] and [read_lines]
    are methods of the layer classes of layer.py; the lines of a layer are
    indexed from 0, a line is deleted at its index and a line is inserted
    before the line at the given index. *)
Definition delete_line (i : nat) (l : Layer_t) : Layer_t :=
  set_lines (take i (lines l) ++ drop (S i) (lines l)) l.

Definition insert_line (i : nat) (cmd comment : option bytes) (l : Layer_t)
  : Layer_t :=
  set_lines (take i (lines l) ++ (cmd, comment) :: drop i (lines l)) l.

Section Normalizer.
(** [gcode.is_tool_change]: the tool a command selects, or [None];
    [gcode.last_match] is what the last call returned. *)
Variable is_tool_change : bytes -> option nat.

(** The loop over [self.layers[0].read_lines()]: [rest] are the lines
    still to be read, [line_index] the index of the first of them. *)
Fixpoint first_tool_change (first : Layer_t) (rest : list line)
         (line_index : nat) : Layer_t :=
  match rest with
  | [] => first
  | (cmd, comment) :: rest' =>
      match (if (start_gcode_end first <? line_index)%nat && truthy cmd
             then match cmd with
                  | Some c => is_tool_change c
                  | None => None
                  end
             else None) with
      | Some last_match =>
          if (last_match =? 0)%nat
          then delete_line line_index first
          else insert_line line_index None (Some "TOOL CHANGE") first
      | None => first_tool_change first rest' (S line_index)
      end
  end.

(** [parse_print_settings], after the call to the base class. *)
Definition parse_print_settings (layers : list Layer_t) : res (list Layer_t) :=
  match layers with
  | [] => inl IndexError
  | first :: others =>
      inr (first_tool_change first (lines first) 0 :: others)
  end.

End Normalizer.

(** ** The settings extractor: [parse_header] *)

Inductive machine_t : Type := TYPE_CARTESIAN | TYPE_DELTA.

(** Modelled from the spec: the class [Extruder] is in extruder.py, which is
    not among the sources.  The per-tool settings record: feed rate
    multiplier, filament type, retract length, Z hop, retract speed, wipe
    length, the number and the table of the temperature setpoints, and the
    Z offset; a new extruder knows its tool index only. *)
Record Extruder_t : Type := mkExtruder {
  tool : nat;
  feed_rate_multiplier : option Q;
  filament_type : option bytes;
  retract : option Q;
  z_hop : option Q;
  retract_speed : option Q;
  wipe : option Q;
  temperature_nr : option nat;
  temperature_setpoints : gmap nat Z;
  z_offset : option Q
}.

Definition Extruder (t : nat) : Extruder_t :=
  mkExtruder t None None None None None None None (gmap_empty) None.

Definition set_feed_rate_multiplier (v : option Q) (r : Extruder_t) : Extruder_t :=
  mkExtruder (tool r) v (filament_type r) (retract r) (z_hop r) (retract_speed r) (wipe r) (temperature_nr r) (temperature_setpoints r) (z_offset r).

Definition set_filament_type (v : option bytes) (r : Extruder_t) : Extruder_t :=
  mkExtruder (tool r) (feed_rate_multiplier r) v (retract r) (z_hop r) (retract_speed r) (wipe r) (temperature_nr r) (temperature_setpoints r) (z_offset r).

Definition set_retract (v : option Q) (r : Extruder_t) : Extruder_t :=
  mkExtruder (tool r) (feed_rate_multiplier r) (filament_type r) v (z_hop r) (retract_speed r) (wipe r) (temperature_nr r) (temperature_setpoints r) (z_offset r).

Definition set_z_hop (v : option Q) (r : Extruder_t) : Extruder_t :=
  mkExtruder (tool r) (feed_rate_multiplier r) (filament_type r) (retract r) v (retract_speed r) (wipe r) (temperature_nr r) (temperature_setpoints r) (z_offset r).

Definition set_retract_speed (v : option Q) (r : Extruder_t) : Extruder_t :=
  mkExtruder (tool r) (feed_rate_multiplier r) (filament_type r) (retract r) (z_hop r) v (wipe r) (temperature_nr r) (temperature_setpoints r) (z_offset r).

Definition set_wipe (v : option Q) (r : Extruder_t) : Extruder_t :=
  mkExtruder (tool r) (feed_rate_multiplier r) (filament_type r) (retract r) (z_hop r) (retract_speed r) v (temperature_nr r) (temperature_setpoints r) (z_offset r).

Definition set_temperature_nr (v : option nat) (r : Extruder_t) : Extruder_t :=
  mkExtruder (tool r) (feed_rate_multiplier r) (filament_type r) (retract r) (z_hop r) (retract_speed r) (wipe r) v (temperature_setpoints r) (z_offset r).

Definition set_temperature_setpoints (v : gmap nat Z) (r : Extruder_t) : Extruder_t :=
  mkExtruder (tool r) (feed_rate_multiplier r) (filament_type r) (retract r) (z_hop r) (retract_speed r) (wipe r) (temperature_nr r) v (z_offset r).

Definition set_z_offset (v : option Q) (r : Extruder_t) : Extruder_t :=
  mkExtruder (tool r) (feed_rate_multiplier r) (filament_type r) (retract r) (z_hop r) (retract_speed r) (wipe r) (temperature_nr r) (temperature_setpoints r) v.

(** The attributes of [self] that [parse_header] reads or writes, and its
    local variable [z_offset].  An attribute that holds [None] is [None]. *)
Record self_t : Type := mkSelf {
  version : option (Z * Z * Z);
  machine_type : option machine_t;
  origin_offset_x : option Q;
  origin_offset_y : option Q;
  stroke_x : option Q;
  stroke_y : option Q;
  extruders : gmap nat Extruder_t;
  default_speed : option Q;
  first_layer_speed : option Q;
  travel_xy_speed : option Q;
  travel_z_speed : option Q;
  outer_perimeter_speed : option Q;
  layer_height : option Q;
  local_z_offset : Q
}.

Definition with_version (v : option (Z * Z * Z)) (r : self_t) : self_t :=
  mkSelf v (machine_type r) (origin_offset_x r) (origin_offset_y r) (stroke_x r) (stroke_y r) (extruders r) (default_speed r) (first_layer_speed r) (travel_xy_speed r) (travel_z_speed r) (outer_perimeter_speed r) (layer_height r) (local_z_offset r).

Definition with_machine_type (v : option machine_t) (r : self_t) : self_t :=
  mkSelf (version r) v (origin_offset_x r) (origin_offset_y r) (stroke_x r) (stroke_y r) (extruders r) (default_speed r) (first_layer_speed r) (travel_xy_speed r) (travel_z_speed r) (outer_perimeter_speed r) (layer_height r) (local_z_offset r).

Definition with_origin_offset_x (v : option Q) (r : self_t) : self_t :=
  mkSelf (version r) (machine_type r) v (origin_offset_y r) (stroke_x r) (stroke_y r) (extruders r) (default_speed r) (first_layer_speed r) (travel_xy_speed r) (travel_z_speed r) (outer_perimeter_speed r) (layer_height r) (local_z_offset r).

Definition with_origin_offset_y (v : option Q) (r : self_t) : self_t :=
  mkSelf (version r) (machine_type r) (origin_offset_x r) v (stroke_x r) (stroke_y r) (extruders r) (default_speed r) (first_layer_speed r) (travel_xy_speed r) (travel_z_speed r) (outer_perimeter_speed r) (layer_height r) (local_z_offset r).

Definition with_stroke_x (v : option Q) (r : self_t) : self_t :=
  mkSelf (version r) (machine_type r) (origin_offset_x r) (origin_offset_y r) v (stroke_y r) (extruders r) (default_speed r) (first_layer_speed r) (travel_xy_speed r) (travel_z_speed r) (outer_perimeter_speed r) (layer_height r) (local_z_offset r).

Definition with_stroke_y (v : option Q) (r : self_t) : self_t :=
  mkSelf (version r) (machine_type r) (origin_offset_x r) (origin_offset_y r) (stroke_x r) v (extruders r) (default_speed r) (first_layer_speed r) (travel_xy_speed r) (travel_z_speed r) (outer_perimeter_speed r) (layer_height r) (local_z_offset r).

Definition with_extruders (v : gmap nat Extruder_t) (r : self_t) : self_t :=
  mkSelf (version r) (machine_type r) (origin_offset_x r) (origin_offset_y r) (stroke_x r) (stroke_y r) v (default_speed r) (first_layer_speed r) (travel_xy_speed r) (travel_z_speed r) (outer_perimeter_speed r) (layer_height r) (local_z_offset r).

Definition with_default_speed (v : option Q) (r : self_t) : self_t :=
  mkSelf (version r) (machine_type r) (origin_offset_x r) (origin_offset_y r) (stroke_x r) (stroke_y r) (extruders r) v (first_layer_speed r) (travel_xy_speed r) (travel_z_speed r) (outer_perimeter_speed r) (layer_height r) (local_z_offset r).

Definition with_first_layer_speed (v : option Q) (r : self_t) : self_t :=
  mkSelf (version r) (machine_type r) (origin_offset_x r) (origin_offset_y r) (stroke_x r) (stroke_y r) (extruders r) (default_speed r) v (travel_xy_speed r) (travel_z_speed r) (outer_perimeter_speed r) (layer_height r) (local_z_offset r).

Definition with_travel_xy_speed (v : option Q) (r : self_t) : self_t :=
  mkSelf (version r) (machine_type r) (origin_offset_x r) (origin_offset_y r) (stroke_x r) (stroke_y r) (extruders r) (default_speed r) (first_layer_speed r) v (travel_z_speed r) (outer_perimeter_speed r) (layer_height r) (local_z_offset r).

Definition with_travel_z_speed (v : option Q) (r : self_t) : self_t :=
  mkSelf (version r) (machine_type r) (origin_offset_x r) (origin_offset_y r) (stroke_x r) (stroke_y r) (extruders r) (default_speed r) (first_layer_speed r) (travel_xy_speed r) v (outer_perimeter_speed r) (layer_height r) (local_z_offset r).

Definition with_outer_perimeter_speed (v : option Q) (r : self_t) : self_t :=
  mkSelf (version r) (machine_type r) (origin_offset_x r) (origin_offset_y r) (stroke_x r) (stroke_y r) (extruders r) (default_speed r) (first_layer_speed r) (travel_xy_speed r) (travel_z_speed r) v (layer_height r) (local_z_offset r).

Definition with_layer_height (v : option Q) (r : self_t) : self_t :=
  mkSelf (version r) (machine_type r) (origin_offset_x r) (origin_offset_y r) (stroke_x r) (stroke_y r) (extruders r) (default_speed r) (first_layer_speed r) (travel_xy_speed r) (travel_z_speed r) (outer_perimeter_speed r) v (local_z_offset r).

Definition with_local_z_offset (v : Q) (r : self_t) : self_t :=
  mkSelf (version r) (machine_type r) (origin_offset_x r) (origin_offset_y r) (stroke_x r) (stroke_y r) (extruders r) (default_speed r) (first_layer_speed r) (travel_xy_speed r) (travel_z_speed r) (outer_perimeter_speed r) (layer_height r) v.

(** A fresh object: [__init__] sets [version], [default_speed],
    [machine_type], the strokes and the origin offsets to [None]; the
    attributes of the base class, which is not among the sources, are
    parameters. *)
Definition new_self (extruders0 : gmap nat Extruder_t)
           (layer_height0 first_layer_speed0 travel_xy_speed0
            travel_z_speed0 outer_perimeter_speed0 : option Q) : self_t :=
  mkSelf None None None None None None extruders0 None first_layer_speed0
         travel_xy_speed0 travel_z_speed0 outer_perimeter_speed0
         layer_height0 0.

(** Computations on [self] that may raise; the state is kept when they
    do, as the object is. *)
Definition H (A : Type) : Type := self_t -> res A * self_t.

Definition hret {A} (a : A) : H A := fun s => (inr a, s).

Definition hbind {A B} (m : H A) (k : A -> H B) : H B :=
  fun s => match m s with
           | (inl e, s') => (inl e, s')
           | (inr a, s') => k a s'
           end.

Definition hraise {A} (e : exn) : H A := fun s => (inl e, s).

Definition hlift {A} (r : res A) : H A := fun s => (r, s).

Definition hmodify (f : self_t -> self_t) : H unit := fun s => (inr tt, f s).

Definition hget : H self_t := fun s => (inr s, s).

Notation "x <~ m ;; k" := (hbind m (fun x => k))
  (at level 20, m at level 99, k at level 200, only parsing).
Notation "m ;;; k" := (hbind m (fun _ => k))
  (at level 99, k at level 200, only parsing, right associativity).

(** [s.strip(chars)] for a single byte. *)
Fixpoint lstrip (c : ascii) (s : bytes) : bytes :=
  match s with
  | String a s' => if Ascii.eqb a c then lstrip c s' else s
  | EmptyString => s
  end.

Fixpoint rstrip (c : ascii) (s : bytes) : bytes :=
  match s with
  | String a s' =>
      match rstrip c s' with
      | EmptyString => if Ascii.eqb a c then "" else String a ""
      | r => String a r
      end
  | EmptyString => s
  end.

Definition strip (c : ascii) (s : bytes) : bytes := rstrip c (lstrip c s).

Definition Qmax_list (x : Q) (xs : list Q) : Q :=
  fold_left (fun m v => if Qle_bool v m then m else v) xs x.

Definition Qmin_list (x : Q) (xs : list Q) : Q :=
  fold_left (fun m v => if Qle_bool m v then m else v) xs x.

Section Header.
(** The built-ins [int] and [float] on bytes ([None]: [ValueError]), and
    [VERSION_RE.match] with its three groups. *)
Variable py_int : bytes -> option Z.
Variable py_float : bytes -> option Q.
Variable VERSION_RE_match : bytes -> option (bytes * bytes * bytes).

Definition float (b : bytes) : H Q :=
  hlift (raise_if_none ValueError_literal (py_float b)).

Definition int (b : bytes) : H Z :=
  hlift (raise_if_none ValueError_literal (py_int b)).

(** [comment.split(b' = ')[1]]. *)
Definition value_of (comment : bytes) : H bytes :=
  hlift (item (split " = " comment) 1).

(** [if tool not in self.extruders: self.extruders[tool] = Extruder(tool)]. *)
Definition ensure_extruder (t : nat) : H unit :=
  hmodify (fun s =>
    match extruders s !! t with
    | Some _ => s
    | None => with_extruders (<[t := Extruder t]> (extruders s)) s
    end).

(** [self.extruders[tool].attr = v]. *)
Definition set_extruder (t : nat) (f : Extruder_t -> Extruder_t) : H unit :=
  s <~ hget ;;
  match extruders s !! t with
  | Some e => hmodify (with_extruders (<[t := f e]> (extruders s)))
  | None => hraise KeyError
  end.

(** [tool = 0; for d in ds: body; tool += 1]. *)
Fixpoint for_tools (body : nat -> bytes -> H unit) (ds : list bytes)
         (t : nat) : H unit :=
  match ds with
  | [] => hret tt
  | d :: ds' => body t d ;;; for_tools body ds' (S t)
  end.

(** A per-tool list of floats. *)
Definition float_list (sep : bytes) (store : Q -> Extruder_t -> Extruder_t)
           (comment : bytes) : H unit :=
  values <~ value_of comment ;;
  for_tools (fun t d =>
               ensure_extruder t ;;;
               v <~ float d ;;
               set_extruder t (store v))
            (split sep values) 0.

Definition parse_version (comment : bytes) : H unit :=
  match VERSION_RE_match comment with
  | Some (a, b, c) =>
      match py_int a, py_int b, py_int c with
      | Some x, Some y, Some w => hmodify (with_version (Some (x, y, w)))
      | _, _, _ => hret tt
      end
  | None => hret tt
  end.

(** [float(v.split(b"x")[i])]. *)
Definition coord (v : bytes) (i : nat) : H Q :=
  c <~ hlift (item (split "x" v) i) ;; float c.

Fixpoint delta_coords (values : list bytes) (x y : list Q)
  : H (list Q * list Q) :=
  match values with
  | [] => hret (x, y)
  | v :: values' =>
      a <~ coord v 0 ;;
      b <~ coord v 1 ;;
      delta_coords values' (x ++ [a]) (y ++ [b])
  end.

Definition parse_bed_shape (comment : bytes) : H unit :=
  value <~ value_of comment ;;
  let values := split "," value in
  if length values =? 4 then
    hmodify (with_machine_type (Some TYPE_CARTESIAN)) ;;;
    v0 <~ hlift (item values 0) ;;
    ox <~ coord v0 0 ;;
    hmodify (with_origin_offset_x (Some (- ox)%Q)) ;;;
    v0' <~ hlift (item values 0) ;;
    oy <~ coord v0' 1 ;;
    hmodify (with_origin_offset_y (Some (- oy)%Q)) ;;;
    v2 <~ hlift (item values 2) ;;
    sx <~ coord v2 0 ;;
    hmodify (with_stroke_x (Some (sx + - ox)%Q)) ;;;
    v2' <~ hlift (item values 2) ;;
    sy <~ coord v2' 1 ;;
    hmodify (with_stroke_y (Some (sy + - oy)%Q))
  else
    hmodify (with_machine_type (Some TYPE_DELTA)) ;;;
    xy <~ delta_coords values [] [] ;;
    match fst xy, snd xy with
    | x0 :: xs, y0 :: ys =>
        let sx := (Qmax_list x0 xs - Qmin_list x0 xs)%Q in
        let sy := (Qmax_list y0 ys - Qmin_list y0 ys)%Q in
        hmodify (with_stroke_x (Some sx)) ;;;
        hmodify (with_stroke_y (Some sy)) ;;;
        hmodify (with_origin_offset_x (Some (sx / 2)%Q)) ;;;
        hmodify (with_origin_offset_y (Some (sy / 2)%Q))
    | _, _ => hraise ValueError_literal (* max() of an empty sequence *)
    end.

Definition parse_filament_type (comment : bytes) : H unit :=
  values <~ value_of comment ;;
  for_tools (fun t d =>
               ensure_extruder t ;;;
               set_extruder t (set_filament_type (Some d)))
            (split ";" values) 0.

Definition parse_relative_e (comment : bytes) : H unit :=
  v <~ value_of comment ;;
  if String.eqb v "1" then hret tt else hraise ValueError_relative_e.

Definition parse_wipe (comment : bytes) : H unit :=
  values <~ value_of comment ;;
  for_tools (fun t d =>
               ensure_extruder t ;;;
               if String.eqb d "1"
               then set_extruder t (set_wipe (Some 4%Q))
               else hret tt)
            (split "," values) 0.

Definition parse_temperature (first : bool) (comment : bytes) : H unit :=
  values <~ value_of comment ;;
  for_tools (fun t d =>
               ensure_extruder t ;;;
               (if first
                then set_extruder t (set_temperature_nr (Some t))
                else hret tt) ;;;
               v <~ int d ;;
               set_extruder t (fun e =>
                 set_temperature_setpoints
                   (<[(if first then 1 else 2) := v]> (temperature_setpoints e)) e))
            (split "," values) 0.

(** A scalar setting: [self.attr = f(float(value))]. *)
Definition scalar (pre : bytes -> bytes) (store : Q -> self_t -> self_t)
           (comment : bytes) : H unit :=
  value <~ value_of comment ;;
  v <~ float (pre value) ;;
  hmodify (store v).

(** The [if]/[elif] chain on one comment. *)
Definition parse_comment (comment : bytes) : H unit :=
  if contains "generated by Slic3r" comment then parse_version comment
  else if contains "bed_shape =" comment then parse_bed_shape comment
  else if contains "extrusion_multiplier =" comment then
    float_list "," (fun v => set_feed_rate_multiplier (Some v)) comment
  else if contains "filament_type =" comment then parse_filament_type comment
  else if contains "retract_length =" comment then
    float_list "," (fun v => set_retract (Some v)) comment
  else if contains "retract_lift =" comment then
    float_list "," (fun v => set_z_hop (Some v)) comment
  else if contains "retract_speed =" comment then
    float_list "," (fun v => set_retract_speed (Some (60 * v)%Q)) comment
  else if contains "use_relative_e_distances =" comment then
    parse_relative_e comment
  else if contains "wipe = " comment then parse_wipe comment
  else if contains "perimeter_speed =" comment then
    scalar id (fun v => with_default_speed (Some (v * 60)%Q)) comment
  else if contains "z_offset =" comment then
    scalar id with_local_z_offset comment
  else if contains "first_layer_speed =" comment then
    scalar (strip "%") (fun v => with_first_layer_speed (Some v)) comment
  else if contains "travel_speed =" comment then
    scalar id (fun v => with_travel_xy_speed (Some (v * 60)%Q)) comment
  else if contains " layer_height =" comment then
    scalar id (fun v => with_layer_height (Some v)) comment
  else if contains "first_layer_temperature =" comment then
    parse_temperature true comment
  else if contains " temperature =" comment then
    parse_temperature false comment
  else hret tt.

(** The body of the loop over the lines of the layers. *)
Definition parse_header_line (ln : line) : H unit :=
  if truthy (fst ln) then hret tt
  else match snd ln with
       | Some comment => parse_comment comment
       | None => hraise TypeError (* [in] on [None] *)
       end.

Fixpoint scan_header (lns : list line) : H unit :=
  match lns with
  | [] => hret tt
  | ln :: lns' => parse_header_line ln ;;; scan_header lns'
  end.

(** [self.layer_height != 0.2]. *)
Definition unsupported_layer_height (s : self_t) : bool :=
  match layer_height s with
  | Some v => negb (Qeq_bool v (2 # 10))
  | None => true
  end.

(** What follows the loop. *)
Definition finish_header : H unit :=
  s <~ hget ;;
  if unsupported_layer_height s then hraise ValueError_layer_height
  else
    hmodify (fun s => with_outer_perimeter_speed (default_speed s) s) ;;;
    s1 <~ hget ;;
    match first_layer_speed s1, outer_perimeter_speed s1 with
    | Some f, Some o =>
        hmodify (with_first_layer_speed (Some (f / 100 * o)%Q)) ;;;
        hmodify (fun s =>
          with_extruders
            (fmap (M := gmap nat) (set_z_offset (Some (local_z_offset s)))
                  (extruders s)) s) ;;;
        hmodify (fun s => with_travel_z_speed (travel_xy_speed s) s)
    | _, _ => hraise TypeError
    end.

(** [parse_header], on [self.layers] and the attributes of [self]. *)
Definition parse_header (layers : list Layer_t) : H unit :=
  hmodify (with_local_z_offset 0%Q) ;;;
  scan_header (concat (map lines layers)) ;;;
  finish_header.

End Header.

(** The keys of the [if]/[elif] chain, in its order, and the first of them
    that a comment contains: the branch the comment takes. *)
Definition header_keys : list bytes :=
  ["generated by Slic3r"; "bed_shape ="; "extrusion_multiplier =";
   "filament_type ="; "retract_length ="; "retract_lift =";
   "retract_speed ="; "use_relative_e_distances ="; "wipe = ";
   "perimeter_speed ="; "z_offset ="; "first_layer_speed =";
   "travel_speed ="; " layer_height ="; "first_layer_temperature =";
   " temperature ="].

Definition first_key (comment : bytes) : option bytes :=
  List.find (fun k => contains k comment) header_keys.

(** A computation that never raises the layer-height error. *)
Definition quiet {A} (m : H A) : Prop :=
  forall s, fst (m s) <> inl ValueError_layer_height.

(** A computation that leaves [self.layer_height] alone. *)
Definition steady {A} (m : H A) : Prop :=
  forall s, layer_height (snd (m s)) = layer_height s.

(** A line that does not take the layer-height branch: it has a command,
    or its comment takes another branch or none. *)
Definition other_line (ln : line) : Prop :=
  truthy (fst ln) = true \/
  exists c, snd ln = Some c /\ first_key c <> Some " layer_height ="%string.

(** ** Instances of the external collaborators, for the examples

    Plain stand-ins for gcode.py and for the built-ins, enough to run the
    model on small files: a line is split at its first semicolon, a Z move
    is a [G1 Z...] command, a tool change is [T] followed by digits, and
    [int] and [float] read unsigned decimal literals. *)

Definition read_gcode_line_ex (raw : bytes) : line :=
  match split ";" raw with
  | [c] => (if truthy (Some c) then Some c else None, None)
  | c :: rest =>
      (if truthy (Some c) then Some c else None,
       Some (String.concat ";" rest))
  | [] => (None, None)
  end.

Definition is_z_move_ex (c : bytes) : bool := String.prefix "G1 Z" c.

Fixpoint digits_value (acc : Z) (s : bytes) : option Z :=
  match s with
  | EmptyString => Some acc
  | String c s' =>
      if is_digit c
      then digits_value (10 * acc + Z.of_nat (nat_of_ascii c - 48))%Z s'
      else None
  end.

Definition dec_int (s : bytes) : option Z :=
  match s with
  | EmptyString => None
  | _ => digits_value 0 s
  end.

Definition dec_float (s : bytes) : option Q :=
  match split "." s with
  | [i] => option_map inject_Z (dec_int i)
  | [i; f] =>
      match dec_int i, digits_value 0 f with
      | Some n, Some m =>
          Some (Qmake (n * 10 ^ Z.of_nat (String.length f) + m)
                      (Z.to_pos (10 ^ Z.of_nat (String.length f))))
      | _, _ => None
      end
  | _ => None
  end.

Definition is_tool_change_ex (c : bytes) : option nat :=
  match c with
  | String "T" d => option_map Z.to_nat (dec_int d)
  | _ => None
  end.

(** The markers of the thickness example: Z = 0.2, 0.4, 0.4, 0.6. *)
Definition markers_file : list bytes :=
  ["M83";
   ";BEFORE_LAYER_CHANGE 0 0.2"; "G1 Z0.2"; "G1 X1 E1";
   ";BEFORE_LAYER_CHANGE 1 0.4"; "G1 Z0.4"; "G1 X2 E1";
   ";BEFORE_LAYER_CHANGE 2 0.4"; "G1 Z0.4"; "G1 X3 E1";
   ";BEFORE_LAYER_CHANGE 3 0.6"; "G1 Z0.6"; "G1 X4 E1"].

(** A layer of the classifier examples: ordinal, Z, and one command that
    is a tool change or not. *)
Definition sample_layer (n : Z) (lz : Q) (tool_change : bool) : Layer_t :=
  add_line (Some (if tool_change then "T1" else "G1 X1 E1"), None)
           (Layer n lz (2 # 10)).

(** Five Z-buckets whose required counts are, from the highest Z down,
    1, 2, 2, 2, 1. *)
Definition streak_layers : list Layer_t :=
  [sample_layer 0 (2 # 10) true;
   sample_layer 1 (4 # 10) true; sample_layer 2 (4 # 10) true;
   sample_layer 3 (6 # 10) true; sample_layer 4 (6 # 10) true;
   sample_layer 5 (8 # 10) true; sample_layer 6 (8 # 10) true;
   sample_layer 7 1 true; sample_layer 8 1 false].

(** Five Z-buckets whose required counts are, from the highest Z down,
    2, 1, 2, 1, 2: three spikes, no two of them adjacent. *)
Definition spike_layers : list Layer_t :=
  [sample_layer 0 (2 # 10) true; sample_layer 1 (2 # 10) true;
   sample_layer 2 (4 # 10) true;
   sample_layer 3 (6 # 10) true; sample_layer 4 (6 # 10) true;
   sample_layer 5 (8 # 10) true;
   sample_layer 6 1 true; sample_layer 7 1 true].

(** A file in which the marker of layer 1 comes twice. *)
Definition repeated_marker_file : list bytes :=
  [";BEFORE_LAYER_CHANGE 0 0.2"; "G1 Z0.2"; "G1 X1 E1";
   ";BEFORE_LAYER_CHANGE 1 0.4"; "G1 Z0.4"; "G1 X2 E1";
   ";BEFORE_LAYER_CHANGE 1 0.4"; "G1 Z0.4"; "G1 X3 E1"].

(** Markers at Z = 0.2, 0.5 and 0.6: layers of different thickness. *)
Definition uneven_file : list bytes :=
  [";BEFORE_LAYER_CHANGE 0 0.2"; "G1 Z0.2";
   ";BEFORE_LAYER_CHANGE 1 0.5"; "G1 Z0.5";
   ";BEFORE_LAYER_CHANGE 2 0.6"; "G1 Z0.6"].

(** The first marker, of index 0, at Z = 0.3, and its Z move. *)
Definition first_marker_file : list bytes :=
  [";BEFORE_LAYER_CHANGE 0 0.3"; "G1 Z0.3"].

(** A first layer whose start g-code ends at line 1 and whose first tool
    change after it selects the given tool; a second tool change follows. *)
Definition first_layer_with (t : bytes) : Layer_t :=
  mkLayer 0 (2 # 10) (2 # 10)
          [(Some "T0", None); (Some "G28", None); (Some "G1 X1", None);
           (Some t, None); (Some "G1 X2", None); (Some "T2", None)]
          None 0 true 1.

(** Headers: a version pattern that matches nothing (the version stays
    unknown), a fresh object, and a first layer made of comment lines. *)
Definition no_version (_ : bytes) : option (bytes * bytes * bytes) := None.

Definition fresh_self : self_t := new_self gmap_empty None None None None None.

Definition header_layers (comments : list bytes) : list Layer_t :=
  [set_lines (map (fun c => (None, Some c)) comments)
             (FirstLayer 0 (2 # 10) (2 # 10))].

Definition good_header : list bytes :=
  [" perimeter_speed = 40"; " first_layer_speed = 70%";
   " use_relative_e_distances = 1"; " layer_height = 0.2"].

Definition thick_header : list bytes :=
  [" perimeter_speed = 40"; " first_layer_speed = 70%";
   " use_relative_e_distances = 1"; " layer_height = 0.3"].

(** Layer height 0.2, relative E distances disabled. *)
Definition relative_e_off_header : list bytes :=
  [" layer_height = 0.2"; " perimeter_speed = 40";
   " first_layer_speed = 70%"; " use_relative_e_distances = 0"].

(** Relative E distances disabled, then the layer height. *)
Definition relative_e_off_first : list bytes :=
  [" use_relative_e_distances = 0"; " layer_height = 0.3"].

(** ** Reading the segmenter *)

(** Do all the bytes of [s] satisfy [p]?  Does its first byte? *)
Fixpoint all_bytes (p : ascii -> bool) (s : bytes) : bool :=
  match s with
  | EmptyString => true
  | String c s' => p c && all_bytes p s'
  end.

Definition starts_with (p : ascii -> bool) (s : bytes) : bool :=
  match s with
  | EmptyString => false
  | String c _ => p c
  end.

Definition is_dot (c : ascii) : bool := Ascii.eqb "." c.

Section SegmenterReadout.
Variable read_gcode_line : bytes -> line.
Variable is_z_move : bytes -> bool.
Variable py_int : bytes -> option Z.
Variable py_float : bytes -> option Q.

(** A line whose comment is a layer marker; a line whose command is a Z
    move. *)
Definition marker_line (raw : bytes) : bool :=
  match snd (read_gcode_line raw) with
  | Some c => truthy (Some c) && bool_decide (is_Some (LAYER_START_RE_match c))
  | None => false
  end.

Definition z_move_line (raw : bytes) : bool :=
  match fst (read_gcode_line raw) with
  | Some c => truthy (Some c) && is_z_move c
  | None => false
  end.

(** The numbers of a marker can be read. *)
Definition readable_marker (raw : bytes) : Prop :=
  forall c g0 g1,
    snd (read_gcode_line raw) = Some c ->
    LAYER_START_RE_match c = Some (g0, g1) ->
    is_Some (py_int g0) /\ is_Some (py_float g1).

(** The first half of a turn of the loop: the marker check. *)
Definition seg_mark (st : seg_state) (raw : bytes) : res seg_state :=
  match snd (read_gcode_line raw) with
  | Some c =>
      if truthy (snd (read_gcode_line raw)) then
        ret <- check_layer_change py_int py_float c None ;;
        match ret with
        | Some (n, v) =>
            inr (mkSeg (prev_layer st) (prev_height st)
                       (current_layer st) true n v (seg_layers st))
        | None => inr st
        end
      else inr st
  | None => inr st
  end.

(** The second half: the Z move check. *)
Definition seg_act (st1 : seg_state) (raw : bytes) : seg_state :=
  match fst (read_gcode_line raw) with
  | Some c =>
      if truthy (fst (read_gcode_line raw)) && layer_start st1
      then if is_z_move c then on_z_move st1 else st1
      else st1
  | None => st1
  end.

(** [current_layer.add_line(cmd, comment)]. *)
Definition seg_store (st2 : seg_state) (raw : bytes) : seg_state :=
  mkSeg (prev_layer st2) (prev_height st2)
        (add_line (fst (read_gcode_line raw), snd (read_gcode_line raw))
                  (current_layer st2))
        (layer_start st2) (layer_num st2) (layer_z st2) (seg_layers st2).

End SegmenterReadout.

(** The lines stored so far, in the closed layers and in the open one. *)
Definition stored (st : seg_state) : list line :=
  concat (map lines (seg_layers st)) ++ lines (current_layer st).

(** The closed layers and the open one. *)
Definition all_layers (st : seg_state) : list Layer_t :=
  seg_layers st ++ [current_layer st].

(** The first layer as [parse_layers] creates it, and a layer that is not
    a first layer. *)
Definition untouched_first (l : Layer_t) : Prop :=
  is_first l = true /\ num l = 0%Z /\ z l = (2 # 10)%Q /\
  height l = (2 # 10)%Q.

Definition fresh_tags (l : Layer_t) : Prop :=
  action l = None /\ tower_slots l = 0 /\ start_gcode_end l = 0.

(** How many lines satisfy [p]. *)
Definition count_lines (p : bytes -> bool) (lines : list bytes) : nat :=
  length (List.filter p lines).

(** The shape of the layers during segmentation: the first layer, as
    created, comes first and is the only first layer. *)
Definition seg_shape (st : seg_state) : Prop :=
  (seg_layers st = [] /\ untouched_first (current_layer st)) \/
  (exists l0 rest,
     seg_layers st = l0 :: rest /\ untouched_first l0 /\
     Forall (fun l => is_first l = false) rest /\
     is_first (current_layer st) = false).

(** A first layer whose only tool change is inside the start g-code. *)
Definition first_layer_start_only : Layer_t :=
  mkLayer 0 (2 # 10) (2 # 10)
          [(Some "T0", None); (Some "G28", None); (Some "G1 X1", None);
           (Some "G1 X2", None)]
          None 0 true 1.

(** ** Reading the settings extractor *)

(** A line without a command: the only lines [parse_header] reads. *)
Definition comment_only (ln : line) : bool := negb (truthy (fst ln)).

(** The keys whose branch begins by taking the text after the first
    [" = "]: all of them but the version line. *)
Definition valued_key (k : bytes) : Prop :=
  In k header_keys /\ k <> "generated by Slic3r"%string.

(** [self.extruders[t]] after [ensure_extruder t], updated by [g]. *)
Definition update_tool (t : nat) (g : Extruder_t -> Extruder_t)
           (s : self_t) : self_t :=
  with_extruders
    (<[t := g (default (Extruder t) (extruders s !! t))]> (extruders s)) s.


(** The extruder of tool [t] after a per-tool list [ds] has been read from
    tool 0 on, each item [d] updating its extruder by [g t d]. *)
Definition tool_after (g : nat -> bytes -> Extruder_t -> Extruder_t)
           (ds : list bytes) (m : gmap nat Extruder_t) (t : nat)
  : option Extruder_t :=
  match ds !! t with
  | Some d => Some (g t d (default (Extruder t) (m !! t)))
  | None => m !! t
  end.

(** The lines of [good_header] spread over two layers, between commands:
    the comments that ride on a command are not read. *)
Definition spread_header_layers : list Layer_t :=
  [set_lines [(None, Some " perimeter_speed = 40"%string);
              (Some "G28"%string, Some " layer_height = 0.3"%string);
              (None, Some " first_layer_speed = 70%"%string)]
             (FirstLayer 0 (2 # 10) (2 # 10));
   set_lines [(Some "G1 X1"%string, None);
              (None, Some " use_relative_e_distances = 1"%string);
              (None, Some " layer_height = 0.2"%string)]
             (Layer 1 (4 # 10) (2 # 10))].

(** A line with neither command nor comment after the layer height. *)
Definition blank_line_layers : list Layer_t :=
  [set_lines [(None, Some " layer_height = 0.2"%string); (None, None);
              (None, Some " perimeter_speed = 40"%string)]
             (FirstLayer 0 (2 # 10) (2 # 10))].



(** The scalar settings: the key of each, the attribute it writes (the
    Z offset is the local variable of [parse_header]), and what it stores
    for the text after [" = "]. *)
Inductive scalar_t : Type :=
  S_perimeter_speed | S_z_offset | S_first_layer_speed | S_travel_speed
| S_layer_height.

Definition scalar_key (k : scalar_t) : bytes :=
  match k with
  | S_perimeter_speed => "perimeter_speed ="
  | S_z_offset => "z_offset ="
  | S_first_layer_speed => "first_layer_speed ="
  | S_travel_speed => "travel_speed ="
  | S_layer_height => " layer_height ="
  end.

Definition scalar_attr (k : scalar_t) (s : self_t) : option Q :=
  match k with
  | S_perimeter_speed => default_speed s
  | S_z_offset => Some (local_z_offset s)
  | S_first_layer_speed => first_layer_speed s
  | S_travel_speed => travel_xy_speed s
  | S_layer_height => layer_height s
  end.

Definition scalar_read (py_float : bytes -> option Q) (k : scalar_t)
           (txt : bytes) : option Q :=
  match k with
  | S_perimeter_speed => option_map (fun v => v * 60)%Q (py_float txt)
  | S_z_offset => py_float txt
  | S_first_layer_speed => py_float (strip "%" txt)
  | S_travel_speed => option_map (fun v => v * 60)%Q (py_float txt)
  | S_layer_height => py_float txt
  end.

(** A computation that leaves the attribute of a scalar setting alone. *)
Definition keeps {A} (k : scalar_t) (m : H A) : Prop :=
  forall s, scalar_attr k (snd (m s)) = scalar_attr k s.

(** A line that does not take the branch of the setting: it has a
    command, or its comment takes another branch or none. *)
Definition not_setting (k : scalar_t) (ln : line) : Prop :=
  truthy (fst ln) = true \/
  exists c, snd ln = Some c /\ first_key c <> Some (scalar_key k).

(** A header with two perimeter speeds, and one without a Z offset. *)
Definition two_speeds_lines : list line :=
  [(None, Some " perimeter_speed = 40"%string);
   (None, Some " retract_length = 3,3"%string);
   (None, Some " perimeter_speed = 25"%string);
   (Some "G28"%string, Some " perimeter_speed = 99"%string);
   (None, Some " travel_speed = 120"%string)].

(** A header that gives the Z offset before the lines that create the
    extruders. *)
Definition offset_header : list bytes :=
  [" z_offset = 0.1"; " retract_length = 3,3"; " perimeter_speed = 40";
   " first_layer_speed = 70%"; " layer_height = 0.2"]%string.

(** ** Reading the tagging pass *)

Section TaggingReadout.
Variable is_tool_change : bytes -> option nat.

(** The tag fits the layer: [ACT_SWITCH] on a layer with tool changes,
    [ACT_INFILL] or [ACT_PASS] on a layer without. *)
Definition fits (l : Layer_t) : Prop :=
  if has_tool_changes is_tool_change l then action l = Some ACT_SWITCH
  else action l = Some ACT_INFILL \/ action l = Some ACT_PASS.

(** [l'] is [l] with its tag kept, or with a tag that fits. *)
Definition retag (l l' : Layer_t) : Prop :=
  body l = body l' /\ (action l' = action l \/ fits l').

(** Has the object named [i] tool changes? *)
Definition has_tool_changes_at (store : list Layer_t) (i : nat) : bool :=
  match store !! i with
  | Some l => has_tool_changes is_tool_change l
  | None => false
  end.

(** Of the layers [ids] of a bucket: how many have tool changes, and
    which have none, in the order of the bucket. *)
Definition switch_count (store : list Layer_t) (ids : list nat) : nat :=
  length (List.filter (has_tool_changes_at store) ids).

Definition other_ids (store : list Layer_t) (ids : list nat) : list nat :=
  List.filter (fun i => negb (has_tool_changes_at store i)) ids.

(** What the first loop of the tagging pass writes to a layer. *)
Definition switch_tagged (s : nat) (l : Layer_t) : Layer_t :=
  if has_tool_changes is_tool_change l
  then set_action ACT_SWITCH (set_tower_slots s l)
  else set_tower_slots s l.

End TaggingReadout.

(** Layers that carry stale tags: a switch tag on a layer without tool
    change, a pass tag on a layer with one. *)
Definition stale_layers : list Layer_t :=
  [set_action ACT_SWITCH (sample_layer 0 (2 # 10) false);
   set_action ACT_PASS (sample_layer 1 (4 # 10) true);
   sample_layer 2 (4 # 10) false].
(** ** Generic facts *)


Lemma bind_inr {A B} (m : res A) (k : A -> res B) (b : B) :
  bind m k = inr b -> exists a, m = inr a /\ k a = inr b.
Proof. destruct m as [e|a]; simpl; [discriminate | eauto]. Qed.

Lemma mapM_res_ext {A B} (f g : A -> res B) (l : list A) :
  (forall x, In x l -> f x = g x) -> mapM_res f l = mapM_res g l.
Proof.
  induction l as [|x l IH]; simpl; intros Hfg; [reflexivity|].
  rewrite (Hfg x) by auto. destruct (g x); simpl; [reflexivity|].
  rewrite IH by auto. reflexivity.
Qed.

Lemma mapM_res_map {A B} (f : A -> res B) (g : A -> B) (l : list A) :
  (forall x, In x l -> f x = inr (g x)) -> mapM_res f l = inr (map g l).
Proof.
  induction l as [|x l IH]; simpl; intros Hfg; [reflexivity|].
  rewrite (Hfg x) by auto. simpl. rewrite IH by auto. reflexivity.
Qed.

Lemma mapM_res_In {A B} (f : A -> res B) (l : list A) (ys : list B) (x : A) :
  mapM_res f l = inr ys -> In x l -> exists y, f x = inr y /\ In y ys.
Proof.
  revert ys. induction l as [|a l IH]; simpl; intros ys H Hin; [tauto|].
  apply bind_inr in H as (y & Hy & H).
  apply bind_inr in H as (ys' & Hys & H). injection H as <-.
  destruct Hin as [->|Hin]; [exists y; simpl; auto|].
  destruct (IH _ Hys Hin) as (y' & ? & ?). exists y'; simpl; auto.
Qed.

Lemma mapM_res_length {A B} (f : A -> res B) (l : list A) (ys : list B) :
  mapM_res f l = inr ys -> length ys = length l.
Proof.
  revert ys. induction l as [|a l IH]; simpl; intros ys H.
  - injection H as <-. reflexivity.
  - apply bind_inr in H as (y & Hy & H).
    apply bind_inr in H as (ys' & Hys & H). injection H as <-.
    simpl. f_equal. auto.
Qed.

Lemma Permutation_concat {A} (l l' : list (list A)) :
  Permutation l l' -> Permutation (concat l) (concat l').
Proof.
  induction 1 as [|x l l' _ IH|x y l|l l' l'' _ IH1 _ IH2]; simpl.
  - constructor.
  - apply Permutation_app_head, IH.
  - rewrite !app_assoc. apply Permutation_app_tail, Permutation_app_comm.
  - etransitivity; eassumption.
Qed.

(** *** The insertion sort *)
Section SortFacts.
Context {A : Type} (leb : A -> A -> bool).
Hypothesis leb_total : forall x y, leb x y = true \/ leb y x = true.

Lemma insert_sorted_perm x l : Permutation (insert_sorted leb x l) (x :: l).
Proof.
  induction l as [|y l IH]; simpl; [reflexivity|].
  destruct (leb x y); [reflexivity|].
  rewrite IH. apply perm_swap.
Qed.

Lemma sorted_perm l : Permutation (sorted leb l) l.
Proof.
  induction l as [|x l IH]; simpl; [reflexivity|].
  rewrite insert_sorted_perm, IH. reflexivity.
Qed.

Lemma insert_sorted_Sorted x l :
  Sorted (fun a b => leb a b = true) l ->
  Sorted (fun a b => leb a b = true) (insert_sorted leb x l).
Proof.
  induction 1 as [|y l Hs IH Hhd]; simpl.
  - repeat constructor.
  - destruct (leb x y) eqn:E.
    + constructor; [constructor; assumption | constructor; assumption].
    + constructor; [assumption|].
      destruct l as [|y' l]; simpl in *.
      * constructor. destruct (leb_total x y); congruence.
      * destruct (leb x y'); constructor.
        -- destruct (leb_total x y); congruence.
        -- inversion Hhd; assumption.
Qed.

Lemma sorted_Sorted l : Sorted (fun a b => leb a b = true) (sorted leb l).
Proof.
  induction l as [|x l IH]; simpl; [constructor|].
  apply insert_sorted_Sorted, IH.
Qed.
End SortFacts.

(** *** The dictionary *)


Lemma keeps_key_append i : keeps_key (append_layer i).
Proof. intros b. reflexivity. Qed.

Lemma keeps_key_set_slots s : keeps_key (set_slots s).
Proof. intros b. reflexivity. Qed.

Lemma dict_alter_keys f k d :
  keeps_key f -> map b_z (dict_alter f k d) = map b_z d.
Proof.
  intros Hf. induction d as [|b d IH]; simpl; [reflexivity|].
  destruct (Qeq_bool (b_z b) k); simpl; [rewrite Hf | rewrite IH]; reflexivity.
Qed.

Lemma dict_get_alter_same f k d :
  keeps_key f -> dict_get k (dict_alter f k d) = option_map f (dict_get k d).
Proof.
  intros Hf. induction d as [|b d IH]; simpl; [reflexivity|].
  destruct (Qeq_bool (b_z b) k) eqn:E; simpl.
  - rewrite Hf, E. reflexivity.
  - rewrite E. exact IH.
Qed.

Lemma dict_get_alter_other f k k' d :
  keeps_key f -> ~ (k == k')%Q ->
  dict_get k' (dict_alter f k d) = dict_get k' d.
Proof.
  intros Hf Hne. induction d as [|b d IH]; simpl; [reflexivity|].
  destruct (Qeq_bool (b_z b) k) eqn:E; simpl.
  - rewrite Hf. destruct (Qeq_bool (b_z b) k') eqn:E'; [|reflexivity].
    exfalso. apply Hne. apply Qeq_bool_eq in E, E'. rewrite <- E, E'. reflexivity.
  - rewrite IH. reflexivity.
Qed.

Lemma dict_get_None k d : dict_get k d = None -> ~ InA Qeq k (map b_z d).
Proof.
  induction d as [|b d IH]; simpl; intros H Hin.
  - inversion Hin.
  - destruct (Qeq_bool (b_z b) k) eqn:E; [discriminate|].
    inversion Hin as [? ? Hk|? ? Hk]; subst.
    + apply Qeq_bool_neq in E. apply E. symmetry. exact Hk.
    + exact (IH H Hk).
Qed.

Lemma dict_get_Some_key k d b : dict_get k d = Some b -> (b_z b == k)%Q /\ In b d.
Proof.
  induction d as [|b' d IH]; simpl; [discriminate|].
  destruct (Qeq_bool (b_z b') k) eqn:E.
  - intros [= <-]. split; [apply Qeq_bool_eq, E | auto].
  - intros H. destruct (IH H). auto.
Qed.

(** With pairwise different keys, the bucket stored under its own key is
    the one [d[k]] returns. *)
Lemma dict_get_self d b :
  NoDupA Qeq (map b_z d) -> In b d -> dict_get (b_z b) d = Some b.
Proof.
  induction d as [|b' d IH]; simpl; intros Hnd Hin; [tauto|].
  inversion Hnd as [|? ? Hni Hnd']; subst.
  destruct Hin as [->|Hin]; [rewrite Qeq_bool_refl; reflexivity|].
  destruct (Qeq_bool (b_z b') (b_z b)) eqn:E; [|auto].
  exfalso. apply Hni. apply Qeq_bool_eq in E.
  apply InA_alt. exists (b_z b). split; [exact E | apply in_map, Hin].
Qed.

(** *** Step 1: every layer lands in exactly one bucket *)


Lemma all_ids_append_bucket d k : all_ids (d ++ [mkBucket k [] None]) = all_ids d.
Proof.
  unfold all_ids. rewrite map_app, concat_app. simpl. rewrite !app_nil_r.
  reflexivity.
Qed.

Lemma dict_alter_append_ids i k d b :
  dict_get k d = Some b ->
  Permutation (all_ids (dict_alter (append_layer i) k d)) (i :: all_ids d).
Proof.
  unfold all_ids. induction d as [|b' d IH]; simpl; [discriminate|].
  destruct (Qeq_bool (b_z b') k); simpl.
  - intros _. rewrite <- app_assoc. simpl.
    symmetry. apply Permutation_middle.
  - intros H. rewrite (IH H). symmetry. apply Permutation_middle.
Qed.

Lemma dict_get_app_new k d :
  dict_get k d = None ->
  dict_get k (d ++ [mkBucket k [] None]) = Some (mkBucket k [] None).
Proof.
  induction d as [|b d IH]; simpl.
  - intros _. rewrite Qeq_bool_refl. reflexivity.
  - destruct (Qeq_bool (b_z b) k); [discriminate | exact IH].
Qed.

Lemma populate_wf ls : forall i d,
  NoDupA Qeq (map b_z d) ->
  Permutation (all_ids d) (seq 0 i) ->
  NoDupA Qeq (map b_z (populate i ls d)) /\
  Permutation (all_ids (populate i ls d)) (seq 0 (i + length ls)).
Proof.
  induction ls as [|l ls IH]; simpl; intros i d Hnd Hperm.
  - rewrite Nat.add_0_r. auto.
  - replace (i + S (length ls)) with (S i + length ls) by lia.
    apply IH.
    + rewrite dict_alter_keys by apply keeps_key_append.
      destruct (dict_get (z l) d) eqn:E; [assumption|].
      rewrite map_app. simpl. apply NoDupA_app; try assumption.
      * exact Q_Setoid.
      * repeat constructor. intros H; inversion H.
      * intros x Hx Hx'. apply (dict_get_None _ _ E).
        inversion Hx' as [? ? Hk|? ? Hk]; subst; [|inversion Hk].
        apply InA_eqA with x; [exact Q_Setoid | exact Hk | exact Hx].
    + rewrite seq_S. simpl.
      destruct (dict_get (z l) d) eqn:E.
      * rewrite (dict_alter_append_ids _ _ _ _ E), Hperm.
        apply Permutation_cons_append.
      * rewrite (dict_alter_append_ids _ _ _ _ (dict_get_app_new _ _ E)).
        rewrite all_ids_append_bucket, Hperm.
        apply Permutation_cons_append.
Qed.

Lemma populate_spec (layers : list Layer_t) :
  NoDupA Qeq (map b_z (populate 0 layers [])) /\
  Permutation (all_ids (populate 0 layers [])) (seq 0 (length layers)).
Proof.
  apply (populate_wf layers 0 []); simpl; constructor.
Qed.

(** *** The z-list *)

Lemma Qle_bool_total x y : Qle_bool x y = true \/ Qle_bool y x = true.
Proof.
  destruct (Qlt_le_dec x y) as [H|H].
  - left. apply Qle_bool_iff, Qlt_le_weak, H.
  - right. apply Qle_bool_iff, H.
Qed.

Lemma zs_desc_perm d : Permutation (zs_desc d) (map b_z d).
Proof.
  unfold zs_desc. rewrite <- Permutation_rev. apply sorted_perm.
Qed.

(** The z-list runs from the highest Z to the lowest. *)
Lemma zs_desc_descending d :
  Sorted (fun a b => Qle_bool b a = true) (zs_desc d).
Proof.
  unfold zs_desc. rewrite rev_alt.
  apply (Sorted_reverse (fun a b => Qle_bool a b = true)).
  apply sorted_Sorted, Qle_bool_total.
Qed.

Lemma zs_desc_alter f k d :
  keeps_key f -> zs_desc (dict_alter f k d) = zs_desc d.
Proof. intros Hf. unfold zs_desc. rewrite dict_alter_keys by assumption. reflexivity. Qed.

Lemma NoDupA_perm (l l' : list Q) :
  Permutation l l' -> NoDupA Qeq l -> NoDupA Qeq l'.
Proof.
  intros Hp Hnd. eapply PermutationA_preserves_NoDupA; [exact Q_Setoid | | exact Hnd].
  apply Permutation_PermutationA; [exact Q_Setoid | exact Hp].
Qed.

(** The buckets in the order of a z-list that enumerates the keys. *)
Lemma zs_buckets d zs :
  NoDupA Qeq (map b_z d) -> Permutation zs (map b_z d) ->
  exists bs, zs = map b_z bs /\ Permutation bs d /\
             forall b, In b bs -> dict_get (b_z b) d = Some b.
Proof.
  intros Hnd Hp.
  destruct (Permutation_map_inv _ _ Hp) as (bs & -> & Hbs).
  exists bs. split; [reflexivity|]. split; [symmetry; exact Hbs|].
  intros b Hb. apply dict_get_self; [exact Hnd|].
  eapply Permutation_in; [symmetry; exact Hbs | exact Hb].
Qed.

(** *** Step 2: the slot loop *)

Lemma slot_state_app s c rs rs' :
  slot_state s c (rs ++ rs') =
  slot_state (fst (slot_state s c rs)) (snd (slot_state s c rs)) rs'.
Proof.
  unfold slot_state. rewrite fold_left_app.
  destruct (fold_left _ rs (s, c)); reflexivity.
Qed.

Lemma slot_state_cons s c r rs :
  slot_state s c (r :: rs) =
  slot_state (fst (slot_step s c r)) (snd (slot_step s c r)) rs.
Proof. unfold slot_state. simpl. destruct (slot_step s c r); reflexivity. Qed.

(** The counter stays below three, and [slots] never decreases. *)
Lemma slot_step_inv s c lrs :
  c <= 2 ->
  s <= fst (slot_step s c lrs) /\ snd (slot_step s c lrs) <= 2.
Proof.
  intros Hc. unfold slot_step.
  destruct (s <? lrs) eqn:E.
  - apply Nat.ltb_lt in E.
    destruct (3 <=? S c) eqn:E3; simpl.
    + lia.
    + apply Nat.leb_gt in E3. lia.
  - destruct (3 <=? c) eqn:E3; simpl.
    + apply Nat.leb_le in E3. lia.
    + lia.
Qed.

(** A promotion happens only at a bucket above [slots] that finds the
    counter at two; [slots] then becomes that bucket's count. *)
Lemma slot_step_promotes s c lrs :
  c <= 2 -> fst (slot_step s c lrs) <> s ->
  s < lrs /\ c = 2 /\ slot_step s c lrs = (lrs, 0).
Proof.
  intros Hc. unfold slot_step.
  destruct (s <? lrs) eqn:E.
  - apply Nat.ltb_lt in E.
    destruct (3 <=? S c) eqn:E3; simpl; [|congruence].
    apply Nat.leb_le in E3. intros _. repeat split; [assumption | lia].
  - destruct (3 <=? c) eqn:E3; simpl; [|congruence].
    apply Nat.leb_le in E3. lia.
Qed.

Lemma slot_state_inv rs : forall s c,
  c <= 2 ->
  s <= fst (slot_state s c rs) /\ snd (slot_state s c rs) <= 2.
Proof.
  induction rs as [|r rs IH]; intros s c Hc.
  - simpl. lia.
  - rewrite slot_state_cons.
    destruct (slot_step_inv s c r Hc) as [Hs Hc'].
    destruct (IH (fst (slot_step s c r)) _ Hc'). split; [lia | assumption].
Qed.

Lemma slot_scan_ge rs : forall s c,
  c <= 2 -> Forall (fun x => s <= x) (slot_scan s c rs).
Proof.
  induction rs as [|r rs IH]; intros s c Hc; simpl; constructor.
  - apply slot_step_inv, Hc.
  - destruct (slot_step_inv s c r Hc) as [Hs Hc'].
    eapply Forall_impl; [apply IH, Hc'|]. simpl. intros; lia.
Qed.

Lemma slot_scan_length s c rs : length (slot_scan s c rs) = length rs.
Proof. revert s c. induction rs; simpl; intros; [|f_equal]; auto. Qed.

(** The value recorded for a bucket is [slots] as that bucket's own turn
    of the loop leaves it. *)
Lemma slot_scan_lookup rs : forall s c pre x post,
  rs = pre ++ x :: post ->
  slot_scan s c rs !! length pre =
  Some (fst (slot_step (fst (slot_state s c pre)) (snd (slot_state s c pre)) x)).
Proof.
  intros s c pre. revert s c rs.
  induction pre as [|p pre IH]; intros s c rs x post ->; simpl.
  - reflexivity.
  - rewrite slot_state_cons. eapply IH. reflexivity.
Qed.

(** With fewer than three buckets above [slots] still to be counted, no
    promotion takes place, and the counter has counted those buckets,
    adjacent or not. *)
Lemma slot_scan_few rs : forall s c,
  c + count_above s rs < 3 ->
  slot_scan s c rs = map (fun _ => s) rs /\
  slot_state s c rs = (s, c + count_above s rs).
Proof.
  induction rs as [|r rs IH]; intros s c H.
  - unfold slot_state, count_above. simpl. rewrite Nat.add_0_r. auto.
  - rewrite slot_state_cons. cbn [slot_scan map].
    assert (Hstep : slot_step s c r = (s, c + count_above s [r]) /\
                    count_above s (r :: rs)
                    = count_above s [r] + count_above s rs).
    { unfold slot_step, count_above in *. cbn [List.filter] in H |- *.
      destruct (s <? r); cbn [length] in H |- *.
      - destruct (3 <=? S c) eqn:E3; [apply Nat.leb_le in E3; lia|].
        split; [f_equal; lia | reflexivity].
      - destruct (3 <=? c) eqn:E3; [apply Nat.leb_le in E3; lia|].
        split; [f_equal; lia | reflexivity]. }
    destruct Hstep as [-> Hcount]. cbn [fst snd].
    destruct (IH s (c + count_above s [r])) as [-> ->]; [lia|].
    split; [reflexivity | f_equal; lia].
Qed.

Section ClassifierFacts.
Variable is_tool_change : bytes -> option nat.

Let req := required is_tool_change.

Lemma required_alter_other store f k k' d :
  keeps_key f -> ~ (k == k')%Q ->
  req store (dict_alter f k d) k' = req store d k'.
Proof.
  intros Hf Hne. unfold req, required, getitem.
  rewrite dict_get_alter_other by assumption. reflexivity.
Qed.

Lemma slot_pass_spec store zs : forall s c d rs,
  NoDupA Qeq zs ->
  mapM_res (req store d) zs = inr rs ->
  exists d',
    slot_pass is_tool_change store zs s c d = inr (fst (slot_state s c rs), d') /\
    map b_z d' = map b_z d /\
    map b_layers d' = map b_layers d /\
    mapM_res (fun k => getslots k d') zs = inr (slot_scan s c rs) /\
    (forall k, ~ InA Qeq k zs -> dict_get k d' = dict_get k d).
Proof.
  induction zs as [|k zs IH]; intros s c d rs Hnd Hrs; simpl in *.
  - injection Hrs as <-. exists d. auto.
  - apply bind_inr in Hrs as (r & Hr & Hrs).
    apply bind_inr in Hrs as (rs' & Hrs' & Hrs). injection Hrs as <-.
    inversion Hnd as [|? ? Hk Hnd']; subst.
    pose proof Hr as Hr0.
    unfold req, required in Hr. apply bind_inr in Hr as (b & Hb & Hcnt).
    rewrite Hb. simpl. rewrite Hcnt. simpl.
    set (sc := slot_step s c r).
    assert (Hrs1 : mapM_res (req store (dict_alter (set_slots (fst sc)) k d)) zs
                   = inr rs').
    { rewrite <- Hrs'. apply mapM_res_ext. intros k' Hk'.
      apply required_alter_other; [apply keeps_key_set_slots|].
      intros Heq. apply Hk. apply InA_alt. exists k'. auto. }
    destruct (IH (fst sc) (snd sc) _ _ Hnd' Hrs1)
      as (d' & Hrun & Hkeys & Hlay & Hrec & Hframe).
    exists d'. rewrite slot_state_cons. fold sc.
    split; [exact Hrun|]. split.
    { rewrite Hkeys. apply dict_alter_keys, keeps_key_set_slots. }
    split.
    { rewrite Hlay. clear. induction d as [|b d IHd]; simpl; [reflexivity|].
      destruct (Qeq_bool (b_z b) k); simpl; [|rewrite IHd]; reflexivity. }
    split.
    { unfold getslots at 1, getitem. rewrite (Hframe k Hk).
      rewrite dict_get_alter_same by apply keeps_key_set_slots.
      unfold getitem in Hb. destruct (dict_get k d); [|discriminate].
      simpl. rewrite Hrec. reflexivity. }
    intros k0 Hk0. rewrite Hframe.
    + apply dict_get_alter_other; [apply keeps_key_set_slots|].
      intros Heq. apply Hk0. constructor. symmetry. exact Heq.
    + intros Hin. apply Hk0. constructor 2. exact Hin.
Qed.

(** *** The tagging pass *)

Lemma tag_of_refl l : tag_of l l.
Proof. split; auto. Qed.

Lemma tag_of_trans l1 l2 l3 : tag_of l1 l2 -> tag_of l2 l3 -> tag_of l1 l3.
Proof. intros [H1 H1'] [H2 H2']. split; [congruence | auto]. Qed.

Lemma tags_refl store : Forall2 tag_of store store.
Proof. induction store; constructor; auto using tag_of_refl. Qed.

Lemma tags_trans s1 s2 s3 :
  Forall2 tag_of s1 s2 -> Forall2 tag_of s2 s3 -> Forall2 tag_of s1 s3.
Proof.
  intros H. revert s3. induction H; intros s3 H3; inversion H3; subst;
    constructor; eauto using tag_of_trans.
Qed.

Lemma tags_insert store i l l' :
  store !! i = Some l -> tag_of l l' -> Forall2 tag_of store (<[i:=l']> store).
Proof.
  intros Hi Ht. rewrite <- (list_insert_id store i l Hi) at 1.
  apply Forall2_insert; [apply tags_refl | exact Ht].
Qed.

Lemma has_tool_changes_body l l' :
  body l = body l' ->
  has_tool_changes is_tool_change l = has_tool_changes is_tool_change l'.
Proof. unfold body, has_tool_changes. intros [= _ _ _ -> _ _]. reflexivity. Qed.

Lemma deref_valid (store : list Layer_t) i :
  i < length store -> exists l, store !! i = Some l /\ deref store i = inr l.
Proof.
  intros Hi. destruct (lookup_lt_is_Some_2 store i Hi) as [l Hl].
  exists l. unfold deref. rewrite Hl. auto.
Qed.

Lemma tags_lookup store store' i l :
  Forall2 tag_of store store' -> store !! i = Some l ->
  exists l', store' !! i = Some l' /\ tag_of l l'.
Proof. intros H Hl. exact (Forall2_lookup_l _ _ _ _ _ H Hl). Qed.

Lemma tag_switch_spec ids s : forall store filled,
  Forall (fun i => i < length store) ids ->
  exists store' filled',
    tag_switch is_tool_change ids s store filled = inr (store', filled') /\
    Forall2 tag_of store store' /\
    forall i, In i ids ->
      exists l', store' !! i = Some l' /\
                 (has_tool_changes is_tool_change l' = true -> tagged l').
Proof.
  induction ids as [|i ids IH]; intros store filled Hv; simpl.
  - exists store, filled. split; [reflexivity|]. split; [apply tags_refl | tauto].
  - inversion Hv as [|? ? Hi Hv']; subst.
    destruct (deref_valid store i Hi) as (l & Hl & ->). simpl.
    set (l1 := set_tower_slots s l).
    assert (Hb1 : body l = body l1) by reflexivity.
    destruct (has_tool_changes is_tool_change l1) eqn:E.
    + set (l2 := set_action ACT_SWITCH l1).
      destruct (IH (<[i:=l2]> store) (S filled)) as (store' & f' & Hrun & Ht & Hin).
      { rewrite length_insert. exact Hv'. }
      exists store', f'. split; [exact Hrun|].
      assert (Ht1 : Forall2 tag_of store (<[i:=l2]> store)).
      { apply (tags_insert _ _ l); [exact Hl|]. split; [reflexivity|].
        intros _. unfold tagged, l2. simpl. eauto. }
      split; [eapply tags_trans; eassumption|].
      intros j [<-|Hj]; [|auto].
      destruct (tags_lookup _ _ i l2 Ht) as (l' & Hl' & _ & Htag).
      { apply list_lookup_insert_eq. exact Hi. }
      exists l'. split; [exact Hl'|]. intros _. apply Htag.
      unfold tagged, l2. simpl. eauto.
    + destruct (IH (<[i:=l1]> store) filled) as (store' & f' & Hrun & Ht & Hin).
      { rewrite length_insert. exact Hv'. }
      exists store', f'. split; [exact Hrun|].
      assert (Ht1 : Forall2 tag_of store (<[i:=l1]> store)).
      { apply (tags_insert _ _ l); [exact Hl|]. split; [reflexivity|].
        intros Ha. exact Ha. }
      split; [eapply tags_trans; eassumption|].
      intros j [<-|Hj]; [|auto].
      destruct (tags_lookup _ _ i l1 Ht) as (l' & Hl' & Hb & _).
      { apply list_lookup_insert_eq. exact Hi. }
      exists l'. split; [exact Hl'|].
      rewrite <- (has_tool_changes_body _ _ Hb), E. discriminate.
Qed.

Lemma tag_other_write ids s store filled i l a :
  (forall store0 filled0,
     Forall (fun i => i < length store0) ids ->
     exists store',
       tag_other is_tool_change ids s store0 filled0 = inr store' /\
       Forall2 tag_of store0 store' /\
       forall i, In i ids ->
         exists l', store' !! i = Some l' /\
                    (has_tool_changes is_tool_change l' = false -> tagged l')) ->
  Forall (fun i => i < length store) ids ->
  i < length store -> store !! i = Some l ->
  exists store',
    tag_other is_tool_change ids s (<[i:=set_action a l]> store) filled
      = inr store' /\
    Forall2 tag_of store store' /\
    forall j, i = j \/ In j ids ->
      exists l', store' !! j = Some l' /\
                 (has_tool_changes is_tool_change l' = false -> tagged l').
Proof.
  intros IH Hv Hi Hl.
  destruct (IH (<[i:=set_action a l]> store) filled) as (store' & Hrun & Ht & Hin).
  { rewrite length_insert. exact Hv. }
  exists store'. split; [exact Hrun|].
  assert (Ht1 : Forall2 tag_of store (<[i:=set_action a l]> store)).
  { apply (tags_insert _ _ l); [exact Hl|]. split; [reflexivity|].
    intros _. unfold tagged. simpl. eauto. }
  split; [eapply tags_trans; eassumption|].
  intros j [<-|Hj]; [|auto].
  destruct (tags_lookup _ _ i (set_action a l) Ht) as (l' & Hl' & _ & Htag).
  { apply list_lookup_insert_eq. exact Hi. }
  exists l'. split; [exact Hl'|]. intros _. apply Htag.
  unfold tagged. simpl. eauto.
Qed.

Lemma tag_other_spec ids s : forall store filled,
  Forall (fun i => i < length store) ids ->
  exists store',
    tag_other is_tool_change ids s store filled = inr store' /\
    Forall2 tag_of store store' /\
    forall i, In i ids ->
      exists l', store' !! i = Some l' /\
                 (has_tool_changes is_tool_change l' = false -> tagged l').
Proof.
  induction ids as [|i ids IH]; intros store filled Hv; simpl.
  - exists store. split; [reflexivity|]. split; [apply tags_refl | tauto].
  - inversion Hv as [|? ? Hi Hv']; subst.
    destruct (deref_valid store i Hi) as (l & Hl & ->). simpl.
    destruct (has_tool_changes is_tool_change l) eqn:E; simpl.
    + destruct (IH store filled Hv') as (store' & Hrun & Ht & Hin).
      exists store'. split; [exact Hrun|]. split; [exact Ht|].
      intros j [<-|Hj]; [|auto].
      destruct (tags_lookup _ _ i l Ht Hl) as (l' & Hl' & Hb & _).
      exists l'. split; [exact Hl'|].
      rewrite <- (has_tool_changes_body _ _ Hb), E. discriminate.
    + destruct (filled <? s); eapply tag_other_write; eauto.
Qed.


Lemma tag_pass_spec d zs : forall store,
  (forall k, In k zs -> taggable d (length store) k) ->
  exists store',
    tag_pass is_tool_change zs d store = inr store' /\
    Forall2 tag_of store store' /\
    forall k b i, In k zs -> dict_get k d = Some b -> In i (b_layers b) ->
      exists l', store' !! i = Some l' /\ tagged l'.
Proof.
  induction zs as [|k zs IH]; intros store Hz; simpl.
  - exists store. split; [reflexivity|]. split; [apply tags_refl | tauto].
  - destruct (Hz k) as (b & s & Hb & Hs & Hs1 & Hv); [simpl; auto|].
    unfold getslots, getitem. rewrite Hb. simpl. rewrite Hs. simpl.
    destruct (s =? 0) eqn:E0; [apply Nat.eqb_eq in E0; lia|].
    destruct (tag_switch_spec (b_layers b) s store 0 Hv)
      as (store1 & filled & -> & Ht1 & Hin1). simpl.
    pose proof (Forall2_length _ _ _ Ht1) as Hlen1.
    destruct (tag_other_spec (b_layers b) s store1 filled)
      as (store2 & -> & Ht2 & Hin2).
    { rewrite <- Hlen1. exact Hv. }
    simpl. pose proof (Forall2_length _ _ _ Ht2) as Hlen2.
    destruct (IH store2) as (store' & Hrun & Ht & Hin).
    { intros k' Hk'. rewrite <- Hlen2, <- Hlen1. apply Hz. simpl. auto. }
    exists store'. split; [exact Hrun|].
    split; [eauto using tags_trans|].
    intros k' b' i [<-|Hk'] Hb' Hi; [|eauto].
    assert (b' = b) by congruence. subst b'.
    destruct (Hin1 i Hi) as (l1 & Hl1 & Htag1).
    destruct (Hin2 i Hi) as (l2 & Hl2 & Htag2).
    destruct (tags_lookup _ _ _ _ Ht2 Hl1) as (l2' & Hl2' & Hb12 & Hmono).
    assert (l2' = l2) by congruence. subst l2'.
    destruct (tags_lookup _ _ _ _ Ht Hl2) as (l' & Hl' & _ & Hmono').
    exists l'. split; [exact Hl'|]. apply Hmono'.
    destruct (has_tool_changes is_tool_change l2) eqn:E.
    + apply Hmono, Htag1.
      rewrite (has_tool_changes_body _ _ Hb12). exact E.
    + apply Htag2. reflexivity.
Qed.

(** *** Step 3: packing and sorting *)

Lemma pack_spec d bs : forall acc,
  (forall b, In b bs -> dict_get (b_z b) d = Some b) ->
  pack (map b_z bs) d acc = inr (acc ++ concat (map b_layers bs)).
Proof.
  induction bs as [|b bs IH]; intros acc Hb; simpl.
  - rewrite app_nil_r. reflexivity.
  - unfold getitem. rewrite (Hb b) by (simpl; auto). simpl.
    rewrite IH by (intros; apply Hb; simpl; auto).
    rewrite app_assoc. reflexivity.
Qed.

Lemma keyed_spec store ids :
  Forall (fun i => i < length store) ids ->
  exists ks, keyed store ids = inr ks /\ map snd ks = ids /\
             Forall (key_from store) ks.
Proof.
  induction 1 as [|i ids Hi _ IH]; simpl.
  - exists []. auto.
  - destruct (deref_valid store i Hi) as (l & Hl & ->). simpl.
    destruct IH as (ks & -> & Hsnd & Hks). simpl.
    exists ((num l, i) :: ks). split; [reflexivity|].
    split; [simpl; congruence|].
    constructor; [exists l; auto | exact Hks].
Qed.

Lemma objects_keys store ks :
  Forall (key_from store) ks ->
  map num (objects store (map snd ks)) = map fst ks.
Proof.
  unfold objects. induction 1 as [|kv ks (l & Hl & Hn) _ IH]; simpl.
  - reflexivity.
  - rewrite Hl, Hn. simpl. f_equal. exact IH.
Qed.

Lemma objects_seq (l : list Layer_t) : forall pre,
  objects (pre ++ l) (seq (length pre) (length l)) = l.
Proof.
  unfold objects. induction l as [|x l IH]; intros pre; simpl; [reflexivity|].
  rewrite lookup_app_r, Nat.sub_diag by lia. simpl. f_equal.
  specialize (IH (pre ++ [x])). rewrite length_app, Nat.add_1_r in IH.
  rewrite <- app_assoc in IH. exact IH.
Qed.

Lemma objects_all (store : list Layer_t) :
  objects store (seq 0 (length store)) = store.
Proof. exact (objects_seq store []). Qed.

Lemma num_leb_total a b : num_leb a b = true \/ num_leb b a = true.
Proof. unfold num_leb. rewrite !Z.leb_le. lia. Qed.

Lemma Sorted_num_leb ks :
  Sorted (fun a b => num_leb a b = true) ks -> Sorted Z.le (map fst ks).
Proof.
  induction 1 as [|a ks _ IH Hhd]; simpl; constructor; [exact IH|].
  destruct Hhd as [|b ks Hab]; simpl; constructor.
  apply Z.leb_le. exact Hab.
Qed.

(** A sorted list without repetition is strictly increasing. *)
Lemma Sorted_le_NoDup (l : list Z) :
  Sorted Z.le l -> List.NoDup l -> Sorted Z.lt l.
Proof.
  induction 1 as [|a l _ IH Hhd]; intros Hnd; constructor.
  - apply IH. inversion Hnd; assumption.
  - destruct Hhd as [|b l Hab]; constructor.
    inversion Hnd as [|? ? Hni _]; subst.
    assert (a <> b) by (intros ->; apply Hni; simpl; auto). lia.
Qed.

(** *** The whole of [filter_layers] *)

Lemma mapM_res_total {A B} (f : A -> res B) (l : list A) :
  (forall x, In x l -> exists y, f x = inr y) -> exists ys, mapM_res f l = inr ys.
Proof.
  induction l as [|x l IH]; simpl; intros H; [eauto|].
  destruct (H x) as (y & ->); [auto|]. simpl.
  destruct IH as (ys & ->); [auto|]. simpl. eauto.
Qed.

Lemma count_tool_changes_total store ids : forall lrs,
  Forall (fun i => i < length store) ids ->
  exists n, count_tool_changes is_tool_change store ids lrs = inr n.
Proof.
  induction ids as [|i ids IH]; intros lrs Hv; simpl; [eauto|].
  inversion Hv as [|? ? Hi Hv']; subst.
  destruct (deref_valid store i Hi) as (l & _ & ->). simpl. apply IH, Hv'.
Qed.

Lemma ids_valid d n b i :
  Permutation (all_ids d) (seq 0 n) -> In b d -> In i (b_layers b) -> i < n.
Proof.
  intros Hp Hb Hi.
  assert (Hin : In i (seq 0 n)).
  { eapply Permutation_in; [exact Hp|]. unfold all_ids.
    apply in_concat. exists (b_layers b). split; [apply in_map, Hb | exact Hi]. }
  apply in_seq in Hin. lia.
Qed.

Lemma getslots_inr k d s :
  getslots k d = inr s ->
  exists b, dict_get k d = Some b /\ b_slots b = Some s.
Proof.
  unfold getslots, getitem. destruct (dict_get k d) as [b|]; simpl; [|discriminate].
  destruct (b_slots b) eqn:E; simpl; [|discriminate].
  intros [= <-]. eauto.
Qed.

Lemma filter_layers_spec (layers : list Layer_t) :
  exists rs r,
    required_counts is_tool_change layers = inr rs /\
    filter_layers is_tool_change layers = inr r /\
    recorded_slots r = inr (slot_scan 1 0 rs) /\
    f_max_slots r = fst (slot_state 1 0 rs) /\
    (forall b, In b (f_layer_data r) -> exists s, b_slots b = Some s /\ 1 <= s) /\
    Forall2 tag_of layers (f_layers r) /\
    Forall tagged (f_layers r) /\
    Permutation (f_filtered_layers r) (seq 0 (length layers)) /\
    Sorted Z.le (map num (objects (f_layers r) (f_filtered_layers r))).
Proof.
  unfold required_counts, filter_layers, recorded_slots.
  set (d := populate 0 layers []). set (n := length layers).
  destruct (populate_spec layers) as [Hnd Hperm]. fold d n in Hnd, Hperm.
  pose proof (zs_desc_perm d) as Hzs.
  assert (Hzsnd : NoDupA Qeq (zs_desc d)).
  { eapply NoDupA_perm; [symmetry; exact Hzs | exact Hnd]. }
  destruct (zs_buckets d (zs_desc d) Hnd Hzs) as (bs & Hzbs & Hbs & Hget).
  (* the required counts *)
  destruct (mapM_res_total (required is_tool_change layers d) (zs_desc d))
    as (rs & Hrs).
  { intros k Hk. rewrite Hzbs in Hk. apply in_map_iff in Hk as (b & <- & Hb).
    unfold required, getitem. rewrite (Hget b Hb). simpl.
    apply count_tool_changes_total. apply List.Forall_forall. intros i Hi.
    eapply ids_valid; [exact Hperm | | exact Hi].
    eapply Permutation_in; [exact Hbs | exact Hb]. }
  exists rs.
  (* the slot loop *)
  destruct (slot_pass_spec layers (zs_desc d) 1 0 d rs Hzsnd Hrs)
    as (d' & Hrun & Hkeys & Hlay & Hrec & _).
  rewrite Hrun. simpl.
  assert (Hnd' : NoDupA Qeq (map b_z d')) by (rewrite Hkeys; exact Hnd).
  assert (Hids' : all_ids d' = all_ids d) by (unfold all_ids; congruence).
  assert (Hzd' : zs_desc d' = zs_desc d) by (unfold zs_desc; congruence).
  assert (Hslots : forall b, In b d' -> exists s, b_slots b = Some s /\ 1 <= s).
  { intros b Hb.
    assert (Hk : In (b_z b) (zs_desc d)).
    { eapply Permutation_in; [symmetry; exact Hzs|].
      rewrite <- Hkeys. apply in_map, Hb. }
    destruct (mapM_res_In _ _ _ _ Hrec Hk) as (s & Hs & Hin).
    apply getslots_inr in Hs as (b' & Hb' & Hs).
    rewrite (dict_get_self d' b Hnd' Hb) in Hb'. injection Hb' as <-.
    exists s. split; [exact Hs|].
    pose proof (slot_scan_ge rs 1 0 ltac:(lia)) as Hge.
    rewrite List.Forall_forall in Hge. apply Hge. exact Hin. }
  (* the tagging pass *)
  destruct (tag_pass_spec d' (rev (zs_desc d)) layers) as (store & Htag & Htags & Hall).
  { intros k Hk. apply in_rev in Hk.
    assert (Hk' : In k (map b_z d')).
    { rewrite Hkeys. eapply Permutation_in; [exact Hzs | exact Hk]. }
    apply in_map_iff in Hk' as (b & <- & Hb).
    destruct (Hslots b Hb) as (s & Hs & Hs1).
    exists b, s. split; [apply dict_get_self; assumption|].
    split; [exact Hs|]. split; [exact Hs1|].
    apply List.Forall_forall. intros i Hi.
    eapply ids_valid; [rewrite Hids'; exact Hperm | exact Hb | exact Hi]. }
  rewrite Htag. simpl.
  pose proof (Forall2_length _ _ _ Htags) as Hlen.
  (* packing *)
  destruct (zs_buckets d' (rev (zs_desc d)) Hnd') as (bs' & Hzbs' & Hbs' & Hget').
  { rewrite <- Permutation_rev, Hkeys. exact Hzs. }
  rewrite Hzbs', (pack_spec d' bs' [] Hget'). simpl.
  assert (Hpacked : Permutation (concat (map b_layers bs')) (seq 0 n)).
  { rewrite <- Hperm, <- Hids'. unfold all_ids.
    apply Permutation_concat, Permutation_map, Hbs'. }
  destruct (keyed_spec store (concat (map b_layers bs'))) as (ks & -> & Hsnd & Hks).
  { apply List.Forall_forall. intros i Hi.
    assert (Hin : In i (seq 0 n)) by (eapply Permutation_in; eassumption).
    apply in_seq in Hin. rewrite <- Hlen. fold n. lia. }
  simpl. eexists. split; [exact Hrs|]. split; [reflexivity|]. simpl.
  pose proof (sorted_perm num_leb ks) as Hsp.
  split; [rewrite Hzd'; exact Hrec|].
  split; [reflexivity|].
  split; [exact Hslots|].
  split; [exact Htags|].
  split.
  { apply Forall_lookup. intros i l' Hl'.
    assert (Hi : i < n).
    { unfold n. rewrite Hlen. eapply lookup_lt_Some; exact Hl'. }
    assert (Hin : In i (all_ids d')).
    { rewrite Hids'. eapply Permutation_in; [symmetry; exact Hperm|].
      apply in_seq. lia. }
    unfold all_ids in Hin. apply in_concat in Hin as (ids & Hids & Hi').
    apply in_map_iff in Hids as (b & <- & Hb).
    destruct (Hall (b_z b) b i) as (l'' & Hl'' & Ht).
    - rewrite <- in_rev. eapply Permutation_in; [symmetry; exact Hzs|].
      rewrite <- Hkeys. apply in_map, Hb.
    - apply dict_get_self; assumption.
    - exact Hi'.
    - congruence. }
  split.
  { rewrite <- Hpacked, <- Hsnd. apply Permutation_map, Hsp. }
  rewrite objects_keys.
  - apply Sorted_num_leb, sorted_Sorted, num_leb_total.
  - rewrite List.Forall_forall. intros kv Hkv. rewrite List.Forall_forall in Hks.
    apply Hks. rewrite Hsp in Hkv. exact Hkv.
Qed.

End ClassifierFacts.

(** ** The slot loop and the filtered list: the properties *)

Lemma slot_scan_sorted rs : forall s c,
  c <= 2 -> Sorted le (s :: slot_scan s c rs).
Proof.
  induction rs as [|r rs IH]; intros s c Hc; simpl.
  - repeat constructor.
  - destruct (slot_step_inv s c r Hc) as [Hs Hc'].
    constructor; [apply IH, Hc' | constructor; exact Hs].
Qed.

Section ClassifierClaims.
Variable is_tool_change : bytes -> option nat.

(** C4. For Z-buckets whose required tool-change counts are, from the
    highest Z down, 1, 2, 2, 2, 1, with [slots] starting at 1 and the
    counter at 0, the recorded slot counts are 1, 1, 1, 2, 2: the first two
    buckets above [slots] take the counter to 1 and 2 without promotion, the
    third promotes [slots] to 2, from that bucket on. *)
Theorem slots_of_1_2_2_2_1 (layers : list Layer_t) :
  required_counts is_tool_change layers = inr [1; 2; 2; 2; 1] ->
  exists r,
    filter_layers is_tool_change layers = inr r /\
    recorded_slots r = inr [1; 1; 1; 2; 2] /\
    f_max_slots r = 2 /\
    slot_state 1 0 [1] = (1, 0) /\
    slot_state 1 0 [1; 2] = (1, 1) /\
    slot_state 1 0 [1; 2; 2] = (1, 2) /\
    slot_state 1 0 [1; 2; 2; 2] = (2, 0).
Proof.
  intros Hreq.
  destruct (filter_layers_spec is_tool_change layers)
    as (rs & r & Hrs & Hrun & Hrec & Hmax & _).
  rewrite Hreq in Hrs. injection Hrs as <-.
  exists r. repeat split; assumption || reflexivity.
Qed.

(** C2, amended. [slots] is promoted only at a bucket whose required count
    is above the current [slots] and which finds the counter at two, that
    is at the third such bucket since the last promotion or the start,
    adjacent or not; [slots] then becomes that bucket's count.  Until the
    first promotion the counter is the number of buckets above 1 seen so
    far.  A sequence with fewer than three buckets above 1 never raises
    [slots]. *)
Theorem slot_promotion_counts_three (layers : list Layer_t) (rs : list nat) :
  required_counts is_tool_change layers = inr rs ->
  exists r,
    filter_layers is_tool_change layers = inr r /\
    recorded_slots r = inr (slot_scan 1 0 rs) /\
    f_max_slots r = fst (slot_state 1 0 rs) /\
    (forall pre x post,
       rs = pre ++ x :: post ->
       let sc := slot_state 1 0 pre in
       fst (slot_step (fst sc) (snd sc) x) <> fst sc ->
       fst sc < x /\ snd sc = 2 /\ slot_step (fst sc) (snd sc) x = (x, 0)) /\
    (forall pre post,
       rs = pre ++ post -> count_above 1 pre < 3 ->
       slot_state 1 0 pre = (1, count_above 1 pre)) /\
    (count_above 1 rs < 3 ->
       recorded_slots r = inr (map (fun _ => 1) rs) /\ f_max_slots r = 1).
Proof.
  intros Hreq.
  destruct (filter_layers_spec is_tool_change layers)
    as (rs' & r & Hrs & Hrun & Hrec & Hmax & _).
  rewrite Hreq in Hrs. injection Hrs as <-.
  exists r. split; [exact Hrun|]. split; [exact Hrec|]. split; [exact Hmax|].
  split.
  - intros pre x post _ sc Hne.
    apply slot_step_promotes; [|exact Hne].
    apply (slot_state_inv pre 1 0). lia.
  - split.
    + intros pre post _ Hfew. apply (slot_scan_few pre 1 0). lia.
    + intros Hfew. destruct (slot_scan_few rs 1 0) as [Hscan Hlast]; [lia|].
      rewrite Hrec, Hmax, Hscan, Hlast. auto.
Qed.

(** C3, amended. Each Z-bucket records [slots] as its own turn of the loop
    leaves it, after the promotion check: a bucket that promotes [slots]
    records the promoted value, its own required count, and so do the
    buckets below it until the next promotion. *)
Theorem bucket_records_slots_after_promotion
        (layers : list Layer_t) (rs : list nat) :
  required_counts is_tool_change layers = inr rs ->
  exists r ss,
    filter_layers is_tool_change layers = inr r /\
    recorded_slots r = inr ss /\
    forall pre x post,
      rs = pre ++ x :: post ->
      let sc := slot_state 1 0 pre in
      ss !! length pre = Some (fst (slot_step (fst sc) (snd sc) x)) /\
      (fst (slot_step (fst sc) (snd sc) x) <> fst sc ->
       ss !! length pre = Some x).
Proof.
  intros Hreq.
  destruct (filter_layers_spec is_tool_change layers)
    as (rs' & r & Hrs & Hrun & Hrec & _).
  rewrite Hreq in Hrs. injection Hrs as <-.
  exists r, (slot_scan 1 0 rs). split; [exact Hrun|]. split; [exact Hrec|].
  intros pre x post Hsplit sc.
  pose proof (slot_scan_lookup rs 1 0 pre x post Hsplit) as Hlk.
  split; [exact Hlk|].
  intros Hne. rewrite Hlk. f_equal.
  destruct (slot_step_promotes (fst sc) (snd sc) x) as (_ & _ & Heq);
    [apply (slot_state_inv pre 1 0); lia | exact Hne |].
  fold sc. rewrite Heq. reflexivity.
Qed.

(** C10. Every Z-bucket records a slot count of at least 1: [slots] starts
    at 1 and the recorded values never decrease.  So no bucket is skipped
    by the tagging pass, every layer of [self.layers] receives an action
    tag and is otherwise left as it was, and [self.filtered_layers] lists
    every layer exactly once. *)
Theorem every_layer_is_tagged (layers : list Layer_t) :
  exists r ss,
    filter_layers is_tool_change layers = inr r /\
    recorded_slots r = inr ss /\
    Sorted le (1 :: ss) /\
    Forall (fun s => 1 <= s) ss /\
    (forall b, In b (f_layer_data r) -> exists s, b_slots b = Some s /\ 1 <= s) /\
    Forall2 tag_of layers (f_layers r) /\
    Forall tagged (f_layers r) /\
    Permutation (f_filtered_layers r) (seq 0 (length layers)) /\
    Permutation (objects (f_layers r) (f_filtered_layers r)) (f_layers r).
Proof.
  destruct (filter_layers_spec is_tool_change layers)
    as (rs & r & Hrs & Hrun & Hrec & Hmax & Hslots & Htags & Htagged & Hperm & _).
  exists r, (slot_scan 1 0 rs).
  split; [exact Hrun|]. split; [exact Hrec|].
  split; [apply slot_scan_sorted; lia|].
  split; [apply slot_scan_ge; lia|].
  split; [exact Hslots|]. split; [exact Htags|]. split; [exact Htagged|].
  split; [exact Hperm|].
  rewrite <- (objects_all (f_layers r)) at 2.
  rewrite <- (Forall2_length _ _ _ Htags).
  unfold objects. rewrite Hperm. reflexivity.
Qed.

(** C9, amended. [self.filtered_layers] consists of exactly the tagged
    layers, which are all the layers, sorted by ordinal: along the list the
    ordinals never decrease, and they increase strictly when no two layers
    share an ordinal. *)
Theorem filtered_layers_sorted_by_ordinal (layers : list Layer_t) :
  exists r,
    filter_layers is_tool_change layers = inr r /\
    Permutation (f_filtered_layers r) (seq 0 (length layers)) /\
    Permutation (objects (f_layers r) (f_filtered_layers r)) (f_layers r) /\
    Forall tagged (objects (f_layers r) (f_filtered_layers r)) /\
    map num (f_layers r) = map num layers /\
    Sorted Z.le (map num (objects (f_layers r) (f_filtered_layers r))) /\
    (List.NoDup (map num layers) ->
     Sorted Z.lt (map num (objects (f_layers r) (f_filtered_layers r)))).
Proof.
  destruct (filter_layers_spec is_tool_change layers)
    as (rs & r & _ & Hrun & _ & _ & _ & Htags & Htagged & Hperm & Hsorted).
  assert (Hobj : Permutation (objects (f_layers r) (f_filtered_layers r))
                             (f_layers r)).
  { rewrite <- (objects_all (f_layers r)) at 2.
    rewrite <- (Forall2_length _ _ _ Htags).
    unfold objects. rewrite Hperm. reflexivity. }
  assert (Hnum : map num (f_layers r) = map num layers).
  { clear -Htags. induction Htags as [|l l' ls ls' [Hb _] _ IH]; simpl; [reflexivity|].
    rewrite IH. f_equal. unfold body in Hb. congruence. }
  exists r. split; [exact Hrun|]. split; [exact Hperm|]. split; [exact Hobj|].
  split; [rewrite Hobj; exact Htagged|]. split; [exact Hnum|].
  split; [exact Hsorted|].
  intros Hnd. apply Sorted_le_NoDup; [exact Hsorted|].
  eapply Permutation_NoDup; [|exact Hnd].
  rewrite <- Hnum. symmetry. apply Permutation_map, Hobj.
Qed.

End ClassifierClaims.

(** *** The classifier on the examples *)

Lemma slots_of_1_2_2_2_1_witness :
  required_counts is_tool_change_ex streak_layers = inr [1; 2; 2; 2; 1] /\
  exists r,
    filter_layers is_tool_change_ex streak_layers = inr r /\
    recorded_slots r = inr [1; 1; 1; 2; 2] /\
    f_max_slots r = 2 /\
    slot_state 1 0 [1] = (1, 0) /\
    slot_state 1 0 [1; 2] = (1, 1) /\
    slot_state 1 0 [1; 2; 2] = (1, 2) /\
    slot_state 1 0 [1; 2; 2; 2] = (2, 0).
Proof.
  assert (H : required_counts is_tool_change_ex streak_layers
              = inr [1; 2; 2; 2; 1]) by (vm_compute; reflexivity).
  split; [exact H|].
  exact (slots_of_1_2_2_2_1 is_tool_change_ex streak_layers H).
Defined.

(** C2, as stated, fails: the required counts 2, 1, 2, 1, 2 have no three
    adjacent buckets above 1, yet the fifth bucket promotes [slots] to 2. *)
Lemma isolated_spikes_raise_slots :
  required_counts is_tool_change_ex spike_layers = inr [2; 1; 2; 1; 2] /\
  three_in_a_row 1 [2; 1; 2; 1; 2] = false /\
  exists r,
    filter_layers is_tool_change_ex spike_layers = inr r /\
    recorded_slots r = inr [1; 1; 1; 1; 2] /\
    f_max_slots r = 2.
Proof.
  split; [vm_compute; reflexivity|]. split; [reflexivity|].
  destruct (filter_layers_spec is_tool_change_ex spike_layers)
    as (rs & r & Hrs & Hrun & Hrec & Hmax & _).
  assert (Hreq : required_counts is_tool_change_ex spike_layers
                 = inr [2; 1; 2; 1; 2]) by (vm_compute; reflexivity).
  rewrite Hreq in Hrs. injection Hrs as <-.
  exists r. split; [exact Hrun|]. split; [exact Hrec | exact Hmax].
Qed.

Lemma slot_promotion_counts_three_witness :
  required_counts is_tool_change_ex spike_layers = inr [2; 1; 2; 1; 2] /\
  exists r,
    filter_layers is_tool_change_ex spike_layers = inr r /\
    recorded_slots r = inr (slot_scan 1 0 [2; 1; 2; 1; 2]) /\
    f_max_slots r = fst (slot_state 1 0 [2; 1; 2; 1; 2]) /\
    (forall pre x post,
       [2; 1; 2; 1; 2] = pre ++ x :: post ->
       let sc := slot_state 1 0 pre in
       fst (slot_step (fst sc) (snd sc) x) <> fst sc ->
       fst sc < x /\ snd sc = 2 /\ slot_step (fst sc) (snd sc) x = (x, 0)) /\
    (forall pre post,
       [2; 1; 2; 1; 2] = pre ++ post -> count_above 1 pre < 3 ->
       slot_state 1 0 pre = (1, count_above 1 pre)) /\
    (count_above 1 [2; 1; 2; 1; 2] < 3 ->
       recorded_slots r = inr (map (fun _ => 1) [2; 1; 2; 1; 2]) /\
       f_max_slots r = 1).
Proof.
  assert (H : required_counts is_tool_change_ex spike_layers
              = inr [2; 1; 2; 1; 2]) by (vm_compute; reflexivity).
  split; [exact H|].
  exact (slot_promotion_counts_three is_tool_change_ex spike_layers _ H).
Defined.

(** C3, as stated, fails: with the required counts 1, 2, 2, 2, 1 the fourth
    bucket finds [slots] at 1, promotes it, and records 2. *)
Lemma promoting_bucket_records_promoted_value :
  required_counts is_tool_change_ex streak_layers = inr [1; 2; 2; 2; 1] /\
  exists r ss,
    filter_layers is_tool_change_ex streak_layers = inr r /\
    recorded_slots r = inr ss /\
    ~ (forall i s, ss !! i = Some s ->
                   s = fst (slot_state 1 0 (take i [1; 2; 2; 2; 1]))).
Proof.
  assert (Hreq : required_counts is_tool_change_ex streak_layers
                 = inr [1; 2; 2; 2; 1]) by (vm_compute; reflexivity).
  split; [exact Hreq|].
  destruct (filter_layers_spec is_tool_change_ex streak_layers)
    as (rs & r & Hrs & Hrun & Hrec & _).
  rewrite Hreq in Hrs. injection Hrs as <-.
  exists r, (slot_scan 1 0 [1; 2; 2; 2; 1]).
  split; [exact Hrun|]. split; [exact Hrec|].
  intros H. specialize (H 3 2 eq_refl). discriminate H.
Qed.

Lemma bucket_records_slots_after_promotion_witness :
  required_counts is_tool_change_ex streak_layers = inr [1; 2; 2; 2; 1] /\
  exists r ss,
    filter_layers is_tool_change_ex streak_layers = inr r /\
    recorded_slots r = inr ss /\
    forall pre x post,
      [1; 2; 2; 2; 1] = pre ++ x :: post ->
      let sc := slot_state 1 0 pre in
      ss !! length pre = Some (fst (slot_step (fst sc) (snd sc) x)) /\
      (fst (slot_step (fst sc) (snd sc) x) <> fst sc ->
       ss !! length pre = Some x).
Proof.
  assert (H : required_counts is_tool_change_ex streak_layers
              = inr [1; 2; 2; 2; 1]) by (vm_compute; reflexivity).
  split; [exact H|].
  exact (bucket_records_slots_after_promotion
           is_tool_change_ex streak_layers _ H).
Defined.

(** C9, as stated, fails: a file whose marker of layer 1 comes twice gives
    layers that share an ordinal, and sorting cannot tell them apart. *)
Lemma repeated_ordinals_not_strictly_increasing :
  exists ls r,
    parse_layers read_gcode_line_ex is_z_move_ex dec_int dec_float
                 repeated_marker_file = inr ls /\
    filter_layers is_tool_change_ex ls = inr r /\
    map num (objects (f_layers r) (f_filtered_layers r)) = [0; 0; 1; 1]%Z /\
    ~ Sorted Z.lt (map num (objects (f_layers r) (f_filtered_layers r))).
Proof.
  eexists. eexists.
  split; [vm_compute; reflexivity|].
  split; [vm_compute; reflexivity|].
  split; [vm_compute; reflexivity|].
  vm_compute. intros H.
  inversion H as [|? ? _ Hhd]; subst. inversion Hhd as [|? ? Hlt]; subst.
  revert Hlt. vm_compute. discriminate.
Qed.

Lemma filtered_layers_sorted_by_ordinal_witness :
  List.NoDup (map num streak_layers) /\
  exists r,
    filter_layers is_tool_change_ex streak_layers = inr r /\
    Sorted Z.lt (map num (objects (f_layers r) (f_filtered_layers r))).
Proof.
  assert (Hnd : List.NoDup (map num streak_layers)).
  { apply NoDup_ListNoDup.
    apply (bool_decide_unpack (NoDup (map num streak_layers))).
    vm_compute. exact I. }
  split; [exact Hnd|].
  destruct (filtered_layers_sorted_by_ordinal is_tool_change_ex streak_layers)
    as (r & Hrun & _ & _ & _ & _ & _ & Hstrict).
  exists r. split; [exact Hrun | exact (Hstrict Hnd)].
Defined.

(** ** The layer segmenter: the properties *)

(** The state in which a Z move sets the Z of the current layer instead of
    opening a layer: the current layer has ordinal 1 and the marker has
    index 0. *)
Lemma on_z_move_sets_z st :
  num (current_layer st) = 1%Z -> layer_num st = 0%Z ->
  seg_layers (on_z_move st) = seg_layers st /\
  current_layer (on_z_move st) = set_z (layer_z st) (current_layer st) /\
  prev_layer (on_z_move st) = prev_layer st.
Proof.
  intros Hn Hm. unfold on_z_move. rewrite Hn, Hm. simpl. auto.
Qed.

(** In every other state the current layer is closed and a layer is opened
    at the marker's index and Z; its thickness is the Z of the layer just
    closed minus the Z of the layer closed before it (minus 0 when there is
    none), or the last such difference that was not zero. *)
Lemma on_z_move_opens st :
  (num (current_layer st) =? 1)%Z && (layer_num st =? 0)%Z = false ->
  let prev_z := match prev_layer st with Some p => z p | None => 0%Q end in
  let delta := (z (current_layer st) - prev_z)%Q in
  seg_layers (on_z_move st) = seg_layers st ++ [current_layer st] /\
  prev_layer (on_z_move st) = Some (current_layer st) /\
  num (current_layer (on_z_move st)) = layer_num st /\
  z (current_layer (on_z_move st)) = layer_z st /\
  height (current_layer (on_z_move st))
  = (if Qeq_bool delta 0 then prev_height st else delta).
Proof.
  intros Hg prev_z delta. unfold on_z_move. rewrite Hg. simpl.
  repeat split. fold prev_z. fold delta.
  destruct (Qeq_bool delta 0); reflexivity.
Qed.

(** The first layer is created with ordinal 0, so the first marker never
    finds the state of [on_z_move_sets_z]. *)
Lemma seg_init_ordinal : num (current_layer seg_init) = 0%Z.
Proof. reflexivity. Qed.

(** C1, the code at the failing input. With markers at Z = 0.2, 0.5 and
    0.6 the layer opened at 0.5 records the thickness 0.2 and the layer
    opened at 0.6 records 0.3: each records the thickness of the layer
    closed when it was opened, not its own Z minus the Z of that layer. *)
Theorem thickness_lags_one_layer :
  exists l0 l1 l2 l3,
    parse_layers read_gcode_line_ex is_z_move_ex dec_int dec_float
                 uneven_file = inr [l0; l1; l2; l3] /\
    ((z l1 == 2 # 10) /\ (z l2 == 5 # 10) /\ (z l3 == 6 # 10))%Q /\
    ((height l2 == 2 # 10) /\ ~ (height l2 == z l2 - z l1))%Q /\
    ((height l3 == z l2 - z l1) /\ ~ (height l3 == z l3 - z l2))%Q.
Proof.
  do 4 eexists. split; [vm_compute; reflexivity|].
  simpl. repeat split; try reflexivity; intros H; discriminate H.
Qed.

(** C7, the code at the failing input. On the first marker, of index 0 and
    Z = 0.3, and its Z move, the first layer keeps its Z of 0.2 and is
    closed, and a second layer is opened at (0, 0.3). *)
Theorem first_marker_opens_second_layer :
  exists l0 l1,
    parse_layers read_gcode_line_ex is_z_move_ex dec_int dec_float
                 first_marker_file = inr [l0; l1] /\
    is_first l0 = true /\ num l0 = 0%Z /\
    (z l0 == 2 # 10)%Q /\ ~ (z l0 == 3 # 10)%Q /\
    is_first l1 = false /\ num l1 = 0%Z /\ (z l1 == 3 # 10)%Q.
Proof.
  do 2 eexists. split; [vm_compute; reflexivity|].
  simpl. repeat split; try reflexivity. intros H; discriminate H.
Qed.

(** ** The first tool change: the properties *)

Section NormalizerClaims.
Variable is_tool_change : bytes -> option nat.

Lemma first_tool_change_cons first cmd comment rest idx :
  first_tool_change is_tool_change first ((cmd, comment) :: rest) idx
  = match (if (start_gcode_end first <? idx) && truthy cmd
           then match cmd with Some c => is_tool_change c | None => None end
           else None) with
    | Some last_match =>
        if last_match =? 0
        then delete_line idx first
        else insert_line idx None (Some "TOOL CHANGE"%string) first
    | None => first_tool_change is_tool_change first rest (S idx)
    end.
Proof. reflexivity. Qed.

(** A line that is not a tool change after the start g-code is passed
    over. *)
Lemma first_tool_change_pass first cmd comment idx :
  (start_gcode_end first < idx ->
   tool_change_line is_tool_change (cmd, comment) = false) ->
  (if (start_gcode_end first <? idx) && truthy cmd
   then match cmd with Some c => is_tool_change c | None => None end
   else None) = None.
Proof.
  intros Hno. destruct (start_gcode_end first <? idx) eqn:E; simpl; [|reflexivity].
  apply Nat.ltb_lt in E. specialize (Hno E).
  destruct cmd as [c|]; [|reflexivity]. simpl in Hno.
  destruct c as [|a c']; [reflexivity|]. simpl in *.
  destruct (is_tool_change (String a c')); [|reflexivity].
  exfalso. revert Hno. rewrite bool_decide_eq_true_2 by eauto. discriminate.
Qed.

Lemma first_tool_change_skip first rest : forall idx,
  (forall j ln, rest !! j = Some ln -> start_gcode_end first < idx + j ->
                tool_change_line is_tool_change ln = false) ->
  forall target post,
    first_tool_change is_tool_change first (rest ++ target :: post) idx
    = first_tool_change is_tool_change first (target :: post)
                        (idx + length rest).
Proof.
  induction rest as [|[cmd comment] rest IH]; intros idx Hno target post.
  - simpl. rewrite Nat.add_0_r. reflexivity.
  - rewrite <- app_comm_cons, first_tool_change_cons.
    rewrite (first_tool_change_pass first cmd comment).
    + rewrite IH.
      * f_equal. simpl. lia.
      * intros j ln Hj Hlt. apply (Hno (S j) ln); [exact Hj | lia].
    + intros Hlt. apply (Hno 0); [reflexivity | lia].
Qed.

(** Without a tool change after the start g-code the first layer stays as
    it is. *)
Lemma first_tool_change_none first rest : forall idx,
  (forall j ln, rest !! j = Some ln -> start_gcode_end first < idx + j ->
                tool_change_line is_tool_change ln = false) ->
  first_tool_change is_tool_change first rest idx = first.
Proof.
  induction rest as [|[cmd comment] rest IH]; intros idx Hno; [reflexivity|].
  rewrite first_tool_change_cons, (first_tool_change_pass first cmd comment).
  - apply IH. intros j ln Hj Hlt. apply (Hno (S j) ln); [exact Hj | lia].
  - intros Hlt. apply (Hno 0); [reflexivity | lia].
Qed.

(** C8. In the first layer, the first command after the start g-code
    that is a tool change is deleted when it selects tool 0, and gets the
    comment [TOOL CHANGE] inserted before it otherwise; the lines before
    and after it, other tool changes included, stay as they are. *)
Theorem first_tool_change_normalised
        (first : Layer_t) (others : list Layer_t)
        (pre post : list line) (c : bytes) (comment : option bytes) (t : nat) :
  lines first = pre ++ (Some c, comment) :: post ->
  start_gcode_end first < length pre ->
  truthy (Some c) = true ->
  is_tool_change c = Some t ->
  (forall j ln, pre !! j = Some ln -> start_gcode_end first < j ->
                tool_change_line is_tool_change ln = false) ->
  parse_print_settings is_tool_change (first :: others)
  = inr (set_lines
           (if t =? 0 then pre ++ post
            else pre ++ (None, Some "TOOL CHANGE"%string)
                     :: (Some c, comment) :: post)
           first :: others).
Proof.
  intros Hlines Hsge Hc Ht Hpre.
  unfold parse_print_settings. f_equal. f_equal.
  rewrite Hlines at 1.
  rewrite first_tool_change_skip by (intros j ln Hj Hlt; eapply Hpre; eauto).
  rewrite first_tool_change_cons. simpl "+".
  assert (E : (start_gcode_end first <? length pre) = true)
    by (apply Nat.ltb_lt; exact Hsge).
  rewrite E, Hc, Ht. simpl andb. cbv iota beta.
  unfold delete_line, insert_line. rewrite Hlines.
  rewrite take_app_length.
  assert (Hdrop : forall k (tl : list line),
            drop (k + length pre) (pre ++ tl) = drop k tl).
  { intros k tl. rewrite Nat.add_comm, <- drop_drop, drop_app_length.
    reflexivity. }
  destruct (t =? 0); f_equal; f_equal.
  - exact (Hdrop 1 _).
  - f_equal. exact (Hdrop 0 _).
Qed.

End NormalizerClaims.

Lemma first_tool_change_normalised_witness :
  parse_print_settings is_tool_change_ex [first_layer_with "T0"]
  = inr [set_lines [(Some "T0", None); (Some "G28", None);
                    (Some "G1 X1", None); (Some "G1 X2", None);
                    (Some "T2", None)]%string
                   (first_layer_with "T0")] /\
  parse_print_settings is_tool_change_ex [first_layer_with "T1"]
  = inr [set_lines [(Some "T0", None); (Some "G28", None);
                    (Some "G1 X1", None); (None, Some "TOOL CHANGE");
                    (Some "T1", None); (Some "G1 X2", None);
                    (Some "T2", None)]%string
                   (first_layer_with "T1")].
Proof.
  split.
  - apply (first_tool_change_normalised is_tool_change_ex
             (first_layer_with "T0") []
             [(Some "T0", None); (Some "G28", None); (Some "G1 X1", None)]%string
             [(Some "G1 X2", None); (Some "T2", None)]%string
             "T0" None 0).
    + reflexivity.
    + simpl. lia.
    + reflexivity.
    + reflexivity.
    + intros [|[|[|j]]] ln Hj Hlt; simpl in *; try lia.
      * injection Hj as <-. reflexivity.
      * discriminate Hj.
  - apply (first_tool_change_normalised is_tool_change_ex
             (first_layer_with "T1") []
             [(Some "T0", None); (Some "G28", None); (Some "G1 X1", None)]%string
             [(Some "G1 X2", None); (Some "T2", None)]%string
             "T1" None 1).
    + reflexivity.
    + simpl. lia.
    + reflexivity.
    + reflexivity.
    + intros [|[|[|j]]] ln Hj Hlt; simpl in *; try lia.
      * injection Hj as <-. reflexivity.
      * discriminate Hj.
Defined.

(** ** The settings extractor: the properties *)

Lemma quiet_ret {A} (a : A) : quiet (hret a).
Proof. intros s. discriminate. Qed.

Lemma quiet_modify f : quiet (hmodify f).
Proof. intros s. discriminate. Qed.

Lemma quiet_get : quiet hget.
Proof. intros s. discriminate. Qed.

Lemma quiet_raise {A} e : e <> ValueError_layer_height -> quiet (@hraise A e).
Proof. intros He s. simpl. congruence. Qed.

Lemma quiet_lift {A} e (o : option A) :
  e <> ValueError_layer_height -> quiet (hlift (raise_if_none e o)).
Proof. intros He s. destruct o; simpl; congruence. Qed.

Lemma quiet_bind {A B} (m : H A) (k : A -> H B) :
  quiet m -> (forall a, quiet (k a)) -> quiet (hbind m k).
Proof.
  intros Hm Hk s. unfold hbind. specialize (Hm s).
  destruct (m s) as [[e|a] s']; simpl in *; [congruence | apply Hk].
Qed.

Ltac quiet_step :=
  first [ apply quiet_ret | apply quiet_modify | apply quiet_get
        | apply quiet_raise; discriminate
        | apply quiet_lift; discriminate
        | apply quiet_bind; [|intros ?] ].

Ltac quiet_tac := repeat quiet_step.

Lemma steady_ret {A} (a : A) : steady (hret a).
Proof. intros s. reflexivity. Qed.

Lemma steady_get : steady hget.
Proof. intros s. reflexivity. Qed.

Lemma steady_raise {A} e : steady (@hraise A e).
Proof. intros s. reflexivity. Qed.

Lemma steady_lift {A} (r : res A) : steady (hlift r).
Proof. intros s. reflexivity. Qed.

Lemma steady_modify f :
  (forall s, layer_height (f s) = layer_height s) -> steady (hmodify f).
Proof. intros Hf s. apply Hf. Qed.

Lemma steady_bind {A B} (m : H A) (k : A -> H B) :
  steady m -> (forall a, steady (k a)) -> steady (hbind m k).
Proof.
  intros Hm Hk s. unfold hbind. specialize (Hm s).
  destruct (m s) as [[e|a] s']; simpl in *; [exact Hm|].
  rewrite Hk. exact Hm.
Qed.

Ltac steady_step :=
  first [ apply steady_ret | apply steady_get | apply steady_raise
        | apply steady_lift
        | apply steady_modify; intros ?; reflexivity
        | apply steady_bind; [|intros ?] ].

Ltac steady_tac := repeat steady_step.

Section HeaderFacts.
Variable py_int : bytes -> option Z.
Variable py_float : bytes -> option Q.
Variable VERSION_RE_match : bytes -> option (bytes * bytes * bytes).

Let scan := scan_header py_int py_float VERSION_RE_match.
Let finish := finish_header.
Let header := parse_header py_int py_float VERSION_RE_match.

Lemma quiet_float b : quiet (float py_float b).
Proof. unfold float. quiet_tac. Qed.

Lemma quiet_int b : quiet (int py_int b).
Proof. unfold int. quiet_tac. Qed.

Lemma quiet_value_of c : quiet (value_of c).
Proof. unfold value_of, item. quiet_tac. Qed.

Lemma quiet_ensure t : quiet (ensure_extruder t).
Proof. unfold ensure_extruder. quiet_tac. Qed.

Lemma quiet_set_extruder t f : quiet (set_extruder t f).
Proof.
  unfold set_extruder. apply quiet_bind; [apply quiet_get|]. intros s.
  destruct (extruders s !! t); quiet_tac.
Qed.

Lemma quiet_for_tools body ds : forall t,
  (forall t d, quiet (body t d)) -> quiet (for_tools body ds t).
Proof.
  induction ds as [|d ds IH]; intros t Hb; simpl; [apply quiet_ret|].
  apply quiet_bind; [apply Hb | intros _; apply IH, Hb].
Qed.

Lemma quiet_coord v i : quiet (coord py_float v i).
Proof.
  unfold coord, item. apply quiet_bind; [quiet_tac | intros; apply quiet_float].
Qed.

Lemma quiet_delta_coords values : forall x y,
  quiet (delta_coords py_float values x y).
Proof.
  induction values as [|v values IH]; intros x y; simpl; [apply quiet_ret|].
  apply quiet_bind; [apply quiet_coord | intros a].
  apply quiet_bind; [apply quiet_coord | intros b]. apply IH.
Qed.

Lemma quiet_float_list sep store c : quiet (float_list py_float sep store c).
Proof.
  unfold float_list. apply quiet_bind; [apply quiet_value_of | intros values].
  apply quiet_for_tools. intros t d.
  apply quiet_bind; [apply quiet_ensure | intros _].
  apply quiet_bind; [apply quiet_float | intros v]. apply quiet_set_extruder.
Qed.

Lemma quiet_scalar pre store c : quiet (scalar py_float pre store c).
Proof.
  unfold scalar. apply quiet_bind; [apply quiet_value_of | intros value].
  apply quiet_bind; [apply quiet_float | intros v]. apply quiet_modify.
Qed.

Lemma quiet_version c : quiet (parse_version py_int VERSION_RE_match c).
Proof.
  unfold parse_version.
  destruct (VERSION_RE_match c) as [[[a b] d]|]; [|apply quiet_ret].
  destruct (py_int a), (py_int b), (py_int d); quiet_tac.
Qed.

Lemma quiet_bed_shape c : quiet (parse_bed_shape py_float c).
Proof.
  unfold parse_bed_shape, item.
  apply quiet_bind; [apply quiet_value_of | intros value].
  destruct (length (split "," value) =? 4).
  - repeat first [ apply quiet_coord | quiet_step ].
  - apply quiet_bind; [apply quiet_modify | intros _].
    apply quiet_bind; [apply quiet_delta_coords | intros [x y]].
    destruct x, y; simpl; quiet_tac.
Qed.

Lemma quiet_filament_type c : quiet (parse_filament_type c).
Proof.
  unfold parse_filament_type.
  apply quiet_bind; [apply quiet_value_of | intros values].
  apply quiet_for_tools. intros t d.
  apply quiet_bind; [apply quiet_ensure | intros _]. apply quiet_set_extruder.
Qed.

Lemma quiet_relative_e c : quiet (parse_relative_e c).
Proof.
  unfold parse_relative_e.
  apply quiet_bind; [apply quiet_value_of | intros v].
  destruct (String.eqb v "1"); quiet_tac.
Qed.

Lemma quiet_wipe c : quiet (parse_wipe c).
Proof.
  unfold parse_wipe.
  apply quiet_bind; [apply quiet_value_of | intros values].
  apply quiet_for_tools. intros t d.
  apply quiet_bind; [apply quiet_ensure | intros _].
  destruct (String.eqb d "1"); [apply quiet_set_extruder | apply quiet_ret].
Qed.

Lemma quiet_temperature first c : quiet (parse_temperature py_int first c).
Proof.
  unfold parse_temperature.
  apply quiet_bind; [apply quiet_value_of | intros values].
  apply quiet_for_tools. intros t d.
  apply quiet_bind; [apply quiet_ensure | intros _].
  apply quiet_bind.
  { destruct first; [apply quiet_set_extruder | apply quiet_ret]. }
  intros _. apply quiet_bind; [apply quiet_int | intros v].
  apply quiet_set_extruder.
Qed.

Lemma quiet_parse_comment c :
  quiet (parse_comment py_int py_float VERSION_RE_match c).
Proof.
  unfold parse_comment.
  repeat match goal with
         | |- quiet (if ?b then _ else _) => destruct b
         end;
    first [ apply quiet_version | apply quiet_bed_shape
          | apply quiet_float_list | apply quiet_filament_type
          | apply quiet_relative_e | apply quiet_wipe | apply quiet_scalar
          | apply quiet_temperature | apply quiet_ret ].
Qed.

Lemma quiet_line ln : quiet (parse_header_line py_int py_float VERSION_RE_match ln).
Proof.
  unfold parse_header_line. destruct (truthy (fst ln)); [apply quiet_ret|].
  destruct (snd ln); [apply quiet_parse_comment | quiet_tac].
Qed.

(** The loop never raises the layer-height error. *)
Lemma quiet_scan lns : quiet (scan lns).
Proof.
  induction lns as [|ln lns IH]; simpl; [apply quiet_ret|].
  apply quiet_bind; [apply quiet_line | intros _; exact IH].
Qed.

Lemma steady_ensure t : steady (ensure_extruder t).
Proof.
  unfold ensure_extruder. apply steady_modify. intros s.
  destruct (extruders s !! t); reflexivity.
Qed.

Lemma steady_set_extruder t f : steady (set_extruder t f).
Proof.
  unfold set_extruder. apply steady_bind; [apply steady_get|]. intros s.
  destruct (extruders s !! t); steady_tac.
Qed.

Lemma steady_for_tools body ds : forall t,
  (forall t d, steady (body t d)) -> steady (for_tools body ds t).
Proof.
  induction ds as [|d ds IH]; intros t Hb; simpl; [apply steady_ret|].
  apply steady_bind; [apply Hb | intros _; apply IH, Hb].
Qed.

Lemma steady_delta_coords values : forall x y,
  steady (delta_coords py_float values x y).
Proof.
  induction values as [|v values IH]; intros x y; simpl; [apply steady_ret|].
  unfold coord, float. steady_tac. apply IH.
Qed.

Lemma steady_float_list sep store c : steady (float_list py_float sep store c).
Proof.
  unfold float_list, value_of, float.
  apply steady_bind; [apply steady_lift | intros values].
  apply steady_for_tools. intros t d.
  apply steady_bind; [apply steady_ensure | intros _].
  apply steady_bind; [apply steady_lift | intros v]. apply steady_set_extruder.
Qed.

Lemma steady_bed_shape c : steady (parse_bed_shape py_float c).
Proof.
  unfold parse_bed_shape, value_of, coord, float.
  apply steady_bind; [apply steady_lift | intros value].
  destruct (length (split "," value) =? 4).
  - steady_tac.
  - apply steady_bind; [steady_tac | intros _].
    apply steady_bind; [apply steady_delta_coords | intros [x y]].
    destruct x, y; simpl; steady_tac.
Qed.

Lemma steady_tools_simple c sep body :
  (forall t d, steady (body t d)) ->
  steady (hbind (value_of c) (fun values => for_tools body (split sep values) 0)).
Proof.
  intros Hb. apply steady_bind; [apply steady_lift | intros values].
  apply steady_for_tools, Hb.
Qed.

(** Only the layer-height branch writes [self.layer_height]. *)
Lemma steady_parse_comment c :
  first_key c <> Some " layer_height ="%string ->
  steady (parse_comment py_int py_float VERSION_RE_match c).
Proof.
  unfold first_key, header_keys, parse_comment. simpl List.find.
  repeat match goal with
         | |- context [if contains ?k c then _ else _] =>
             destruct (contains k c); [intros Hk | ]
         end; try (exfalso; apply Hk; reflexivity).
  - unfold parse_version. destruct (VERSION_RE_match c) as [[[a b] d]|]; [|steady_tac].
    destruct (py_int a), (py_int b), (py_int d); steady_tac.
  - apply steady_bed_shape.
  - apply steady_float_list.
  - apply steady_tools_simple. intros t d.
    apply steady_bind; [apply steady_ensure | intros _; apply steady_set_extruder].
  - apply steady_float_list.
  - apply steady_float_list.
  - apply steady_float_list.
  - unfold parse_relative_e, value_of.
    apply steady_bind; [apply steady_lift | intros v].
    destruct (String.eqb v "1"); steady_tac.
  - apply steady_tools_simple. intros t d.
    apply steady_bind; [apply steady_ensure | intros _].
    destruct (String.eqb d "1"); [apply steady_set_extruder | apply steady_ret].
  - unfold scalar, value_of, float. steady_tac.
  - unfold scalar, value_of, float. steady_tac.
  - unfold scalar, value_of, float. steady_tac.
  - unfold scalar, value_of, float. steady_tac.
  - apply steady_tools_simple. intros t d.
    apply steady_bind; [apply steady_ensure | intros _].
    apply steady_bind; [apply steady_set_extruder | intros _].
    unfold int. apply steady_bind; [apply steady_lift | intros v].
    apply steady_set_extruder.
  - apply steady_tools_simple. intros t d.
    apply steady_bind; [apply steady_ensure | intros _].
    apply steady_bind; [apply steady_ret | intros _].
    unfold int. apply steady_bind; [apply steady_lift | intros v].
    apply steady_set_extruder.
  - intros _. apply steady_ret.
Qed.

Lemma steady_line ln :
  other_line ln ->
  steady (parse_header_line py_int py_float VERSION_RE_match ln).
Proof.
  intros [Hcmd|(c & Hc & Hk)]; unfold parse_header_line.
  - rewrite Hcmd. apply steady_ret.
  - destruct (truthy (fst ln)); [apply steady_ret|].
    rewrite Hc. apply steady_parse_comment, Hk.
Qed.

Lemma steady_scan lns :
  Forall other_line lns -> steady (scan lns).
Proof.
  induction 1 as [|ln lns Hln _ IH]; simpl; [apply steady_ret|].
  apply steady_bind; [apply steady_line, Hln | intros _; exact IH].
Qed.

(** The loop stops at the first line that raises. *)
Lemma scan_app pre post s :
  scan (pre ++ post) s
  = match scan pre s with
    | (inr _, s') => scan post s'
    | (inl e, s') => (inl e, s')
    end.
Proof.
  revert s. induction pre as [|ln pre IH]; intros s; simpl; [reflexivity|].
  unfold hbind.
  destruct (parse_header_line py_int py_float VERSION_RE_match ln s)
    as [[e|[]] s']; [reflexivity | apply IH].
Qed.

Lemma scan_raise pre ln post s0 s e s' :
  scan pre s0 = (inr tt, s) ->
  parse_header_line py_int py_float VERSION_RE_match ln s = (inl e, s') ->
  scan (pre ++ ln :: post) s0 = (inl e, s').
Proof.
  intros Hpre Hln. rewrite scan_app, Hpre. simpl. unfold hbind.
  rewrite Hln. reflexivity.
Qed.

(** [parse_header] is the loop, then the checks that follow it. *)
Lemma header_unfold layers s0 :
  header layers s0
  = match scan (concat (map lines layers)) (with_local_z_offset 0 s0) with
    | (inr _, s) => finish s
    | (inl e, s) => (inl e, s)
    end.
Proof.
  unfold header, parse_header, hbind, hmodify. fold scan.
  destruct (scan _ _) as [[e|[]] s]; reflexivity.
Qed.

Lemma finish_unsupported s :
  unsupported_layer_height s = true ->
  finish s = (inl ValueError_layer_height, s).
Proof.
  intros Hu. unfold finish, finish_header, hbind, hget. rewrite Hu. reflexivity.
Qed.

Lemma finish_supported s :
  unsupported_layer_height s = false ->
  fst (finish s) <> inl ValueError_layer_height /\
  layer_height (snd (finish s)) = layer_height s /\
  (is_Some (first_layer_speed s) -> is_Some (default_speed s) ->
   fst (finish s) = inr tt).
Proof.
  intros Hu. unfold finish, finish_header, hbind, hget, hmodify, hraise.
  rewrite Hu. simpl.
  destruct (first_layer_speed s) as [f|], (default_speed s) as [o|]; simpl;
    (split; [discriminate|]); (split; [reflexivity|]);
    intros [? Hf] [? Ho]; congruence.
Qed.

Lemma unsupported_false s :
  unsupported_layer_height s = false <->
  exists v, layer_height s = Some v /\ (v == 2 # 10)%Q.
Proof.
  unfold unsupported_layer_height. destruct (layer_height s) as [v|].
  - rewrite negb_false_iff, Qeq_bool_iff. split.
    + intros Hv. exists v. auto.
    + intros (v' & [= <-] & Hv). exact Hv.
  - split; [discriminate | intros (v & [=] & _)].
Qed.

(** What a comment that takes the layer-height branch does. *)
Lemma parse_comment_layer_height c txt v s :
  first_key c = Some " layer_height ="%string ->
  item (split " = " c) 1 = inr txt ->
  py_float txt = Some v ->
  parse_comment py_int py_float VERSION_RE_match c s
  = (inr tt, with_layer_height (Some v) s).
Proof.
  unfold first_key, header_keys, parse_comment. simpl List.find.
  repeat match goal with
         | |- context [if contains ?k c then _ else _] =>
             destruct (contains k c); [try discriminate|]
         end; [|discriminate].
  intros _ Htxt Hv.
  unfold scalar, value_of, float, hbind, hlift, hmodify.
  rewrite Htxt. simpl. rewrite Hv. reflexivity.
Qed.

(** What a comment that takes the relative-E branch does. *)
Lemma parse_comment_relative_e c txt s :
  first_key c = Some "use_relative_e_distances ="%string ->
  item (split " = " c) 1 = inr txt ->
  parse_comment py_int py_float VERSION_RE_match c s
  = (if String.eqb txt "1" then inr tt else inl ValueError_relative_e, s).
Proof.
  unfold first_key, header_keys, parse_comment. simpl List.find.
  repeat match goal with
         | |- context [if contains ?k c then _ else _] =>
             destruct (contains k c); [try discriminate|]
         end; [|discriminate].
  intros _ Htxt.
  unfold parse_relative_e, value_of, hbind, hlift.
  rewrite Htxt. destruct (String.eqb txt "1"); reflexivity.
Qed.

End HeaderFacts.

Section HeaderClaims.
Variable py_int : bytes -> option Z.
Variable py_float : bytes -> option Q.
Variable VERSION_RE_match : bytes -> option (bytes * bytes * bytes).

(** The layer height an input ends with is the value of its last
    layer-height annotation. *)
Lemma last_layer_height_annotation
      (pre : list line) cmd c txt v (post : list line) s0 s s' :
  truthy cmd = false ->
  scan_header py_int py_float VERSION_RE_match pre s0 = (inr tt, s) ->
  first_key c = Some " layer_height ="%string ->
  item (split " = " c) 1 = inr txt ->
  py_float txt = Some v ->
  Forall other_line post ->
  scan_header py_int py_float VERSION_RE_match post
              (with_layer_height (Some v) s) = (inr tt, s') ->
  scan_header py_int py_float VERSION_RE_match
              (pre ++ (cmd, Some c) :: post) s0 = (inr tt, s') /\
  layer_height s' = Some v.
Proof.
  intros Hcmd Hpre Hkey Htxt Hv Hpost Hscan. split.
  - rewrite scan_app, Hpre. simpl. unfold hbind, parse_header_line. simpl.
    rewrite Hcmd.
    rewrite (parse_comment_layer_height _ _ _ c txt v s Hkey Htxt Hv).
    exact Hscan.
  - pose proof (steady_scan py_int py_float VERSION_RE_match post Hpost
                  (with_layer_height (Some v) s)) as Hst.
    rewrite Hscan in Hst. exact Hst.
Qed.

(** C5, amended. Header parsing fails for every input whose layer height is
    not 0.2: it returns only when the layer height is 0.2, and once the
    loop over the lines is through, a layer height other than 0.2 (or none)
    raises the layer-height error.  With a layer height of 0.2 that error
    is not raised, and parsing succeeds provided the loop raised nothing
    (relative E distances not disabled, no malformed value) and the
    perimeter speed and the first-layer speed are set.  The layer height
    is the value of the last layer-height annotation of the input. *)
Theorem layer_height_validation (layers : list Layer_t) (s0 : self_t) :
  let out := parse_header py_int py_float VERSION_RE_match layers s0 in
  (fst out = inr tt ->
   exists v, layer_height (snd out) = Some v /\ (v == 2 # 10)%Q) /\
  (forall s,
     scan_header py_int py_float VERSION_RE_match
                 (concat (map lines layers)) (with_local_z_offset 0 s0)
     = (inr tt, s) ->
     (unsupported_layer_height s = true ->
      out = (inl ValueError_layer_height, s)) /\
     (unsupported_layer_height s = false ->
      fst out <> inl ValueError_layer_height /\
      (is_Some (first_layer_speed s) -> is_Some (default_speed s) ->
       fst out = inr tt))) /\
  (forall (pre : list line) cmd c txt v (post : list line) s s',
     concat (map lines layers) = pre ++ ((cmd, Some c) : line) :: post ->
     truthy cmd = false ->
     scan_header py_int py_float VERSION_RE_match pre
                 (with_local_z_offset 0 s0) = (inr tt, s) ->
     first_key c = Some " layer_height ="%string ->
     item (split " = " c) 1 = inr txt ->
     py_float txt = Some v ->
     Forall other_line post ->
     scan_header py_int py_float VERSION_RE_match post
                 (with_layer_height (Some v) s) = (inr tt, s') ->
     (~ (v == 2 # 10)%Q -> out = (inl ValueError_layer_height, s')) /\
     ((v == 2 # 10)%Q -> fst out <> inl ValueError_layer_height)).
Proof.
  intros out. subst out. rewrite header_unfold. split; [|split].
  - destruct (scan_header _ _ _ _ _) as [[e|[]] s]; simpl; [discriminate|].
    intros Hok.
    destruct (unsupported_layer_height s) eqn:Hu.
    + rewrite (finish_unsupported s Hu) in Hok. discriminate.
    + destruct (finish_supported s Hu) as (_ & -> & _).
      apply unsupported_false, Hu.
  - intros s ->. split.
    + apply finish_unsupported.
    + intros Hu. destruct (finish_supported s Hu) as (H1 & _ & H2). auto.
  - intros pre cmd c txt v post s s' Hlines Hcmd Hpre Hkey Htxt Hv Hpost Hscan.
    destruct (last_layer_height_annotation pre cmd c txt v post _ s s'
                Hcmd Hpre Hkey Htxt Hv Hpost Hscan) as [Hall Hlh].
    assert (Hall' : scan_header py_int py_float VERSION_RE_match
                      (concat (map lines layers)) (with_local_z_offset 0 s0)
                    = (inr tt, s'))
      by (rewrite Hlines; exact Hall).
    rewrite Hall'. split.
    + intros Hne. apply finish_unsupported.
      unfold unsupported_layer_height. rewrite Hlh.
      apply negb_true_iff. destruct (Qeq_bool v (2 # 10)) eqn:E; [|reflexivity].
      apply Qeq_bool_eq in E. contradiction.
    + intros Heq. apply finish_supported, unsupported_false. eauto.
Qed.

(** C6, amended. The layer-height validation is made once, after the loop
    over the lines: the loop never raises the layer-height error, and when
    [parse_header] raises it the loop had gone through all the lines.  The
    relative-E validation is made inside the loop, at each annotation: when
    the loop reaches a comment-only line whose relative-E value is not 1,
    [ValueError] is raised there, with the object as the lines before it
    left it, and the lines after it are not read. *)
Theorem validations_inline_and_final (layers : list Layer_t) (s0 : self_t) :
  (forall lns s,
     fst (scan_header py_int py_float VERSION_RE_match lns s)
     <> inl ValueError_layer_height) /\
  (forall s',
     parse_header py_int py_float VERSION_RE_match layers s0
     = (inl ValueError_layer_height, s') ->
     scan_header py_int py_float VERSION_RE_match
                 (concat (map lines layers)) (with_local_z_offset 0 s0)
     = (inr tt, s') /\
     unsupported_layer_height s' = true) /\
  (forall (pre : list line) cmd c txt (post : list line) s,
     concat (map lines layers) = pre ++ ((cmd, Some c) : line) :: post ->
     truthy cmd = false ->
     scan_header py_int py_float VERSION_RE_match pre
                 (with_local_z_offset 0 s0) = (inr tt, s) ->
     first_key c = Some "use_relative_e_distances ="%string ->
     item (split " = " c) 1 = inr txt ->
     txt <> "1"%string ->
     parse_header py_int py_float VERSION_RE_match layers s0
     = (inl ValueError_relative_e, s)).
Proof.
  split; [intros lns s; apply quiet_scan|]. split.
  - intros s'. rewrite header_unfold.
    pose proof (quiet_scan py_int py_float VERSION_RE_match
                  (concat (map lines layers)) (with_local_z_offset 0 s0)) as Hq.
    destruct (scan_header _ _ _ _ _) as [[e|[]] s]; simpl in *.
    + intros [= -> ->]. congruence.
    + intros Hfin. destruct (unsupported_layer_height s) eqn:Hu.
      * rewrite (finish_unsupported s Hu) in Hfin. injection Hfin as <-. auto.
      * destruct (finish_supported s Hu) as (Hne & _).
        rewrite Hfin in Hne. simpl in Hne. congruence.
  - intros pre cmd c txt post s Hlines Hcmd Hpre Hkey Htxt Hoff.
    rewrite header_unfold, Hlines.
    rewrite (scan_raise py_int py_float VERSION_RE_match pre (cmd, Some c) post
               _ s ValueError_relative_e s Hpre); [reflexivity|].
    unfold parse_header_line. simpl. rewrite Hcmd.
    rewrite (parse_comment_relative_e _ _ _ c txt s Hkey Htxt).
    destruct (String.eqb_spec txt "1"); [contradiction | reflexivity].
Qed.

End HeaderClaims.

(** *** The settings extractor on the examples *)

(** C5, as stated, fails: a header whose layer height is 0.2 and whose
    relative E distances are disabled is rejected. *)
Lemma layer_height_ok_but_parse_fails :
  let out := parse_header dec_int dec_float no_version
                          (header_layers relative_e_off_header) fresh_self in
  layer_height (snd out) = Some (2 # 10)%Q /\
  fst out = inl ValueError_relative_e.
Proof. vm_compute. split; reflexivity. Qed.

(** The two headers that differ in the layer height only: 0.2 is
    accepted, 0.3 raises the layer-height error. *)
Lemma layer_height_validation_witness :
  (exists v, layer_height
               (snd (parse_header dec_int dec_float no_version
                                  (header_layers good_header) fresh_self))
             = Some v /\ (v == 2 # 10)%Q) /\
  fst (parse_header dec_int dec_float no_version
                    (header_layers thick_header) fresh_self)
  = inl ValueError_layer_height.
Proof.
  split.
  - apply (layer_height_validation dec_int dec_float no_version
             (header_layers good_header) fresh_self).
    vm_compute. reflexivity.
  - destruct (layer_height_validation dec_int dec_float no_version
                (header_layers thick_header) fresh_self) as (_ & _ & H).
    destruct (H [(None, Some " perimeter_speed = 40");
                 (None, Some " first_layer_speed = 70%");
                 (None, Some " use_relative_e_distances = 1")]%string
                None " layer_height = 0.3"%string "0.3"%string (3 # 10)%Q []
                (snd (scan_header dec_int dec_float no_version
                        [(None, Some " perimeter_speed = 40");
                         (None, Some " first_layer_speed = 70%");
                         (None, Some " use_relative_e_distances = 1")]%string
                        (with_local_z_offset 0 fresh_self)))
                (with_layer_height (Some (3 # 10)%Q)
                  (snd (scan_header dec_int dec_float no_version
                        [(None, Some " perimeter_speed = 40");
                         (None, Some " first_layer_speed = 70%");
                         (None, Some " use_relative_e_distances = 1")]%string
                        (with_local_z_offset 0 fresh_self)))))
      as [Hbad _].
    + reflexivity.
    + reflexivity.
    + vm_compute. reflexivity.
    + vm_compute. reflexivity.
    + vm_compute. reflexivity.
    + vm_compute. reflexivity.
    + constructor.
    + reflexivity.
    + rewrite Hbad; [reflexivity | intros Heq; discriminate Heq].
Defined.

(** C6, as stated, fails: with relative E distances disabled on the first
    line, the error is raised there; the layer height of the second line
    has not been read when it is raised. *)
Lemma relative_e_failure_skips_the_rest :
  let out := parse_header dec_int dec_float no_version
                          (header_layers relative_e_off_first) fresh_self in
  fst out = inl ValueError_relative_e /\
  layer_height (snd out) = None /\
  layer_height
    (snd (scan_header dec_int dec_float no_version
                      [(None, Some " layer_height = 0.3"%string)] (snd out)))
  = Some (3 # 10)%Q.
Proof. vm_compute. repeat split; reflexivity. Qed.

Lemma validations_inline_and_final_witness :
  parse_header dec_int dec_float no_version
               (header_layers relative_e_off_first) fresh_self
  = (inl ValueError_relative_e, with_local_z_offset 0 fresh_self).
Proof.
  destruct (validations_inline_and_final dec_int dec_float no_version
              (header_layers relative_e_off_first) fresh_self) as (_ & _ & H).
  apply (H [] None " use_relative_e_distances = 0"%string "0"%string
           [(None, Some " layer_height = 0.3"%string)]).
  - reflexivity.
  - reflexivity.
  - reflexivity.
  - vm_compute. reflexivity.
  - vm_compute. reflexivity.
  - discriminate.
Defined.

(** ** More on the layer segmenter *)

Section SegmenterFacts.
Variable read_gcode_line : bytes -> line.
Variable is_z_move : bytes -> bool.
Variable py_int : bytes -> option Z.
Variable py_float : bytes -> option Q.

Let seg_line' := seg_line read_gcode_line is_z_move py_int py_float.
Let seg_loop' := seg_loop read_gcode_line is_z_move py_int py_float.
Let parse_layers' := parse_layers read_gcode_line is_z_move py_int py_float.
Let mark := seg_mark read_gcode_line py_int py_float.
Let act := seg_act read_gcode_line is_z_move.
Let store := seg_store read_gcode_line.

(** A turn of the loop is the marker check, the Z move check, and the
    storing of the line. *)
Lemma seg_line_steps st raw :
  seg_line' st raw = st1 <- mark st raw ;; inr (store (act st1 raw) raw).
Proof.
  unfold seg_line', seg_line, mark, seg_mark, act, seg_act, store, seg_store.
  destruct (read_gcode_line raw) as [cmd comment]. simpl.
  destruct comment as [c|]; simpl.
  - destruct (truthy (Some c)); simpl; [|destruct cmd; reflexivity].
    destruct (check_layer_change py_int py_float c None) as [e|[[n v]|]];
      simpl; destruct cmd; reflexivity.
  - destruct cmd; reflexivity.
Qed.

(** The marker check touches the pending marker only. *)
Lemma seg_mark_frame st raw st1 :
  mark st raw = inr st1 ->
  prev_layer st1 = prev_layer st /\ prev_height st1 = prev_height st /\
  current_layer st1 = current_layer st /\ seg_layers st1 = seg_layers st /\
  (layer_start st1 = layer_start st \/
   (layer_start st1 = true /\ marker_line read_gcode_line raw = true)).
Proof.
  unfold mark, seg_mark, marker_line, check_layer_change.
  destruct (snd (read_gcode_line raw)) as [c|]; [|intros [= <-]; auto 10].
  destruct (truthy (Some c)); [|intros [= <-]; auto 10].
  destruct (LAYER_START_RE_match c) as [[g0 g1]|]; simpl.
  - destruct (py_int g0); simpl; [|discriminate].
    destruct (py_float g1); simpl; [|discriminate].
    intros [= <-]. simpl. repeat split. right. split; reflexivity.
  - intros [= <-]. auto 10.
Qed.

Lemma on_z_move_cases st :
  (on_z_move st
   = mkSeg (prev_layer st) (prev_height st)
           (set_z (layer_z st) (current_layer st))
           false (layer_num st) (layer_z st) (seg_layers st) /\
   num (current_layer st) = 1%Z) \/
  (exists h ph,
     on_z_move st
     = mkSeg (Some (current_layer st)) ph
             (Layer (layer_num st) (layer_z st) h)
             false (layer_num st) (layer_z st)
             (seg_layers st ++ [current_layer st])).
Proof.
  unfold on_z_move.
  destruct ((num (current_layer st) =? 1)%Z && (layer_num st =? 0)%Z) eqn:E.
  - left. split; [reflexivity|].
    apply andb_true_iff in E as [E _]. apply Z.eqb_eq, E.
  - right. eauto.
Qed.

Lemma on_z_move_stored st : stored (on_z_move st) = stored st.
Proof.
  destruct (on_z_move_cases st) as [[-> _]|(h & ph & ->)]; unfold stored; simpl.
  - reflexivity.
  - rewrite map_app, concat_app. simpl. rewrite !app_nil_r. reflexivity.
Qed.

Lemma seg_act_stored st1 raw : stored (act st1 raw) = stored st1.
Proof.
  unfold act, seg_act. destruct (fst (read_gcode_line raw)) as [c|]; [|reflexivity].
  destruct (truthy (Some c) && layer_start st1); [|reflexivity].
  destruct (is_z_move c); [apply on_z_move_stored | reflexivity].
Qed.

Lemma seg_line_stored st raw st' :
  seg_line' st raw = inr st' ->
  stored st' = stored st ++ [read_gcode_line raw].
Proof.
  rewrite seg_line_steps. intros H. apply bind_inr in H as (st1 & Hm & [= <-]).
  destruct (seg_mark_frame _ _ _ Hm) as (_ & _ & Hc & Hl & _).
  unfold store, seg_store, stored. simpl.
  pose proof (seg_act_stored st1 raw) as Ha. unfold stored in Ha.
  rewrite app_assoc, Ha, Hc, Hl.
  destruct (read_gcode_line raw). reflexivity.
Qed.

Lemma seg_loop_stored lines : forall st st',
  seg_loop' st lines = inr st' ->
  stored st' = stored st ++ map read_gcode_line lines.
Proof.
  induction lines as [|raw lines IH]; intros st st' H; simpl in *.
  - injection H as <-. rewrite app_nil_r. reflexivity.
  - apply bind_inr in H as (st1 & H1 & H).
    rewrite (IH _ _ H), (seg_line_stored _ _ _ H1), <- app_assoc. reflexivity.
Qed.

(** X1. [parse_layers] loses no line and keeps the order: the lines of the
    layers it returns, put end to end, are the lines of the file as
    [read_gcode_line] reads them. *)
Theorem parse_layers_keeps_every_line (raw : list bytes) (ls : list Layer_t) :
  parse_layers read_gcode_line is_z_move py_int py_float raw = inr ls ->
  concat (map lines ls) = map read_gcode_line raw.
Proof.
  unfold parse_layers. intros H. apply bind_inr in H as (st & Hloop & [= <-]).
  pose proof (seg_loop_stored raw seg_init st Hloop) as Hs.
  unfold stored in Hs. simpl in Hs.
  rewrite map_app, concat_app. simpl. rewrite app_nil_r. exact Hs.
Qed.

(** *** The shape of the result *)

Lemma on_z_move_shape st :
  seg_shape st -> Forall fresh_tags (all_layers st) ->
  seg_shape (on_z_move st) /\ Forall fresh_tags (all_layers (on_z_move st)).
Proof.
  intros Hs Hf.
  destruct (on_z_move_cases st) as [[-> Hn]|(h & ph & ->)];
    unfold seg_shape, all_layers in *; simpl.
  - destruct Hs as [[_ (_ & Hn0 & _)]|(l0 & rest & Hl & H0 & Hr & Hc)];
      [congruence|].
    split; [right; exists l0, rest; auto|].
    apply Forall_app in Hf as [Hf1 Hf2]. apply Forall_app. split; [exact Hf1|].
    constructor; [|constructor]. inversion Hf2; assumption.
  - split.
    + right. destruct Hs as [[Hl H0]|(l0 & rest & Hl & H0 & Hr & Hc)]; rewrite Hl.
      * exists (current_layer st), []. simpl. auto.
      * exists l0, (rest ++ [current_layer st]). simpl.
        repeat split; try apply H0.
        apply Forall_app. split; [exact Hr | constructor; auto].
    + apply Forall_app. split; [exact Hf|].
      constructor; [|constructor]. repeat split.
Qed.

Lemma seg_line_shape st raw st' :
  seg_line' st raw = inr st' ->
  seg_shape st -> Forall fresh_tags (all_layers st) ->
  seg_shape st' /\ Forall fresh_tags (all_layers st').
Proof.
  rewrite seg_line_steps. intros H. apply bind_inr in H as (st1 & Hm & [= <-]).
  destruct (seg_mark_frame _ _ _ Hm) as (_ & _ & Hc & Hl & _).
  intros Hs Hf.
  assert (Hs1 : seg_shape st1 /\ Forall fresh_tags (all_layers st1)).
  { unfold seg_shape, all_layers. rewrite Hc, Hl. auto. }
  assert (Hs2 : seg_shape (act st1 raw) /\
                Forall fresh_tags (all_layers (act st1 raw))).
  { unfold act, seg_act.
    destruct (fst (read_gcode_line raw)) as [c|]; [|exact Hs1].
    destruct (truthy (Some c) && layer_start st1); [|exact Hs1].
    destruct (is_z_move c); [|exact Hs1].
    apply on_z_move_shape; apply Hs1. }
  destruct Hs2 as [Hs2 Hf2]. unfold store, seg_store, seg_shape, all_layers in *.
  simpl. split.
  - destruct Hs2 as [[Hl2 H0]|(l0 & rest & Hl2 & H0 & Hr & Hc2)].
    + left. split; [exact Hl2 | exact H0].
    + right. exists l0, rest. auto.
  - apply Forall_app in Hf2 as [Hf21 Hf22]. apply Forall_app.
    split; [exact Hf21|]. constructor; [|constructor].
    inversion Hf22; assumption.
Qed.

Lemma seg_loop_shape lines : forall st st',
  seg_loop' st lines = inr st' ->
  seg_shape st -> Forall fresh_tags (all_layers st) ->
  seg_shape st' /\ Forall fresh_tags (all_layers st').
Proof.
  induction lines as [|raw lines IH]; intros st st' H Hs Hf; simpl in *.
  - injection H as <-. auto.
  - apply bind_inr in H as (st1 & H1 & H).
    destruct (seg_line_shape _ _ _ H1 Hs Hf). eauto.
Qed.

(** X2. [parse_layers] always returns at least one layer; the first is the
    first-layer object with the ordinal 0, the Z 0.2 and the thickness 0.2
    it was created with (no marker ever changes them), no other layer is a
    first layer, and no layer carries an action tag yet. *)
Theorem parse_layers_first_layer (lines : list bytes) (ls : list Layer_t) :
  parse_layers read_gcode_line is_z_move py_int py_float lines = inr ls ->
  exists l0 rest,
    ls = l0 :: rest /\ untouched_first l0 /\
    Forall (fun l => is_first l = false) rest /\
    Forall (fun l => action l = None) ls.
Proof.
  unfold parse_layers. intros H. apply bind_inr in H as (st & Hloop & [= <-]).
  destruct (seg_loop_shape lines seg_init st Hloop) as [Hs Hf0].
  { left. repeat split. }
  { repeat constructor. }
  assert (Hf : Forall (fun l => action l = None) (all_layers st)).
  { eapply Forall_impl; [exact Hf0|]. intros l Hl. apply Hl. }
  destruct Hs as [[Hl H0]|(l0 & rest & Hl & H0 & Hr & Hc)]; rewrite Hl.
  - exists (current_layer st), []. simpl. repeat split; try apply H0.
    + constructor.
    + unfold all_layers in Hf. rewrite Hl in Hf. exact Hf.
  - exists l0, (rest ++ [current_layer st]). simpl. repeat split; try apply H0.
    + apply Forall_app. split; [exact Hr | constructor; auto].
    + unfold all_layers in Hf. rewrite Hl in Hf. exact Hf.
Qed.

(** *** How many layers *)

Lemma on_z_move_count st :
  length (seg_layers (on_z_move st)) <= S (length (seg_layers st)) /\
  layer_start (on_z_move st) = false.
Proof.
  destruct (on_z_move_cases st) as [[-> _]|(h & ph & ->)]; simpl.
  - split; [lia | reflexivity].
  - rewrite length_app. simpl. split; [lia | reflexivity].
Qed.

Lemma seg_line_count st raw st' m zm :
  seg_line' st raw = inr st' ->
  length (seg_layers st) + Nat.b2n (layer_start st) <= m ->
  length (seg_layers st) <= zm ->
  length (seg_layers st') + Nat.b2n (layer_start st')
  <= m + Nat.b2n (marker_line read_gcode_line raw) /\
  length (seg_layers st')
  <= zm + Nat.b2n (z_move_line read_gcode_line is_z_move raw).
Proof.
  rewrite seg_line_steps. intros H. apply bind_inr in H as (st1 & Hm & [= <-]).
  destruct (seg_mark_frame _ _ _ Hm) as (_ & _ & _ & Hl & Hstart).
  intros HA HB. unfold store, seg_store. simpl.
  assert (HA1 : length (seg_layers st1) + Nat.b2n (layer_start st1)
                <= m + Nat.b2n (marker_line read_gcode_line raw)).
  { rewrite Hl. destruct Hstart as [->|[-> ->]]; simpl; [lia|].
    destruct (layer_start st); simpl in *; lia. }
  assert (HB1 : length (seg_layers st1) <= zm) by (rewrite Hl; exact HB).
  clear HA HB Hstart Hl Hm.
  unfold act, seg_act, z_move_line.
  destruct (fst (read_gcode_line raw)) as [c|]; [|simpl; lia].
  destruct (truthy (Some c)); simpl; [|lia].
  destruct (layer_start st1) eqn:Es; simpl in *; [|rewrite Es; simpl; lia].
  destruct (is_z_move c); simpl; [|rewrite Es; simpl; lia].
  destruct (on_z_move_count st1) as [Hlen ->]. simpl. lia.
Qed.

Lemma seg_loop_count lines : forall st st' m zm,
  seg_loop' st lines = inr st' ->
  length (seg_layers st) + Nat.b2n (layer_start st) <= m ->
  length (seg_layers st) <= zm ->
  length (seg_layers st')
  <= m + count_lines (marker_line read_gcode_line) lines /\
  length (seg_layers st')
  <= zm + count_lines (z_move_line read_gcode_line is_z_move) lines.
Proof.
  unfold count_lines.
  induction lines as [|raw lines IH]; intros st st' m zm H HA HB; simpl in *.
  - injection H as <-. lia.
  - apply bind_inr in H as (st1 & H1 & H).
    destruct (seg_line_count _ _ _ _ _ H1 HA HB) as [HA1 HB1].
    destruct (IH _ _ _ _ H HA1 HB1) as [HA2 HB2].
    destruct (marker_line read_gcode_line raw),
             (z_move_line read_gcode_line is_z_move raw); simpl in *; lia.
Qed.

(** X3. A layer is opened only by a Z move that follows a marker: the
    number of layers is at most one more than the number of marker lines,
    and at most one more than the number of Z move lines. *)
Theorem parse_layers_count (lines : list bytes) (ls : list Layer_t) :
  parse_layers read_gcode_line is_z_move py_int py_float lines = inr ls ->
  1 <= length ls /\
  length ls <= 1 + count_lines (marker_line read_gcode_line) lines /\
  length ls <= 1 + count_lines (z_move_line read_gcode_line is_z_move) lines.
Proof.
  unfold parse_layers. intros H. apply bind_inr in H as (st & Hloop & [= <-]).
  destruct (seg_loop_count lines seg_init st 0 0 Hloop) as [HA HB];
    [simpl; lia | simpl; lia |].
  rewrite length_app. simpl. lia.
Qed.

(** X4. A file without marker lines, or without Z move lines, is one
    layer: the first layer as created, holding every line. *)
Theorem parse_layers_single_layer (lines : list bytes) (ls : list Layer_t) :
  parse_layers read_gcode_line is_z_move py_int py_float lines = inr ls ->
  count_lines (marker_line read_gcode_line) lines = 0 \/
  count_lines (z_move_line read_gcode_line is_z_move) lines = 0 ->
  ls = [set_lines (map read_gcode_line lines) (FirstLayer 0 (2 # 10) (2 # 10))].
Proof.
  unfold parse_layers. intros H Hnone.
  apply bind_inr in H as (st & Hloop & [= <-]).
  destruct (seg_loop_count lines seg_init st 0 0 Hloop) as [HA HB];
    [simpl; lia | simpl; lia |].
  assert (Hnil : seg_layers st = []).
  { destruct (seg_layers st); [reflexivity | simpl in *; lia]. }
  destruct (seg_loop_shape lines seg_init st Hloop) as [Hs Hf].
  { left. repeat split. }
  { repeat constructor. }
  pose proof (seg_loop_stored lines seg_init st Hloop) as Hlines.
  unfold stored, all_layers in *. rewrite Hnil in *. simpl in *.
  destruct Hs as [[_ (Hfi & Hn & Hz & Hh)]|(l0 & rest & Hl0 & _)];
    [|congruence].
  inversion Hf as [|? ? (Ha & Ht & Hsg) _]; subst.
  destruct (current_layer st). simpl in *. subst. reflexivity.
Qed.

(** *** When it fails *)

Lemma seg_mark_total st raw :
  readable_marker read_gcode_line py_int py_float raw ->
  exists st1, mark st raw = inr st1.
Proof.
  unfold mark, seg_mark, readable_marker, check_layer_change. intros Hr.
  destruct (snd (read_gcode_line raw)) as [c|]; [|eauto].
  destruct (truthy (Some c)); [|eauto].
  destruct (LAYER_START_RE_match c) as [[g0 g1]|] eqn:E; simpl; [|eauto].
  destruct (Hr c g0 g1 eq_refl E) as [[n ->] [v ->]]. simpl. eauto.
Qed.

Lemma seg_mark_fails st raw :
  (forall e, mark st raw = inl e -> e = ValueError_literal) /\
  ((exists st1, mark st raw = inr st1) ->
   readable_marker read_gcode_line py_int py_float raw).
Proof.
  unfold mark, seg_mark, readable_marker, check_layer_change.
  destruct (snd (read_gcode_line raw)) as [c|];
    [|split; [discriminate | intros _ ? ? ? [=]]].
  destruct c as [|a c'].
  { simpl. split; [discriminate|]. intros _ c g0 g1 [= <-]. discriminate. }
  simpl truthy. cbv iota.
  destruct (LAYER_START_RE_match (String a c')) as [[g0 g1]|] eqn:E; simpl.
  - destruct (py_int g0) as [n|] eqn:En; simpl.
    + destruct (py_float g1) as [v|] eqn:Ev; simpl.
      * split; [discriminate|]. intros _ c h0 h1 [= <-] Hm.
        rewrite E in Hm. injection Hm as <- <-. rewrite En, Ev. eauto.
      * split; [intros e [= <-]; reflexivity | intros [? [=]]].
    + split; [intros e [= <-]; reflexivity | intros [? [=]]].
  - split; [discriminate|]. intros _ c h0 h1 [= <-] Hm.
    rewrite E in Hm. discriminate.
Qed.

Lemma seg_line_total st raw :
  (exists st', seg_line' st raw = inr st') <->
  readable_marker read_gcode_line py_int py_float raw.
Proof.
  rewrite seg_line_steps. split.
  - intros [st' H]. apply bind_inr in H as (st1 & Hm & _).
    apply (seg_mark_fails st raw). eauto.
  - intros Hr. destruct (seg_mark_total st raw Hr) as [st1 ->]. simpl. eauto.
Qed.

Lemma seg_loop_total lines : forall st,
  (exists st', seg_loop' st lines = inr st') <->
  Forall (readable_marker read_gcode_line py_int py_float) lines.
Proof.
  induction lines as [|raw lines IH]; intros st; simpl.
  - split; [constructor | eauto].
  - split.
    + intros [st' H]. apply bind_inr in H as (st1 & H1 & H).
      constructor; [apply (seg_line_total st raw); eauto | apply (IH st1); eauto].
    + intros Hall. inversion Hall as [|? ? Hr Hrest]; subst.
      apply (seg_line_total st raw) in Hr as [st1 H1].
      unfold seg_line' in H1. rewrite H1. simpl. apply IH, Hrest.
Qed.

Lemma seg_loop_error lines : forall st e,
  seg_loop' st lines = inl e -> e = ValueError_literal.
Proof.
  induction lines as [|raw lines IH]; intros st e; simpl; [discriminate|].
  destruct (seg_line read_gcode_line is_z_move py_int py_float st raw)
    as [e1|st1] eqn:E1; simpl.
  - intros [= <-]. fold (seg_line' st raw) in E1.
    rewrite seg_line_steps in E1.
    destruct (mark st raw) as [e2|st2] eqn:E2; simpl in E1; [|discriminate].
    injection E1 as <-. apply (seg_mark_fails st raw), E2.
  - apply IH.
Qed.

(** X5. [parse_layers] fails only on a marker whose numbers cannot be
    read, with the [ValueError] of [int] or [float]: it returns layers
    exactly when the numbers of every marker can be read. *)
Theorem parse_layers_fails_on_unreadable_marker (lines : list bytes) :
  ((exists ls, parse_layers read_gcode_line is_z_move py_int py_float lines
               = inr ls) <->
   Forall (readable_marker read_gcode_line py_int py_float) lines) /\
  (forall e, parse_layers read_gcode_line is_z_move py_int py_float lines
             = inl e -> e = ValueError_literal).
Proof.
  unfold parse_layers. split; [split|].
  - intros [ls H]. apply bind_inr in H as (st & Hloop & _).
    apply (seg_loop_total lines seg_init). eauto.
  - intros Hall. apply (seg_loop_total lines seg_init) in Hall as [st Hst].
    unfold seg_loop' in Hst. rewrite Hst. simpl. eauto.
  - intros e.
    destruct (seg_loop read_gcode_line is_z_move py_int py_float seg_init lines)
      as [e1|st] eqn:E; simpl; [|discriminate].
    intros [= <-]. exact (seg_loop_error lines seg_init e1 E).
Qed.

End SegmenterFacts.

(** *** The segmenter on the examples *)

Lemma parse_layers_keeps_every_line_witness :
  exists ls,
    parse_layers read_gcode_line_ex is_z_move_ex dec_int dec_float markers_file
    = inr ls /\
    concat (map lines ls) = map read_gcode_line_ex markers_file.
Proof.
  eexists. split; [vm_compute; reflexivity|].
  apply (parse_layers_keeps_every_line read_gcode_line_ex is_z_move_ex
           dec_int dec_float markers_file).
  vm_compute. reflexivity.
Defined.

Lemma parse_layers_first_layer_witness :
  exists ls l0 rest,
    parse_layers read_gcode_line_ex is_z_move_ex dec_int dec_float markers_file
    = inr ls /\
    ls = l0 :: rest /\ untouched_first l0 /\
    Forall (fun l => is_first l = false) rest /\
    Forall (fun l => action l = None) ls.
Proof.
  destruct (parse_layers_first_layer read_gcode_line_ex is_z_move_ex
              dec_int dec_float markers_file _ ltac:(vm_compute; reflexivity))
    as (l0 & rest & H).
  eexists. exists l0, rest. split; [vm_compute; reflexivity | exact H].
Defined.

Lemma parse_layers_count_witness :
  exists ls,
    parse_layers read_gcode_line_ex is_z_move_ex dec_int dec_float markers_file
    = inr ls /\
    1 <= length ls /\
    length ls <= 1 + count_lines (marker_line read_gcode_line_ex) markers_file /\
    length ls
    <= 1 + count_lines (z_move_line read_gcode_line_ex is_z_move_ex) markers_file.
Proof.
  eexists. split; [vm_compute; reflexivity|].
  apply (parse_layers_count read_gcode_line_ex is_z_move_ex dec_int dec_float).
  vm_compute. reflexivity.
Defined.

Lemma parse_layers_single_layer_witness :
  exists ls,
    parse_layers read_gcode_line_ex is_z_move_ex dec_int dec_float
                 ["M83"; "G1 X1 E1"; ";a comment"]%string
    = inr ls /\
    ls = [set_lines
            (map read_gcode_line_ex ["M83"; "G1 X1 E1"; ";a comment"]%string)
            (FirstLayer 0 (2 # 10) (2 # 10))].
Proof.
  eexists. split; [vm_compute; reflexivity|].
  apply (parse_layers_single_layer read_gcode_line_ex is_z_move_ex
           dec_int dec_float ["M83"; "G1 X1 E1"; ";a comment"]%string).
  - vm_compute. reflexivity.
  - left. vm_compute. reflexivity.
Defined.

(** ** The layer marker pattern *)

Lemma span_append p s rest :
  all_bytes p s = true -> starts_with p rest = false ->
  span p (s ++ rest)%string = (s, rest).
Proof.
  intros Hs Hr. induction s as [|c s IH]; simpl in *.
  - destruct rest as [|c r]; simpl in *; [reflexivity|]. rewrite Hr. reflexivity.
  - apply andb_true_iff in Hs as [Hc Hs]. rewrite Hc, (IH Hs). reflexivity.
Qed.

Lemma span_spec p s :
  s = (fst (span p s) ++ snd (span p s))%string /\
  all_bytes p (fst (span p s)) = true /\
  starts_with p (snd (span p s)) = false.
Proof.
  induction s as [|c s (IH1 & IH2 & IH3)]; simpl; [auto|].
  destruct (p c) eqn:E; simpl.
  - rewrite E, IH2. repeat split; [rewrite IH1 at 1; reflexivity | exact IH3].
  - rewrite E. auto.
Qed.

Lemma strip_prefix_append p s : strip_prefix p (p ++ s)%string = Some s.
Proof.
  induction p as [|a p IH]; simpl; [destruct s; reflexivity|].
  rewrite Ascii.eqb_refl. exact IH.
Qed.

Lemma strip_prefix_Some p : forall s r,
  strip_prefix p s = Some r -> s = (p ++ r)%string.
Proof.
  induction p as [|a p IH]; intros s r; simpl.
  - destruct s; intros [= <-]; reflexivity.
  - destruct s as [|b s]; [discriminate|].
    destruct (Ascii.eqb_spec a b) as [<-|]; [|discriminate].
    intros H. rewrite (IH _ _ H). reflexivity.
Qed.

Lemma all_bytes_append p s t :
  all_bytes p (s ++ t)%string = all_bytes p s && all_bytes p t.
Proof.
  induction s as [|c s IH]; simpl; [reflexivity|].
  rewrite IH, andb_assoc. reflexivity.
Qed.

Lemma all_bytes_impl (p q : ascii -> bool) s :
  (forall c, p c = true -> q c = true) ->
  all_bytes p s = true -> all_bytes q s = true.
Proof.
  intros Hpq. induction s as [|c s IH]; simpl; [reflexivity|].
  intros H. apply andb_true_iff in H as [Hc Hs].
  rewrite (Hpq c Hc), (IH Hs). reflexivity.
Qed.

Lemma digit_not_dot c : is_digit c = true -> is_dot c = false.
Proof.
  unfold is_dot. destruct (Ascii.eqb_spec "." c) as [<-|]; [|reflexivity].
  vm_compute. discriminate.
Qed.

Lemma dot_not_digit c : is_dot c = true -> is_digit c = false.
Proof.
  intros H. destruct (is_digit c) eqn:E; [|reflexivity].
  rewrite (digit_not_dot c E) in H. discriminate.
Qed.

Lemma append_assoc (a b c : string) :
  ((a ++ b) ++ c = a ++ (b ++ c))%string.
Proof.
  induction a as [|x a IH]; [reflexivity|].
  change (String x ((a ++ b) ++ c)%string = String x (a ++ (b ++ c))%string).
  rewrite IH. reflexivity.
Qed.

(** The pattern on a marker that is written as the slicer writes it. *)
Lemma LAYER_START_RE_accepts n d1 dots d2 rest :
  all_bytes is_digit n = true -> n <> ""%string ->
  all_bytes is_digit d1 = true -> d1 <> ""%string ->
  all_bytes is_dot dots = true ->
  all_bytes is_digit d2 = true ->
  (dots = ""%string -> d2 = ""%string) ->
  starts_with is_digit rest = false ->
  starts_with is_dot rest = false ->
  LAYER_START_RE_match
    ("BEFORE_LAYER_CHANGE " ++ n ++ " " ++ d1 ++ dots ++ d2 ++ rest)%string
  = Some (n, (d1 ++ dots ++ d2)%string).
Proof.
  intros Hn Hn0 Hd1 Hd10 Hdots Hd2 Hshape Hrest1 Hrest2.
  unfold LAYER_START_RE_match. rewrite strip_prefix_append.
  rewrite (span_append is_digit n) by (assumption || reflexivity).
  cbn [fst snd]. destruct n as [|a n']; [congruence|].
  change (" " ++ d1 ++ dots ++ d2 ++ rest)%string
    with (String " " (d1 ++ dots ++ d2 ++ rest)%string).
  cbv iota.
  assert (Hafter2 : starts_with is_dot (d2 ++ rest)%string = false).
  { destruct d2 as [|c d2']; [exact Hrest2|]. simpl in *.
    apply andb_true_iff in Hd2 as [Hc _]. apply digit_not_dot, Hc. }
  assert (Hafter1 : starts_with is_digit (dots ++ d2 ++ rest)%string = false).
  { destruct dots as [|c dots'].
    - rewrite (Hshape eq_refl). exact Hrest1.
    - simpl in *. apply andb_true_iff in Hdots as [Hc _].
      apply dot_not_digit, Hc. }
  rewrite (span_append is_digit d1) by assumption.
  cbn [fst snd]. destruct d1 as [|b d1']; [congruence|].
  change (span (Ascii.eqb ".") (dots ++ d2 ++ rest)%string)
    with (span is_dot (dots ++ d2 ++ rest)%string).
  rewrite (span_append is_dot dots) by assumption.
  cbn [fst snd].
  rewrite (span_append is_digit d2) by assumption.
  reflexivity.
Qed.

(** What the pattern matches: the literal, a group of digits, a space, and
    a group that starts with a digit and is made of digits and dots. *)
Lemma LAYER_START_RE_shape c g0 g1 :
  LAYER_START_RE_match c = Some (g0, g1) ->
  exists rest,
    c = ("BEFORE_LAYER_CHANGE " ++ g0 ++ " " ++ g1 ++ rest)%string /\
    g0 <> ""%string /\ all_bytes is_digit g0 = true /\
    starts_with is_digit g1 = true /\
    all_bytes (fun b => is_digit b || is_dot b) g1 = true.
Proof.
  unfold LAYER_START_RE_match.
  destruct (strip_prefix "BEFORE_LAYER_CHANGE " c) as [s1|] eqn:Ep; [|discriminate].
  apply strip_prefix_Some in Ep. subst c.
  destruct (span_spec is_digit s1) as (Hs1 & Hg & _).
  destruct (fst (span is_digit s1)) as [|a g] eqn:Eg; [discriminate|].
  destruct (snd (span is_digit s1)) as [|sp s2] eqn:Es2; [discriminate|].
  destruct (Ascii.eqb_spec sp " ") as [->|Hne].
  2: { destruct sp as [[] [] [] [] [] [] [] []]; try discriminate.
       exfalso. apply Hne. reflexivity. }
  destruct (span_spec is_digit s2) as (Hs2 & Hd1 & _).
  destruct (fst (span is_digit s2)) as [|b d1] eqn:Ed1; [discriminate|].
  change (span (Ascii.eqb ".") (snd (span is_digit s2)))
    with (span is_dot (snd (span is_digit s2))).
  destruct (span_spec is_dot (snd (span is_digit s2))) as (Hs3 & Hdots & _).
  destruct (span_spec is_digit
              (snd (span is_dot (snd (span is_digit s2))))) as (Hs4 & Hd2 & _).
  intros [= <- <-].
  exists (snd (span is_digit (snd (span is_dot (snd (span is_digit s2)))))).
  split.
  { assert (Htail : s2 = ((String b d1
                  ++ fst (span is_dot (snd (span is_digit s2)))
                  ++ fst (span is_digit (snd (span is_dot (snd (span is_digit s2))))))
                  ++ snd (span is_digit (snd (span is_dot (snd (span is_digit s2))))))%string).
    { rewrite !append_assoc. rewrite <- Hs4, <- Hs3. exact Hs2. }
    rewrite Hs1 at 1. rewrite Htail at 1. reflexivity. }
  split; [discriminate|]. split; [exact Hg|].
  split; [simpl in *; apply andb_true_iff in Hd1 as [H _]; exact H|].
  rewrite !all_bytes_append. rewrite !andb_true_iff. repeat split.
  - eapply all_bytes_impl; [|exact Hd1]. intros x ->. reflexivity.
  - eapply all_bytes_impl; [|exact Hdots]. intros x ->. apply orb_true_r.
  - eapply all_bytes_impl; [|exact Hd2]. intros x ->. reflexivity.
Qed.

Section MarkerClaims.
Variable py_int : bytes -> option Z.
Variable py_float : bytes -> option Q.

(** X6. A comment that is the literal [BEFORE_LAYER_CHANGE], a space, an
    index in digits, a space and a height in digits, dots and digits,
    followed by anything that is neither a digit nor a dot, is a layer
    change: [check_layer_change] returns the index and the height as
    [int] and [float] read them. *)
Theorem check_layer_change_reads_marker
        (n d1 dots d2 rest : bytes) (i : Z) (v : Q) (cur : option (Z * Q)) :
  all_bytes is_digit n = true -> n <> ""%string ->
  all_bytes is_digit d1 = true -> d1 <> ""%string ->
  all_bytes is_dot dots = true ->
  all_bytes is_digit d2 = true ->
  (dots = ""%string -> d2 = ""%string) ->
  starts_with is_digit rest = false ->
  starts_with is_dot rest = false ->
  py_int n = Some i ->
  py_float (d1 ++ dots ++ d2)%string = Some v ->
  check_layer_change py_int py_float
    ("BEFORE_LAYER_CHANGE " ++ n ++ " " ++ d1 ++ dots ++ d2 ++ rest)%string cur
  = inr (Some (i, v)).
Proof.
  intros Hn Hn0 Hd1 Hd10 Hdots Hd2 Hshape Hr1 Hr2 Hi Hv.
  unfold check_layer_change.
  rewrite (LAYER_START_RE_accepts n d1 dots d2 rest) by assumption.
  rewrite Hi, Hv. reflexivity.
Qed.

(** X7. [check_layer_change] returns its second argument unless the
    comment begins with the literal, a non-empty group of digits, a space
    and a group that starts with a digit and holds digits and dots only;
    then it returns what [int] and [float] read in the two groups, or
    fails with them. *)
Theorem check_layer_change_only_on_markers (c : bytes) (cur : option (Z * Q)) :
  (LAYER_START_RE_match c = None /\
   check_layer_change py_int py_float c cur = inr cur) \/
  (exists g0 g1 rest,
     c = ("BEFORE_LAYER_CHANGE " ++ g0 ++ " " ++ g1 ++ rest)%string /\
     g0 <> ""%string /\ all_bytes is_digit g0 = true /\
     starts_with is_digit g1 = true /\
     all_bytes (fun b => is_digit b || is_dot b) g1 = true /\
     check_layer_change py_int py_float c cur
     = match py_int g0, py_float g1 with
       | Some i, Some v => inr (Some (i, v))
       | _, _ => inl ValueError_literal
       end).
Proof.
  unfold check_layer_change.
  destruct (LAYER_START_RE_match c) as [[g0 g1]|] eqn:E; [right | left; auto].
  destruct (LAYER_START_RE_shape c g0 g1 E) as (rest & Hc & H0 & Hg0 & Hs & Hg1).
  exists g0, g1, rest. repeat split; try assumption.
  destruct (py_int g0); simpl; [|reflexivity].
  destruct (py_float g1); reflexivity.
Qed.

End MarkerClaims.

Lemma check_layer_change_reads_marker_witness :
  check_layer_change dec_int dec_float "BEFORE_LAYER_CHANGE 12 3.25"%string None
  = inr (Some (12%Z, (325 # 100)%Q)).
Proof.
  apply (check_layer_change_reads_marker dec_int dec_float
           "12" "3" "." "25" "" 12 (325 # 100) None)%string;
    try reflexivity; try discriminate.
Defined.

(** ** More on the first tool change *)

Section NormalizerFacts.
Variable is_tool_change : bytes -> option nat.

(** What the loop can do: nothing, delete one line, or insert the comment
    before one line; the line is a tool change after the start g-code. *)
Lemma first_tool_change_cases first rest : forall idx,
  (forall j, j < length rest -> lines first !! (idx + j) = rest !! j) ->
  let r := first_tool_change is_tool_change first rest idx in
  r = first \/
  exists i c comment t,
    start_gcode_end first < i /\
    lines first !! i = Some (Some c, comment) /\
    truthy (Some c) = true /\ is_tool_change c = Some t /\
    r = (if t =? 0 then delete_line i first
         else insert_line i None (Some "TOOL CHANGE"%string) first).
Proof.
  induction rest as [|[cmd comment] rest IH]; intros idx Hrest; [left; reflexivity|].
  cbv zeta. rewrite first_tool_change_cons.
  assert (Hnext : forall j, j < length rest ->
                            lines first !! (S idx + j) = rest !! j).
  { intros j Hj. replace (S idx + j) with (idx + S j) by lia.
    rewrite Hrest by (simpl; lia). reflexivity. }
  destruct (start_gcode_end first <? idx) eqn:E; cbn [andb];
    [|exact (IH (S idx) Hnext)].
  destruct (truthy cmd) eqn:Ec; [|exact (IH (S idx) Hnext)].
  destruct cmd as [c|]; [|exact (IH (S idx) Hnext)].
  destruct (is_tool_change c) as [t|] eqn:Et; [|exact (IH (S idx) Hnext)].
  right. exists idx, c, comment, t.
  apply Nat.ltb_lt in E. repeat split; try assumption.
  rewrite <- (Nat.add_0_r idx). rewrite Hrest by (simpl; lia). reflexivity.
Qed.

(** X8. Without a tool change among the commands after the start g-code,
    [parse_print_settings] changes nothing. *)
Theorem parse_print_settings_without_tool_change
        (first : Layer_t) (others : list Layer_t) :
  (forall j ln, lines first !! j = Some ln -> start_gcode_end first < j ->
                tool_change_line is_tool_change ln = false) ->
  parse_print_settings is_tool_change (first :: others) = inr (first :: others).
Proof.
  intros Hno. unfold parse_print_settings.
  rewrite first_tool_change_none; [reflexivity|].
  intros j ln Hj Hlt. apply (Hno j ln Hj). lia.
Qed.

(** X9. [parse_print_settings] fails on an empty layer list only.  It
    leaves every layer but the first alone, and in the first layer it
    changes the lines only: the start g-code (the lines up to
    [start_gcode_end]) stays as it is, and after it at most one line is
    deleted or inserted, at a command that is a tool change. *)
Theorem parse_print_settings_frame (first : Layer_t) (others : list Layer_t) :
  parse_print_settings is_tool_change [] = inl IndexError /\
  exists first',
    parse_print_settings is_tool_change (first :: others)
    = inr (first' :: others) /\
    first' = set_lines (lines first') first /\
    take (S (start_gcode_end first)) (lines first')
    = take (S (start_gcode_end first)) (lines first) /\
    (lines first' = lines first \/
     exists i c comment t,
       start_gcode_end first < i /\
       lines first !! i = Some (Some c, comment) /\
       truthy (Some c) = true /\ is_tool_change c = Some t /\
       lines first'
       = (if t =? 0 then take i (lines first) ++ drop (S i) (lines first)
          else take i (lines first)
               ++ (None, Some "TOOL CHANGE"%string) :: drop i (lines first))).
Proof.
  split; [reflexivity|]. unfold parse_print_settings.
  exists (first_tool_change is_tool_change first (lines first) 0).
  split; [reflexivity|].
  destruct (first_tool_change_cases first (lines first) 0) as [->|Hcase].
  { intros j _. reflexivity. }
  { split; [destruct first; reflexivity|]. split; [reflexivity | left; reflexivity]. }
  destruct Hcase as (i & c & comment & t & Hi & Hline & Hc & Ht & ->).
  assert (Htake : forall tl : list line,
            take (S (start_gcode_end first)) (take i (lines first) ++ tl)
            = take (S (start_gcode_end first)) (lines first)).
  { intros tl. apply lookup_lt_Some in Hline as Hlen.
    rewrite take_app_le.
    2: { rewrite length_take. apply Nat.min_glb; [lia|].
         transitivity i; [lia | apply Nat.lt_le_incl; exact Hlen]. }
    rewrite take_take. f_equal. lia. }
  destruct (t =? 0) eqn:E0; unfold delete_line, insert_line; simpl.
  - split; [reflexivity|]. split; [apply Htake|].
    right. exists i, c, comment, t. rewrite E0. auto 10.
  - split; [reflexivity|]. split; [apply Htake|].
    right. exists i, c, comment, t. rewrite E0. auto 10.
Qed.

End NormalizerFacts.

Lemma parse_print_settings_without_tool_change_witness :
  parse_print_settings is_tool_change_ex [first_layer_start_only]
  = inr [first_layer_start_only].
Proof.
  apply (parse_print_settings_without_tool_change is_tool_change_ex).
  intros [|[|[|[|j]]]] ln Hj Hlt; simpl in *; try lia.
  - injection Hj as <-. reflexivity.
  - injection Hj as <-. reflexivity.
  - discriminate Hj.
Defined.

(** ** More on the settings extractor *)

(** The branch that a comment takes, from its first key. *)
Ltac take_branch c :=
  unfold first_key, header_keys, parse_comment; simpl List.find;
  repeat match goal with
         | |- context [if contains ?k c then _ else _] =>
             destruct (contains k c); [try discriminate|]
         end; [|discriminate].

Section HeaderMore.
Variable py_int : bytes -> option Z.
Variable py_float : bytes -> option Q.
Variable VERSION_RE_match : bytes -> option (bytes * bytes * bytes).

Let scan := scan_header py_int py_float VERSION_RE_match.
Let header := parse_header py_int py_float VERSION_RE_match.
Let comment := parse_comment py_int py_float VERSION_RE_match.

Lemma scan_cons ln lns s :
  scan (ln :: lns) s
  = match parse_header_line py_int py_float VERSION_RE_match ln s with
    | (inr _, s') => scan lns s'
    | (inl e, s') => (inl e, s')
    end.
Proof.
  unfold scan. simpl. unfold hbind.
  destruct (parse_header_line py_int py_float VERSION_RE_match ln s)
    as [[e|[]] s']; reflexivity.
Qed.

Lemma scan_comment_only lns : forall s,
  scan lns s = scan (List.filter comment_only lns) s.
Proof.
  induction lns as [|ln lns IH]; intros s; [reflexivity|].
  cbn [List.filter]. unfold comment_only at 1.
  destruct (truthy (fst ln)) eqn:E; cbn [negb].
  - rewrite scan_cons. unfold parse_header_line. rewrite E. simpl. apply IH.
  - rewrite !scan_cons.
    destruct (parse_header_line py_int py_float VERSION_RE_match ln s)
      as [[e|[]] s']; [reflexivity | apply IH].
Qed.

(** X10. [parse_header] reads the lines that have no command, in their
    order, and nothing else: two layer lists with the same comment-only
    lines give the same result, whatever their commands and however the
    lines are spread over the layers. *)
Theorem parse_header_reads_comment_lines
        (layers layers' : list Layer_t) (s0 : self_t) :
  List.filter comment_only (concat (map lines layers))
  = List.filter comment_only (concat (map lines layers')) ->
  parse_header py_int py_float VERSION_RE_match layers s0
  = parse_header py_int py_float VERSION_RE_match layers' s0.
Proof.
  intros H. rewrite !header_unfold.
  fold scan. rewrite (scan_comment_only (concat (map lines layers))).
  rewrite (scan_comment_only (concat (map lines layers'))), H. reflexivity.
Qed.

(** X11. A line with neither a command nor a comment makes [parse_header]
    fail with [TypeError], once the lines before it have been read. *)
Theorem parse_header_blank_line
        (layers : list Layer_t) (s0 s : self_t)
        (pre post : list line) (cmd : option bytes) :
  concat (map lines layers) = pre ++ ((cmd, None) : line) :: post ->
  truthy cmd = false ->
  scan_header py_int py_float VERSION_RE_match pre (with_local_z_offset 0 s0)
  = (inr tt, s) ->
  parse_header py_int py_float VERSION_RE_match layers s0 = (inl TypeError, s).
Proof.
  intros Hlines Hcmd Hpre. rewrite header_unfold.
  assert (Hs : scan_header py_int py_float VERSION_RE_match
                 (concat (map lines layers)) (with_local_z_offset 0 s0)
               = (inl TypeError, s)).
  { rewrite Hlines.
    apply (scan_raise py_int py_float VERSION_RE_match pre (cmd, None) post
             _ s TypeError s Hpre).
    unfold parse_header_line. simpl. rewrite Hcmd. reflexivity. }
  rewrite Hs. reflexivity.
Qed.

(** X12. A comment that holds one of the keys but no [" = "] makes
    [parse_header] fail with [IndexError], the object untouched; only the
    version line is read without its value being split off. *)
Theorem parse_comment_without_value (c k : bytes) (s : self_t) :
  first_key c = Some k -> valued_key k ->
  item (split " = " c) 1 = inl IndexError ->
  parse_comment py_int py_float VERSION_RE_match c s = (inl IndexError, s).
Proof.
  unfold first_key, header_keys, parse_comment. simpl List.find.
  intros Hk [_ Hv] Hitem.
  assert (Hval : value_of c s = (inl IndexError, s)).
  { unfold value_of, hlift. rewrite Hitem. reflexivity. }
  repeat match goal with
         | H : (if contains ?k0 c then _ else _) = Some k |- _ =>
             destruct (contains k0 c)
         end;
    try discriminate;
    try (injection Hk as <-; congruence);
    unfold parse_bed_shape, float_list, parse_filament_type, parse_relative_e,
      parse_wipe, scalar, parse_temperature, hbind;
    rewrite Hval; reflexivity.
Qed.

(** A comment that holds none of the keys changes nothing, and the
    version line never fails: it sets the version or changes nothing. *)
Lemma parse_comment_unrecognised_or_version (c : bytes) (s : self_t) :
  (first_key c = None ->
   parse_comment py_int py_float VERSION_RE_match c s = (inr tt, s)) /\
  (first_key c = Some "generated by Slic3r"%string ->
   parse_comment py_int py_float VERSION_RE_match c s = (inr tt, s) \/
   exists v, parse_comment py_int py_float VERSION_RE_match c s
             = (inr tt, with_version (Some v) s)).
Proof.
  unfold first_key, header_keys, parse_comment. simpl List.find. split.
  - repeat match goal with
           | |- context [if contains ?k0 c then _ else _] =>
               destruct (contains k0 c); [discriminate|]
           end.
    reflexivity.
  - destruct (contains "generated by Slic3r" c).
    + intros _. unfold parse_version.
      destruct (VERSION_RE_match c) as [[[a b] d]|]; [|left; reflexivity].
      destruct (py_int a), (py_int b), (py_int d);
        try (left; reflexivity). right. eexists. reflexivity.
    + repeat match goal with
             | |- context [if contains ?k0 c then _ else _] =>
                 destruct (contains k0 c); [discriminate|]
             end.
      discriminate.
Qed.

(** *** The per-tool lists *)

Lemma ensure_then_set t f s :
  hbind (ensure_extruder t) (fun _ => set_extruder t f) s
  = (inr tt, update_tool t f s).
Proof.
  unfold ensure_extruder, set_extruder, hmodify, hget, update_tool, hbind.
  destruct (extruders s !! t) as [e|] eqn:E; cbn beta iota.
  - rewrite E. reflexivity.
  - cbn [extruders with_extruders]. rewrite lookup_insert_eq. cbn [default].
    rewrite insert_insert_eq. reflexivity.
Qed.

Lemma ensure_only t s :
  ensure_extruder t s = (inr tt, update_tool t id s).
Proof.
  unfold ensure_extruder, hmodify, update_tool.
  destruct (extruders s !! t) as [e|] eqn:E; simpl; [|reflexivity].
  rewrite insert_id by exact E. destruct s; reflexivity.
Qed.

Lemma update_tool_extruders t g s :
  update_tool t g s = with_extruders (extruders (update_tool t g s)) s.
Proof. reflexivity. Qed.

Lemma for_tools_updates body g ds : forall t0 s,
  (forall i d s', ds !! i = Some d ->
     body (t0 + i) d s' = (inr tt, update_tool (t0 + i) (g (t0 + i) d) s')) ->
  exists s',
    for_tools body ds t0 s = (inr tt, s') /\
    s' = with_extruders (extruders s') s /\
    forall t,
      extruders s' !! t
      = if decide (t0 <= t)
        then match ds !! (t - t0) with
             | Some d => Some (g t d (default (Extruder t) (extruders s !! t)))
             | None => extruders s !! t
             end
        else extruders s !! t.
Proof.
  induction ds as [|d ds IH]; intros t0 s Hbody.
  - exists s. split; [reflexivity|]. split; [destruct s; reflexivity|].
    intros t. destruct (decide (t0 <= t)); reflexivity.
  - simpl for_tools. unfold hbind.
    pose proof (Hbody 0 d s eq_refl) as H0. rewrite Nat.add_0_r in H0.
    rewrite H0.
    destruct (IH (S t0) (update_tool t0 (g t0 d) s)) as (s' & Hrun & Hs' & Hlk).
    { intros i d' s1 Hi. replace (S t0 + i) with (t0 + S i) by lia.
      apply Hbody. exact Hi. }
    exists s'. split; [exact Hrun|]. split.
    { rewrite Hs' at 1. reflexivity. }
    intros t. rewrite Hlk. unfold update_tool. simpl.
    destruct (decide (S t0 <= t)) as [Hle|Hnle].
    + destruct (decide (t0 <= t)) as [_|]; [|lia].
      replace (t - t0) with (S (t - S t0)) by lia. simpl.
      rewrite lookup_insert_ne by lia. reflexivity.
    + destruct (decide (t0 <= t)) as [Hle0|Hnle0].
      * assert (t = t0) as -> by lia. rewrite Nat.sub_diag. simpl.
        rewrite lookup_insert_eq. reflexivity.
      * rewrite lookup_insert_ne by lia. reflexivity.
Qed.

Lemma for_tools_from_0 body g ds s :
  (forall i d s', ds !! i = Some d ->
     body i d s' = (inr tt, update_tool i (g i d) s')) ->
  exists s',
    for_tools body ds 0 s = (inr tt, s') /\
    s' = with_extruders (extruders s') s /\
    forall t, extruders s' !! t = tool_after g ds (extruders s) t.
Proof.
  intros Hbody.
  destruct (for_tools_updates body g ds 0 s) as (s' & Hrun & Hs' & Hlk).
  { intros i d s1 Hi. simpl. apply Hbody, Hi. }
  exists s'. split; [exact Hrun|]. split; [exact Hs'|].
  intros t. rewrite Hlk. unfold tool_after.
  destruct (decide (0 <= t)); [|lia]. rewrite Nat.sub_0_r. reflexivity.
Qed.





(** *** A value that cannot be read, and the other per-tool lists *)




(** X15. The wipe list never fails on its values: a value [1] gives the
    tool the wipe length 4; any other value creates the extruder when the
    tool is new and leaves its wipe length as it was. *)
Theorem parse_comment_wipe (c values : bytes) (s : self_t) :
  first_key c = Some "wipe = "%string ->
  item (split " = " c) 1 = inr values ->
  exists s',
    parse_comment py_int py_float VERSION_RE_match c s = (inr tt, s') /\
    s' = with_extruders (extruders s') s /\
    forall t,
      extruders s' !! t
      = match split "," values !! t with
        | Some d =>
            Some ((if String.eqb d "1" then set_wipe (Some 4%Q) else id)
                    (default (Extruder t) (extruders s !! t)))
        | None => extruders s !! t
        end.
Proof.
  take_branch c. intros _ Hval.
  unfold parse_wipe, hbind at 1, value_of, hlift. rewrite Hval.
  apply (for_tools_from_0 _
           (fun _ d => if String.eqb d "1" then set_wipe (Some 4%Q) else id)).
  intros i d s1 _. destruct (String.eqb d "1").
  - apply ensure_then_set.
  - unfold hbind. rewrite ensure_only. reflexivity.
Qed.

(** X16. The filament types are separated by semicolons and stored as they
    are written, one per tool from tool 0 on; the line never fails on its
    values. *)
Theorem parse_comment_filament_type (c values : bytes) (s : self_t) :
  first_key c = Some "filament_type ="%string ->
  item (split " = " c) 1 = inr values ->
  exists s',
    parse_comment py_int py_float VERSION_RE_match c s = (inr tt, s') /\
    s' = with_extruders (extruders s') s /\
    forall t,
      extruders s' !! t
      = match split ";" values !! t with
        | Some d =>
            Some (set_filament_type (Some d)
                    (default (Extruder t) (extruders s !! t)))
        | None => extruders s !! t
        end.
Proof.
  take_branch c. intros _ Hval.
  unfold parse_filament_type, hbind at 1, value_of, hlift. rewrite Hval.
  apply (for_tools_from_0 _ (fun _ d => set_filament_type (Some d))).
  intros i d s1 _. apply ensure_then_set.
Qed.

(** *** What follows the loop *)

Lemma finish_cases s :
  finish_header s
  = if unsupported_layer_height s then (inl ValueError_layer_height, s)
    else match first_layer_speed s, default_speed s with
         | Some f, Some o =>
             (inr tt,
              with_travel_z_speed (travel_xy_speed s)
                (with_extruders
                   (fmap (M := gmap nat)
                         (set_z_offset (Some (local_z_offset s)))
                         (extruders s))
                   (with_first_layer_speed (Some (f / 100 * o)%Q)
                      (with_outer_perimeter_speed (Some o) s))))
         | _, _ => (inl TypeError, with_outer_perimeter_speed (default_speed s) s)
         end.
Proof.
  unfold finish_header, hbind, hget, hmodify, hraise.
  destruct (unsupported_layer_height s); [reflexivity|].
  cbn [first_layer_speed outer_perimeter_speed with_outer_perimeter_speed].
  destruct (first_layer_speed s) as [f|], (default_speed s) as [o|];
    reflexivity.
Qed.


(** X18. With a layer height of 0.2 but no perimeter speed, or no
    first-layer speed, [parse_header] fails with [TypeError] at the
    product of the two, after the outer perimeter speed has been
    assigned; nothing else has been derived. *)
Theorem parse_header_missing_speed
        (layers : list Layer_t) (s0 s : self_t) :
  scan_header py_int py_float VERSION_RE_match
              (concat (map lines layers)) (with_local_z_offset 0 s0)
  = (inr tt, s) ->
  unsupported_layer_height s = false ->
  first_layer_speed s = None \/ default_speed s = None ->
  parse_header py_int py_float VERSION_RE_match layers s0
  = (inl TypeError, with_outer_perimeter_speed (default_speed s) s).
Proof.
  intros Hscan Hu Hnone. rewrite header_unfold, Hscan, finish_cases, Hu.
  destruct Hnone as [-> | ->]; [reflexivity|].
  destruct (first_layer_speed s); reflexivity.
Qed.

(** *** Temperatures and the bed shape *)

(** X19. The first-layer temperatures go to setpoint 1 and make the tool's
    number its temperature number; the other temperatures go to setpoint 2
    and leave the temperature number alone.  Either list, when all its
    values can be read as integers, gives tool [t] its [t]-th value and
    creates the extruders that are new. *)
Theorem parse_comment_temperature
        (first : bool) (c values : bytes) (s : self_t) :
  first_key c = Some (if first then "first_layer_temperature ="
                      else " temperature =")%string ->
  item (split " = " c) 1 = inr values ->
  Forall (fun d => is_Some (py_int d)) (split "," values) ->
  exists s',
    parse_comment py_int py_float VERSION_RE_match c s = (inr tt, s') /\
    s' = with_extruders (extruders s') s /\
    forall t,
      extruders s' !! t
      = match split "," values !! t with
        | Some d =>
            option_map
              (fun v =>
                 let e := default (Extruder t) (extruders s !! t) in
                 let e' := if first then set_temperature_nr (Some t) e
                           else e in
                 set_temperature_setpoints
                   (<[(if first then 1 else 2) := v]>
                      (temperature_setpoints e')) e')
              (py_int d)
        | None => extruders s !! t
        end.
Proof.
  intros Hk Hval Hall.
  assert (Hbr : parse_comment py_int py_float VERSION_RE_match c s
                = parse_temperature py_int first c s).
  { revert Hk. destruct first; take_branch c; reflexivity. }
  rewrite Hbr. unfold parse_temperature, hbind at 1, value_of, hlift.
  rewrite Hval.
  destruct (for_tools_from_0
              (fun t d =>
                 hbind (ensure_extruder t)
                   (fun _ =>
                      hbind (if first
                             then set_extruder t (set_temperature_nr (Some t))
                             else hret tt)
                        (fun _ =>
                           hbind (int py_int d)
                             (fun v =>
                                set_extruder t
                                  (fun e =>
                                     set_temperature_setpoints
                                       (<[(if first then 1 else 2) := v]>
                                          (temperature_setpoints e)) e)))))
              (fun t d e =>
                 match py_int d with
                 | Some v =>
                     let e' := if first then set_temperature_nr (Some t) e
                               else e in
                     set_temperature_setpoints
                       (<[(if first then 1 else 2) := v]>
                          (temperature_setpoints e')) e'
                 | None => e
                 end)
              (split "," values) s) as (s' & Hrun & Hs' & Hlk).
  - intros i d s1 Hi.
    rewrite List.Forall_forall in Hall. destruct (Hall d) as [v Hv].
    { apply list_elem_of_In, list_elem_of_lookup. eauto. }
    rewrite Hv. unfold hbind at 1. rewrite ensure_only.
    unfold update_tool, int, hlift, set_extruder, hget, hmodify, hret, hbind.
    rewrite Hv.
    destruct first;
      repeat (progress (cbn [extruders with_extruders raise_if_none id];
                        rewrite ?lookup_insert_eq, ?insert_insert_eq));
      reflexivity.
  - exists s'. split; [exact Hrun|]. split; [exact Hs'|].
    intros t. rewrite Hlk. unfold tool_after.
    destruct (split "," values !! t) as [d|] eqn:Ed; [|reflexivity].
    rewrite List.Forall_forall in Hall. destruct (Hall d) as [v ->].
    { apply list_elem_of_In, list_elem_of_lookup. eauto. }
    reflexivity.
Qed.



(** *** A bed shape that is not four corners *)







(** *** The scalar settings *)

Lemma keeps_ret {A} k (a : A) : keeps k (hret a).
Proof. intros s. reflexivity. Qed.

Lemma keeps_get k : keeps k hget.
Proof. intros s. reflexivity. Qed.

Lemma keeps_raise {A} k e : keeps k (@hraise A e).
Proof. intros s. reflexivity. Qed.

Lemma keeps_lift {A} k (r : res A) : keeps k (hlift r).
Proof. intros s. reflexivity. Qed.

Lemma keeps_modify k f :
  (forall s, scalar_attr k (f s) = scalar_attr k s) -> keeps k (hmodify f).
Proof. intros Hf s. apply Hf. Qed.

Lemma keeps_bind {A B} k (m : H A) (f : A -> H B) :
  keeps k m -> (forall a, keeps k (f a)) -> keeps k (hbind m f).
Proof.
  intros Hm Hf s. unfold hbind. specialize (Hm s).
  destruct (m s) as [[e|a] s']; simpl in *; [exact Hm|].
  rewrite Hf. exact Hm.
Qed.

Lemma keeps_extruders k m s :
  scalar_attr k (with_extruders m s) = scalar_attr k s.
Proof. destruct k; reflexivity. Qed.

Lemma keeps_ensure k t : keeps k (ensure_extruder t).
Proof.
  unfold ensure_extruder. apply keeps_modify. intros s.
  destruct (extruders s !! t); [reflexivity | apply keeps_extruders].
Qed.

Lemma keeps_set_extruder k t f : keeps k (set_extruder t f).
Proof.
  unfold set_extruder. apply keeps_bind; [apply keeps_get|]. intros s.
  destruct (extruders s !! t); [|apply keeps_raise].
  apply keeps_modify. intros s1. apply keeps_extruders.
Qed.

Lemma keeps_for_tools k body ds : forall t,
  (forall t d, keeps k (body t d)) -> keeps k (for_tools body ds t).
Proof.
  induction ds as [|d ds IH]; intros t Hb; simpl; [apply keeps_ret|].
  apply keeps_bind; [apply Hb | intros _; apply IH, Hb].
Qed.

Lemma keeps_tools k c sep body :
  (forall t d, keeps k (body t d)) ->
  keeps k (hbind (value_of c)
                 (fun values => for_tools body (split sep values) 0)).
Proof.
  intros Hb. apply keeps_bind; [apply keeps_lift | intros values].
  apply keeps_for_tools, Hb.
Qed.

Lemma keeps_coord k v i : keeps k (coord py_float v i).
Proof.
  unfold coord, float.
  apply keeps_bind; [apply keeps_lift | intros a; apply keeps_lift].
Qed.

Lemma keeps_delta_coords k values : forall x y,
  keeps k (delta_coords py_float values x y).
Proof.
  induction values as [|v values IH]; intros x y; simpl; [apply keeps_ret|].
  apply keeps_bind; [apply keeps_coord | intros a].
  apply keeps_bind; [apply keeps_coord | intros b]. apply IH.
Qed.

Lemma keeps_bed_shape k c : keeps k (parse_bed_shape py_float c).
Proof.
  unfold parse_bed_shape.
  apply keeps_bind; [apply keeps_lift | intros value].
  destruct (length (split "," value) =? 4).
  - repeat first [ apply keeps_coord | apply keeps_lift
                 | apply keeps_modify; intros ?; destruct k; reflexivity
                 | apply keeps_bind; [|intros ?] ].
  - apply keeps_bind;
      [apply keeps_modify; intros ?; destruct k; reflexivity | intros _].
    apply keeps_bind; [apply keeps_delta_coords | intros [x y]].
    destruct x, y; simpl;
      repeat first [ apply keeps_raise
                   | apply keeps_modify; intros ?; destruct k; reflexivity
                   | apply keeps_bind; [|intros ?] ].
Qed.

Lemma keeps_version k c : keeps k (parse_version py_int VERSION_RE_match c).
Proof.
  unfold parse_version.
  destruct (VERSION_RE_match c) as [[[a b] d]|]; [|apply keeps_ret].
  destruct (py_int a), (py_int b), (py_int d);
    first [ apply keeps_ret
          | apply keeps_modify; intros ?; destruct k; reflexivity ].
Qed.

Lemma keeps_float_list k sep store c :
  keeps k (float_list py_float sep store c).
Proof.
  unfold float_list. apply keeps_tools. intros t d.
  apply keeps_bind; [apply keeps_ensure | intros _].
  apply keeps_bind; [apply keeps_lift | intros v]. apply keeps_set_extruder.
Qed.

Lemma keeps_filament_type k c : keeps k (parse_filament_type c).
Proof.
  unfold parse_filament_type. apply keeps_tools. intros t d.
  apply keeps_bind; [apply keeps_ensure | intros _; apply keeps_set_extruder].
Qed.

Lemma keeps_relative_e k c : keeps k (parse_relative_e c).
Proof.
  unfold parse_relative_e.
  apply keeps_bind; [apply keeps_lift | intros v].
  destruct (String.eqb v "1"); [apply keeps_ret | apply keeps_raise].
Qed.

Lemma keeps_wipe k c : keeps k (parse_wipe c).
Proof.
  unfold parse_wipe. apply keeps_tools. intros t d.
  apply keeps_bind; [apply keeps_ensure | intros _].
  destruct (String.eqb d "1"); [apply keeps_set_extruder | apply keeps_ret].
Qed.

Lemma keeps_temperature k first c :
  keeps k (parse_temperature py_int first c).
Proof.
  unfold parse_temperature. apply keeps_tools. intros t d.
  apply keeps_bind; [apply keeps_ensure | intros _].
  apply keeps_bind.
  { destruct first; [apply keeps_set_extruder | apply keeps_ret]. }
  intros _. apply keeps_bind; [apply keeps_lift | intros v].
  apply keeps_set_extruder.
Qed.

Lemma keeps_scalar k pre store c :
  (forall v s, scalar_attr k (store v s) = scalar_attr k s) ->
  keeps k (scalar py_float pre store c).
Proof.
  intros Hs. unfold scalar.
  apply keeps_bind; [apply keeps_lift | intros value].
  apply keeps_bind; [apply keeps_lift | intros v].
  apply keeps_modify, Hs.
Qed.

(** Only the branch of a scalar setting writes its attribute. *)
Lemma keeps_parse_comment k c :
  first_key c <> Some (scalar_key k) ->
  keeps k (parse_comment py_int py_float VERSION_RE_match c).
Proof.
  unfold first_key, header_keys, parse_comment. simpl List.find.
  repeat match goal with
         | |- context [if contains ?k0 c then _ else _] =>
             destruct (contains k0 c); [intros Hk | ]
         end;
    try (intros _; apply keeps_ret);
    first [ apply keeps_version | apply keeps_bed_shape
          | apply keeps_float_list | apply keeps_filament_type
          | apply keeps_relative_e | apply keeps_wipe
          | apply keeps_temperature
          | destruct k;
            first [ exfalso; apply Hk; reflexivity
                  | apply keeps_scalar; intros ? ?; reflexivity ] ].
Qed.

Lemma keeps_line k ln :
  not_setting k ln ->
  keeps k (parse_header_line py_int py_float VERSION_RE_match ln).
Proof.
  intros [Hcmd|(c & Hc & Hk)]; unfold parse_header_line.
  - rewrite Hcmd. apply keeps_ret.
  - destruct (truthy (fst ln)); [apply keeps_ret|].
    rewrite Hc. apply keeps_parse_comment, Hk.
Qed.

Lemma keeps_scan k lns :
  Forall (not_setting k) lns -> keeps k (scan lns).
Proof.
  induction 1 as [|ln lns Hln _ IH]; simpl; [apply keeps_ret|].
  apply keeps_bind; [apply keeps_line, Hln | intros _; exact IH].
Qed.

(** What the line of a scalar setting does when it is read. *)
Lemma scalar_line_reads k cmd c s s1 :
  truthy cmd = false ->
  first_key c = Some (scalar_key k) ->
  parse_header_line py_int py_float VERSION_RE_match (cmd, Some c) s
  = (inr tt, s1) ->
  exists txt v,
    item (split " = " c) 1 = inr txt /\
    scalar_read py_float k txt = Some v /\
    scalar_attr k s1 = Some v.
Proof.
  intros Hcmd Hk. unfold parse_header_line. cbn [fst snd]. rewrite Hcmd.
  revert Hk. destruct k; cbn [scalar_key]; take_branch c; intros _;
    unfold scalar, value_of, float, hbind, hlift, hmodify, scalar_read;
    (destruct (item (split " = " c) 1) as [e|txt]; [discriminate|]);
    cbn [id raise_if_none];
    match goal with
    | |- context [py_float ?t] => destruct (py_float t) as [v|] eqn:Ev
    end; cbn [raise_if_none]; try discriminate;
    intros [= <-]; eexists txt, _; (split; [reflexivity|]); cbn;
    rewrite ?Ev; split; reflexivity.
Qed.

Lemma scan_last_setting k (pre : list line) cmd c (post : list line) s0 s' :
  scan (pre ++ ((cmd, Some c) : line) :: post) s0 = (inr tt, s') ->
  truthy cmd = false ->
  first_key c = Some (scalar_key k) ->
  Forall (not_setting k) post ->
  exists txt v,
    item (split " = " c) 1 = inr txt /\
    scalar_read py_float k txt = Some v /\
    scalar_attr k s' = Some v.
Proof.
  intros Hscan Hcmd Hk Hpost. unfold scan in Hscan.
  rewrite scan_app in Hscan.
  destruct (scan_header py_int py_float VERSION_RE_match pre s0)
    as [[e|[]] s]; [discriminate|].
  fold scan in Hscan. rewrite scan_cons in Hscan.
  destruct (parse_header_line py_int py_float VERSION_RE_match (cmd, Some c) s)
    as [[e|[]] s1] eqn:Hline; [discriminate|].
  destruct (scalar_line_reads k cmd c s s1 Hcmd Hk Hline)
    as (txt & v & Htxt & Hv & Hattr).
  exists txt, v. split; [exact Htxt|]. split; [exact Hv|].
  pose proof (keeps_scan k post Hpost s1) as Hkeep.
  rewrite Hscan in Hkeep. simpl in Hkeep. congruence.
Qed.


(** X23. A scalar setting that no comment-only line gives is left as it
    was, whether the loop goes through or fails. *)
Theorem scalar_setting_untouched
        (k : scalar_t) (lns : list line) (s0 : self_t) :
  Forall (not_setting k) lns ->
  scalar_attr k (snd (scan_header py_int py_float VERSION_RE_match lns s0))
  = scalar_attr k s0.
Proof. intros Hall. exact (keeps_scan k lns Hall s0). Qed.

(** X24. After a successful [parse_header] every extruder carries the
    Z offset of the last [z_offset] annotation, wherever that line is,
    also before the lines that create the extruder; without such a line
    the Z offset of every extruder is 0, whatever it was before. *)
Theorem parse_header_z_offset
        (layers : list Layer_t) (s0 s' : self_t) :
  parse_header py_int py_float VERSION_RE_match layers s0 = (inr tt, s') ->
  (Forall (not_setting S_z_offset) (concat (map lines layers)) ->
   forall t e, extruders s' !! t = Some e -> z_offset e = Some 0%Q) /\
  (forall (pre post : list line) cmd c,
     concat (map lines layers) = pre ++ ((cmd, Some c) : line) :: post ->
     truthy cmd = false ->
     first_key c = Some "z_offset ="%string ->
     Forall (not_setting S_z_offset) post ->
     exists txt v,
       item (split " = " c) 1 = inr txt /\ py_float txt = Some v /\
       forall t e, extruders s' !! t = Some e -> z_offset e = Some v).
Proof.
  rewrite header_unfold.
  destruct (scan_header _ _ _ _ _) as [[e|[]] s] eqn:Hscan; [discriminate|].
  rewrite finish_cases.
  destruct (unsupported_layer_height s); [discriminate|].
  destruct (first_layer_speed s) as [f|]; [|discriminate].
  destruct (default_speed s) as [o|]; [|discriminate].
  intros [= <-]. cbn [extruders with_travel_z_speed with_extruders].
  assert (Hz : forall v, local_z_offset s = v ->
               forall t e,
                 fmap (M := gmap nat) (set_z_offset (Some (local_z_offset s)))
                      (extruders s) !! t = Some e ->
                 z_offset e = Some v).
  { intros v <- t e. rewrite lookup_fmap.
    destruct (extruders s !! t); [|discriminate]. intros [= <-]. reflexivity. }
  split.
  - intros Hall. apply Hz.
    pose proof (keeps_scan S_z_offset _ Hall (with_local_z_offset 0 s0)) as Hk.
    unfold scan in Hk. rewrite Hscan in Hk. simpl in Hk. congruence.
  - intros pre post cmd c Hlines Hcmd Hkey Hpost.
    rewrite Hlines in Hscan.
    destruct (scan_last_setting S_z_offset pre cmd c post _ s Hscan Hcmd Hkey Hpost)
      as (txt & v & Htxt & Hv & Hattr).
    exists txt, v. split; [exact Htxt|]. split; [exact Hv|].
    apply Hz. simpl in Hattr. congruence.
Qed.

End HeaderMore.

(** *** The settings extractor on the examples *)

Lemma parse_header_reads_comment_lines_witness :
  parse_header dec_int dec_float no_version (header_layers good_header)
               fresh_self
  = parse_header dec_int dec_float no_version spread_header_layers fresh_self.
Proof.
  apply (parse_header_reads_comment_lines dec_int dec_float no_version).
  vm_compute. reflexivity.
Defined.

Lemma parse_header_blank_line_witness :
  exists s,
    parse_header dec_int dec_float no_version blank_line_layers fresh_self
    = (inl TypeError, s) /\
    layer_height s = Some (2 # 10) /\ default_speed s = None.
Proof.
  eexists. split.
  - apply (parse_header_blank_line dec_int dec_float no_version
             blank_line_layers fresh_self _
             [(None, Some " layer_height = 0.2"%string)]
             [(None, Some " perimeter_speed = 40"%string)] None).
    + reflexivity.
    + reflexivity.
    + vm_compute. reflexivity.
  - split; reflexivity.
Defined.

Lemma parse_comment_without_value_witness :
  parse_comment dec_int dec_float no_version " bed_shape =0x0,1x1" fresh_self
  = (inl IndexError, fresh_self).
Proof.
  apply (parse_comment_without_value dec_int dec_float no_version
           " bed_shape =0x0,1x1" "bed_shape =").
  - vm_compute. reflexivity.
  - split; [simpl; tauto | discriminate].
  - vm_compute. reflexivity.
Defined.



Lemma parse_comment_wipe_witness :
  exists s',
    parse_comment dec_int dec_float no_version " wipe = 1,0" fresh_self
    = (inr tt, s') /\
    extruders s' !! 0 = Some (set_wipe (Some 4%Q) (Extruder 0)) /\
    extruders s' !! 1 = Some (Extruder 1).
Proof.
  destruct (parse_comment_wipe dec_int dec_float no_version
              " wipe = 1,0" "1,0" fresh_self)
    as (s' & Hrun & _ & Hlk).
  - vm_compute. reflexivity.
  - vm_compute. reflexivity.
  - exists s'. split; [exact Hrun|].
    rewrite !Hlk. repeat split.
Defined.

Lemma parse_comment_filament_type_witness :
  exists s',
    parse_comment dec_int dec_float no_version " filament_type = PLA;PETG"
                  fresh_self = (inr tt, s') /\
    extruders s' !! 0
    = Some (set_filament_type (Some "PLA"%string) (Extruder 0)) /\
    extruders s' !! 1
    = Some (set_filament_type (Some "PETG"%string) (Extruder 1)).
Proof.
  destruct (parse_comment_filament_type dec_int dec_float no_version
              " filament_type = PLA;PETG" "PLA;PETG" fresh_self)
    as (s' & Hrun & _ & Hlk).
  - vm_compute. reflexivity.
  - vm_compute. reflexivity.
  - exists s'. split; [exact Hrun|].
    rewrite !Hlk. repeat split.
Defined.


Lemma parse_header_missing_speed_witness :
  exists s,
    parse_header dec_int dec_float no_version
                 (header_layers [" layer_height = 0.2"%string]) fresh_self
    = (inl TypeError, s) /\ layer_height s = Some (2 # 10)%Q.
Proof.
  eexists. split.
  - apply (parse_header_missing_speed dec_int dec_float no_version).
    + vm_compute. reflexivity.
    + reflexivity.
    + left. reflexivity.
  - reflexivity.
Defined.

Lemma parse_comment_temperature_witness :
  exists s' e,
    parse_comment dec_int dec_float no_version
                  "first_layer_temperature = 215,195" fresh_self
    = (inr tt, s') /\
    extruders s' !! 1 = Some e /\
    temperature_nr e = Some 1 /\
    temperature_setpoints e !! 1 = Some 195%Z /\
    temperature_setpoints e !! 2 = None.
Proof.
  destruct (parse_comment_temperature dec_int dec_float no_version true
              "first_layer_temperature = 215,195" "215,195" fresh_self)
    as (s' & Hrun & _ & Hlk).
  - vm_compute. reflexivity.
  - vm_compute. reflexivity.
  - change (split "," "215,195") with ["215"; "195"]%string.
    repeat (constructor; [eexists; vm_compute; reflexivity|]). constructor.
  - exists s'. eexists. split; [exact Hrun|].
    rewrite Hlk. split; [reflexivity|]. repeat split.
Defined.




Lemma scalar_setting_untouched_witness :
  scalar_attr S_z_offset
              (snd (scan_header dec_int dec_float no_version two_speeds_lines
                                fresh_self))
  = scalar_attr S_z_offset fresh_self.
Proof.
  apply (scalar_setting_untouched dec_int dec_float no_version S_z_offset).
  unfold two_speeds_lines.
  repeat (constructor;
          [first [ left; reflexivity
                 | right; eexists; split;
                   [reflexivity | vm_compute; discriminate] ]|]).
  constructor.
Defined.

Lemma parse_header_z_offset_witness :
  exists s',
    parse_header dec_int dec_float no_version (header_layers offset_header)
                 fresh_self = (inr tt, s') /\
    is_Some (extruders s' !! 1) /\
    forall t e, extruders s' !! t = Some e -> z_offset e = Some (1 # 10)%Q.
Proof.
  eexists. split; [vm_compute; reflexivity|]. split; [eexists; reflexivity|].
  destruct (parse_header_z_offset dec_int dec_float no_version
              (header_layers offset_header) fresh_self _
              ltac:(vm_compute; reflexivity)) as [_ Hlast].
  destruct (Hlast []
              (map (fun c => (None, Some c))
                   [" retract_length = 3,3"; " perimeter_speed = 40";
                    " first_layer_speed = 70%"; " layer_height = 0.2"]%string)
              None " z_offset = 0.1"%string)
    as (txt & v & Htxt & Hv & Hall).
  - reflexivity.
  - reflexivity.
  - vm_compute. reflexivity.
  - cbn [map].
    repeat (constructor;
            [right; eexists; split;
             [reflexivity | vm_compute; discriminate]|]).
    constructor.
  - vm_compute in Htxt. injection Htxt as <-.
    vm_compute in Hv. injection Hv as <-. exact Hall.
Defined.

(** ** More on the layer classifier *)

Section ClassifierMore.
Variable is_tool_change : bytes -> option nat.

Let htc := has_tool_changes is_tool_change.

Lemma deref_inr (store : list Layer_t) i l :
  deref store i = inr l -> store !! i = Some l.
Proof.
  unfold deref. destruct (store !! i); simpl; [congruence | discriminate].
Qed.

Lemma fits_body l l' :
  body l = body l' -> action l = action l' ->
  fits is_tool_change l -> fits is_tool_change l'.
Proof.
  intros Hb Ha. unfold fits.
  rewrite (has_tool_changes_body is_tool_change l l' Hb), Ha. auto.
Qed.

Lemma retag_refl l : retag is_tool_change l l.
Proof. split; auto. Qed.

Lemma retag_trans l1 l2 l3 :
  retag is_tool_change l1 l2 -> retag is_tool_change l2 l3 ->
  retag is_tool_change l1 l3.
Proof.
  intros [Hb1 Ha1] [Hb2 Ha2]. split; [congruence|].
  destruct Ha2 as [Ha2|Hf]; [|right; exact Hf].
  destruct Ha1 as [Ha1|Hf]; [left; congruence|].
  right. exact (fits_body l2 l3 Hb2 (eq_sym Ha2) Hf).
Qed.

Lemma retag_fits l l' :
  retag is_tool_change l l' -> fits is_tool_change l ->
  fits is_tool_change l'.
Proof.
  intros [Hb [Ha|Hf]] Hl; [|exact Hf]. exact (fits_body l l' Hb (eq_sym Ha) Hl).
Qed.

Lemma retags_refl store : Forall2 (retag is_tool_change) store store.
Proof. induction store; constructor; auto using retag_refl. Qed.

Lemma retags_trans s1 s2 s3 :
  Forall2 (retag is_tool_change) s1 s2 ->
  Forall2 (retag is_tool_change) s2 s3 ->
  Forall2 (retag is_tool_change) s1 s3.
Proof.
  intros H. revert s3. induction H; intros s3 H3; inversion H3; subst;
    constructor; eauto using retag_trans.
Qed.

Lemma retags_insert store i l l' :
  store !! i = Some l -> retag is_tool_change l l' ->
  Forall2 (retag is_tool_change) store (<[i:=l']> store).
Proof.
  intros Hi Ht. rewrite <- (list_insert_id store i l Hi) at 1.
  apply Forall2_insert; [apply retags_refl | exact Ht].
Qed.

Lemma retags_lookup store store' i l :
  Forall2 (retag is_tool_change) store store' -> store !! i = Some l ->
  exists l', store' !! i = Some l' /\ retag is_tool_change l l'.
Proof. intros H Hl. exact (Forall2_lookup_l _ _ _ _ _ H Hl). Qed.

(** After the first loop over a bucket, its layers with tool changes
    carry the switch tag. *)
Lemma tag_switch_retag ids s : forall store filled store' filled',
  tag_switch is_tool_change ids s store filled = inr (store', filled') ->
  Forall2 (retag is_tool_change) store store' /\
  forall i, In i ids ->
    exists l', store' !! i = Some l' /\
               (htc l' = true -> action l' = Some ACT_SWITCH).
Proof.
  induction ids as [|i ids IH]; intros store filled store' filled' Hrun;
    cbn [tag_switch] in Hrun.
  - injection Hrun as <- <-. split; [apply retags_refl | intros i []].
  - apply bind_inr in Hrun as (l & Hl & Hrun). apply deref_inr in Hl.
    assert (Hlt : i < length store) by (eapply lookup_lt_Some; exact Hl).
    set (l1 := set_tower_slots s l) in *.
    assert (Hb1 : body l = body l1) by reflexivity.
    destruct (has_tool_changes is_tool_change l1) eqn:E.
    + set (l2 := set_action ACT_SWITCH l1) in *.
      destruct (IH _ _ _ _ Hrun) as [Ht Hin].
      assert (Hf2 : fits is_tool_change l2).
      { unfold fits. change (has_tool_changes is_tool_change l2)
          with (has_tool_changes is_tool_change l1). rewrite E. reflexivity. }
      assert (Ht1 : Forall2 (retag is_tool_change) store (<[i:=l2]> store)).
      { apply (retags_insert _ _ l); [exact Hl|]. split; [reflexivity|].
        right. exact Hf2. }
      split; [eapply retags_trans; eassumption|].
      intros j [<-|Hj]; [|auto].
      destruct (retags_lookup _ _ i l2 Ht) as (l' & Hl' & Hr).
      { apply list_lookup_insert_eq. exact Hlt. }
      exists l'. split; [exact Hl'|]. intros Hh.
      pose proof (retag_fits _ _ Hr Hf2) as Hf. unfold fits in Hf.
      unfold htc in Hh. rewrite Hh in Hf. exact Hf.
    + destruct (IH _ _ _ _ Hrun) as [Ht Hin].
      assert (Ht1 : Forall2 (retag is_tool_change) store (<[i:=l1]> store)).
      { apply (retags_insert _ _ l); [exact Hl|]. split; [reflexivity|].
        left. reflexivity. }
      split; [eapply retags_trans; eassumption|].
      intros j [<-|Hj]; [|auto].
      destruct (retags_lookup _ _ i l1 Ht) as (l' & Hl' & Hb & _).
      { apply list_lookup_insert_eq. exact Hlt. }
      exists l'. split; [exact Hl'|]. unfold htc.
      rewrite <- (has_tool_changes_body is_tool_change _ _ Hb), E.
      discriminate.
Qed.

(** After the second loop, its layers without tool changes carry the
    infill tag or the pass tag. *)
Lemma tag_other_retag ids s : forall store filled store',
  tag_other is_tool_change ids s store filled = inr store' ->
  Forall2 (retag is_tool_change) store store' /\
  forall i, In i ids ->
    exists l', store' !! i = Some l' /\
               (htc l' = false ->
                action l' = Some ACT_INFILL \/ action l' = Some ACT_PASS).
Proof.
  induction ids as [|i ids IH]; intros store filled store' Hrun;
    cbn [tag_other] in Hrun.
  - injection Hrun as <-. split; [apply retags_refl | intros i []].
  - apply bind_inr in Hrun as (l & Hl & Hrun). apply deref_inr in Hl.
    assert (Hlt : i < length store) by (eapply lookup_lt_Some; exact Hl).
    destruct (has_tool_changes is_tool_change l) eqn:E; cbn [negb] in Hrun.
    + destruct (IH _ _ _ Hrun) as [Ht Hin]. split; [exact Ht|].
      intros j [<-|Hj]; [|auto].
      destruct (retags_lookup _ _ i l Ht Hl) as (l' & Hl' & Hb & _).
      exists l'. split; [exact Hl'|]. unfold htc.
      rewrite <- (has_tool_changes_body is_tool_change _ _ Hb), E.
      discriminate.
    + assert (Hw : forall a filled0,
                (a = ACT_INFILL \/ a = ACT_PASS) ->
                tag_other is_tool_change ids s (<[i:=set_action a l]> store)
                          filled0 = inr store' ->
                Forall2 (retag is_tool_change) store store' /\
                forall j, In j (i :: ids) ->
                  exists l', store' !! j = Some l' /\
                    (htc l' = false ->
                     action l' = Some ACT_INFILL \/ action l' = Some ACT_PASS)).
      { intros a filled0 Ha Hrun0.
        destruct (IH _ _ _ Hrun0) as [Ht Hin].
        assert (Hfa : fits is_tool_change (set_action a l)).
        { unfold fits. change (has_tool_changes is_tool_change (set_action a l))
            with (has_tool_changes is_tool_change l). rewrite E.
          destruct Ha as [-> | ->]; [left | right]; reflexivity. }
        assert (Ht1 : Forall2 (retag is_tool_change) store
                              (<[i:=set_action a l]> store)).
        { apply (retags_insert _ _ l); [exact Hl|]. split; [reflexivity|].
          right. exact Hfa. }
        split; [eapply retags_trans; eassumption|].
        intros j [<-|Hj]; [|auto].
        destruct (retags_lookup _ _ i (set_action a l) Ht) as (l' & Hl' & Hr).
        { apply list_lookup_insert_eq. exact Hlt. }
        exists l'. split; [exact Hl'|]. intros Hh.
        pose proof (retag_fits _ _ Hr Hfa) as Hf. unfold fits in Hf.
        unfold htc in Hh. rewrite Hh in Hf. exact Hf. }
      destruct (filled <? s).
      * apply (Hw ACT_INFILL (S filled)); [left; reflexivity | exact Hrun].
      * apply (Hw ACT_PASS filled); [right; reflexivity | exact Hrun].
Qed.

(** After the tagging pass, the layers of the buckets that were not
    skipped carry a tag that fits. *)
Lemma tag_pass_retag d zs : forall store store',
  tag_pass is_tool_change zs d store = inr store' ->
  Forall2 (retag is_tool_change) store store' /\
  forall k b s i,
    In k zs -> dict_get k d = Some b -> b_slots b = Some s -> s <> 0 ->
    In i (b_layers b) ->
    exists l', store' !! i = Some l' /\ fits is_tool_change l'.
Proof.
  induction zs as [|k zs IH]; intros store store' Hrun; cbn [tag_pass] in Hrun.
  - injection Hrun as <-. split; [apply retags_refl | intros ? ? ? ? []].
  - apply bind_inr in Hrun as (s & Hs & Hrun).
    apply getslots_inr in Hs as (b & Hb & Hs).
    destruct (s =? 0) eqn:E0.
    + destruct (IH _ _ Hrun) as [Ht Hin]. split; [exact Ht|].
      intros k' b' s' i [<-|Hk'] Hb' Hs' Hne Hi; [|eauto].
      apply Nat.eqb_eq in E0. congruence.
    + unfold getitem in Hrun. rewrite Hb in Hrun. cbn [raise_if_none bind] in Hrun.
      apply bind_inr in Hrun as ([store1 filled] & Hsw & Hrun).
      cbn [bind] in Hrun.
      apply bind_inr in Hrun as (store2 & Hot & Hrun).
      destruct (tag_switch_retag _ _ _ _ _ _ Hsw) as [Ht1 Hin1].
      destruct (tag_other_retag _ _ _ _ _ Hot) as [Ht2 Hin2].
      destruct (IH _ _ Hrun) as [Ht Hin].
      split; [eauto using retags_trans|].
      intros k' b' s' i [<-|Hk'] Hb' Hs' Hne Hi; [|eauto].
      assert (b' = b) by congruence. subst b'.
      destruct (Hin1 i Hi) as (l1 & Hl1 & Htag1).
      destruct (Hin2 i Hi) as (l2 & Hl2 & Htag2).
      destruct (retags_lookup _ _ _ _ Ht2 Hl1) as (l2' & Hl2' & Hr12).
      assert (l2' = l2) by congruence. subst l2'.
      destruct (retags_lookup _ _ _ _ Ht Hl2) as (l' & Hl' & Hr).
      exists l'. split; [exact Hl'|]. apply (retag_fits _ _ Hr).
      destruct (htc l2) eqn:E.
      * destruct Hr12 as [Hb12 [Ha|Hf]]; [|exact Hf].
        unfold fits. fold htc. rewrite E, Ha. apply Htag1.
        unfold htc. rewrite (has_tool_changes_body is_tool_change _ _ Hb12).
        exact E.
      * unfold fits. fold htc. rewrite E. apply Htag2. reflexivity.
Qed.

(** The run of [filter_layers], step by step. *)
Lemma filter_layers_steps layers r :
  filter_layers is_tool_change layers = inr r ->
  exists slots,
    slot_pass is_tool_change layers (zs_desc (populate 0 layers [])) 1 0
              (populate 0 layers [])
    = inr (slots, f_layer_data r) /\
    tag_pass is_tool_change (rev (zs_desc (populate 0 layers [])))
             (f_layer_data r) layers
    = inr (f_layers r).
Proof.
  unfold filter_layers. cbv zeta. intros Hrun.
  apply bind_inr in Hrun as ([slots d1] & Hslot & Hrun). cbn [bind] in Hrun.
  apply bind_inr in Hrun as (store & Htag & Hrun).
  apply bind_inr in Hrun as (packed & Hpack & Hrun).
  apply bind_inr in Hrun as (ks & Hks & Hrun).
  injection Hrun as <-. exists slots. split; [exact Hslot | exact Htag].
Qed.

(** Every layer is in a bucket of the dictionary on exit. *)
Lemma filter_layers_buckets layers r :
  filter_layers is_tool_change layers = inr r ->
  NoDupA Qeq (map b_z (f_layer_data r)) /\
  map b_z (f_layer_data r) = map b_z (populate 0 layers []) /\
  map b_layers (f_layer_data r) = map b_layers (populate 0 layers []) /\
  Permutation (all_ids (f_layer_data r)) (seq 0 (length layers)).
Proof.
  intros Hrun.
  destruct (filter_layers_steps layers r Hrun) as (slots & Hslot & _).
  set (d := populate 0 layers []) in *.
  destruct (populate_spec layers) as [Hnd Hperm]. fold d in Hnd, Hperm.
  pose proof (zs_desc_perm d) as Hzs.
  assert (Hzsnd : NoDupA Qeq (zs_desc d)).
  { eapply NoDupA_perm; [symmetry; exact Hzs | exact Hnd]. }
  destruct (filter_layers_spec is_tool_change layers)
    as (rs & r0 & Hrs & _).
  unfold required_counts in Hrs. fold d in Hrs.
  destruct (slot_pass_spec is_tool_change layers (zs_desc d) 1 0 d rs Hzsnd Hrs)
    as (d' & Hrun' & Hkeys & Hlay & _).
  rewrite Hrun' in Hslot. injection Hslot as _ <-.
  split; [rewrite Hkeys; exact Hnd|]. split; [exact Hkeys|].
  split; [exact Hlay|].
  unfold all_ids. rewrite Hlay. exact Hperm.
Qed.

(** X25. [filter_layers] tags every layer by its tool changes, whatever
    tag the layer carried before: a layer with a tool change is tagged
    [ACT_SWITCH], a layer without is tagged [ACT_INFILL] or [ACT_PASS];
    nothing but the tag and the slot count of a layer changes. *)
Theorem filter_layers_tags_by_tool_change (layers : list Layer_t) :
  exists r,
    filter_layers is_tool_change layers = inr r /\
    Forall2 (fun l l' =>
               body l = body l' /\
               if has_tool_changes is_tool_change l
               then action l' = Some ACT_SWITCH
               else action l' = Some ACT_INFILL \/ action l' = Some ACT_PASS)
            layers (f_layers r).
Proof.
  destruct (filter_layers_spec is_tool_change layers)
    as (rs & r & _ & Hrun & _ & _ & Hslots & Htags & _).
  exists r. split; [exact Hrun|].
  destruct (filter_layers_steps layers r Hrun) as (slots & _ & Htag).
  destruct (filter_layers_buckets layers r Hrun) as (Hnd & Hkeys & _ & Hperm).
  destruct (tag_pass_retag _ _ _ _ Htag) as [_ Hfit].
  apply Forall2_same_length_lookup. split.
  { apply (Forall2_length _ _ _ Htags). }
  intros i l l' Hl Hl'.
  destruct (Forall2_lookup_l _ _ _ _ _ Htags Hl) as (l'' & Hl'' & Hb & _).
  assert (l'' = l') by congruence. subst l''.
  split; [exact Hb|].
  assert (Hin : In i (all_ids (f_layer_data r))).
  { eapply Permutation_in; [symmetry; exact Hperm|].
    apply in_seq. apply lookup_lt_Some in Hl. lia. }
  unfold all_ids in Hin. apply in_concat in Hin as (ids & Hids & Hi).
  apply in_map_iff in Hids as (b & <- & Hbin).
  destruct (Hslots b Hbin) as (s & Hs & Hs1).
  destruct (Hfit (b_z b) b s i) as (l2 & Hl2 & Hf).
  - rewrite <- in_rev. eapply Permutation_in; [symmetry; apply zs_desc_perm|].
    rewrite <- Hkeys. apply in_map, Hbin.
  - apply dict_get_self; assumption.
  - exact Hs.
  - lia.
  - exact Hi.
  - assert (l2 = l') by congruence. subst l2.
    unfold fits in Hf.
    rewrite (has_tool_changes_body is_tool_change _ _ Hb). exact Hf.
Qed.

(** *** The tagging pass, layer by layer *)

Lemma htc_switch_tagged s l :
  htc (switch_tagged is_tool_change s l) = htc l.
Proof.
  unfold switch_tagged, htc.
  destruct (has_tool_changes is_tool_change l) eqn:E; exact E.
Qed.

Lemma switch_tagged_twice s l :
  switch_tagged is_tool_change s (switch_tagged is_tool_change s l)
  = switch_tagged is_tool_change s l.
Proof.
  unfold switch_tagged at 1. fold htc. rewrite htc_switch_tagged.
  unfold switch_tagged, htc.
  destruct (has_tool_changes is_tool_change l); reflexivity.
Qed.

Lemma htc_at_insert store i l l' j :
  store !! i = Some l -> htc l' = htc l ->
  has_tool_changes_at is_tool_change (<[i:=l']> store) j
  = has_tool_changes_at is_tool_change store j.
Proof.
  intros Hl Hh. unfold has_tool_changes_at.
  destruct (decide (i = j)) as [<-|Hne].
  - rewrite list_lookup_insert_eq by (eapply lookup_lt_Some; exact Hl).
    rewrite Hl. exact Hh.
  - rewrite list_lookup_insert_ne by exact Hne. reflexivity.
Qed.

Lemma switch_count_ext store store' ids :
  (forall i, In i ids ->
     has_tool_changes_at is_tool_change store' i
     = has_tool_changes_at is_tool_change store i) ->
  switch_count is_tool_change store' ids = switch_count is_tool_change store ids
  /\ other_ids is_tool_change store' ids = other_ids is_tool_change store ids.
Proof.
  intros Hext. unfold switch_count, other_ids. split.
  - f_equal. apply List.filter_ext_in. exact Hext.
  - apply List.filter_ext_in. intros i Hi. rewrite (Hext i Hi). reflexivity.
Qed.

Lemma tag_switch_exact ids s : forall store filled store' filled',
  tag_switch is_tool_change ids s store filled = inr (store', filled') ->
  filled' = filled + switch_count is_tool_change store ids /\
  (forall i, ~ In i ids -> store' !! i = store !! i) /\
  (forall i l, In i ids -> store !! i = Some l ->
               store' !! i = Some (switch_tagged is_tool_change s l)) /\
  (forall i, In i ids -> is_Some (store !! i)).
Proof.
  induction ids as [|i ids IH]; intros store filled store' filled' Hrun;
    cbn [tag_switch] in Hrun.
  - injection Hrun as <- <-. unfold switch_count. simpl.
    split; [lia|]. split; [reflexivity|].
    split; [intros i l [] | intros i []].
  - apply bind_inr in Hrun as (l & Hl & Hrun). apply deref_inr in Hl.
    assert (Hlt : i < length store) by (eapply lookup_lt_Some; exact Hl).
    assert (Hstep : tag_switch is_tool_change ids s
                      (<[i:=switch_tagged is_tool_change s l]> store)
                      (filled + Nat.b2n (htc l))
                    = inr (store', filled')).
    { rewrite <- Hrun. unfold switch_tagged, htc.
      change (has_tool_changes is_tool_change (set_tower_slots s l))
        with (has_tool_changes is_tool_change l).
      destruct (has_tool_changes is_tool_change l); simpl.
      - rewrite Nat.add_1_r. reflexivity.
      - rewrite Nat.add_0_r. reflexivity. }
    destruct (IH _ _ _ _ Hstep) as (Hfilled & Hout & Hin & Hsome).
    assert (Hsame : forall j,
              has_tool_changes_at is_tool_change
                (<[i:=switch_tagged is_tool_change s l]> store) j
              = has_tool_changes_at is_tool_change store j).
    { intros j. apply (htc_at_insert store i l); [exact Hl|].
      apply htc_switch_tagged. }
    destruct (switch_count_ext store _ ids (fun j _ => Hsame j)) as [Hcnt _].
    split.
    { assert (Hat : has_tool_changes_at is_tool_change store i = htc l).
      { unfold has_tool_changes_at. rewrite Hl. reflexivity. }
      rewrite Hfilled, Hcnt. unfold switch_count. cbn [List.filter].
      rewrite Hat. destruct (htc l); simpl; lia. }
    split.
    { intros j Hj. rewrite Hout by (intros Hin'; apply Hj; right; exact Hin').
      apply list_lookup_insert_ne. intros ->. apply Hj. left. reflexivity. }
    split.
    { intros j l0 Hj Hl0.
      destruct (decide (i = j)) as [<-|Hne].
      + assert (l0 = l) by congruence. subst l0.
        destruct (in_dec Nat.eq_dec i ids) as [Hi|Hi].
        * rewrite (Hin i (switch_tagged is_tool_change s l) Hi).
          -- rewrite switch_tagged_twice. reflexivity.
          -- apply list_lookup_insert_eq. exact Hlt.
        * rewrite (Hout i Hi). apply list_lookup_insert_eq. exact Hlt.
      + destruct Hj as [Hj|Hj]; [congruence|].
        apply (Hin j l0 Hj). rewrite list_lookup_insert_ne by exact Hne.
        exact Hl0. }
    intros j [<-|Hj]; [eauto|].
    apply lookup_lt_is_Some. specialize (Hsome j Hj).
    apply lookup_lt_is_Some in Hsome. rewrite length_insert in Hsome.
    exact Hsome.
Qed.

Lemma tag_other_exact ids s : forall store filled store',
  tag_other is_tool_change ids s store filled = inr store' ->
  List.NoDup ids ->
  (forall i, ~ In i ids -> store' !! i = store !! i) /\
  (forall i, In i ids -> has_tool_changes_at is_tool_change store i = true ->
             store' !! i = store !! i) /\
  (forall j i l,
     other_ids is_tool_change store ids !! j = Some i ->
     store !! i = Some l ->
     store' !! i
     = Some (set_action (if filled + j <? s then ACT_INFILL else ACT_PASS) l)).
Proof.
  induction ids as [|i ids IH]; intros store filled store' Hrun Hnd;
    cbn [tag_other] in Hrun.
  - injection Hrun as <-. split; [reflexivity|].
    split; [reflexivity | intros j i l Hj; discriminate Hj].
  - apply bind_inr in Hrun as (l & Hl & Hrun). apply deref_inr in Hl.
    assert (Hlt : i < length store) by (eapply lookup_lt_Some; exact Hl).
    apply List.NoDup_cons_iff in Hnd as [Hi Hnd].
    assert (Hat : has_tool_changes_at is_tool_change store i = htc l).
    { unfold has_tool_changes_at. rewrite Hl. reflexivity. }
    destruct (htc l) eqn:E; unfold htc in E; rewrite E in Hrun;
      cbn [negb] in Hrun.
    + destruct (IH _ _ _ Hrun Hnd) as (Hout & Hsw & Hoth).
      split; [intros j Hj; apply Hout; intros Hin; apply Hj; right; exact Hin|].
      split.
      { intros j [<-|Hj] Hh; [apply Hout, Hi | apply Hsw; assumption]. }
      intros j i0 l0. unfold other_ids. cbn [List.filter].
      rewrite Hat. cbn [negb]. apply Hoth.
    + set (a := if filled <? s then ACT_INFILL else ACT_PASS).
      set (filled1 := if filled <? s then S filled else filled).
      assert (Hstep : tag_other is_tool_change ids s
                        (<[i:=set_action a l]> store) filled1 = inr store').
      { rewrite <- Hrun. unfold a, filled1.
        destruct (filled <? s); reflexivity. }
      destruct (IH _ _ _ Hstep Hnd) as (Hout & Hsw & Hoth).
      assert (Hsame : forall j,
                has_tool_changes_at is_tool_change
                  (<[i:=set_action a l]> store) j
                = has_tool_changes_at is_tool_change store j).
      { intros j. apply (htc_at_insert store i l); [exact Hl | reflexivity]. }
      destruct (switch_count_ext store _ ids (fun j _ => Hsame j)) as [_ Hoids].
      split.
      { intros j Hj. rewrite Hout by (intros Hin; apply Hj; right; exact Hin).
        apply list_lookup_insert_ne. intros ->. apply Hj. left. reflexivity. }
      split.
      { intros j [<-|Hj] Hh; [congruence|].
        rewrite Hsw; [|exact Hj | rewrite Hsame; exact Hh].
        apply list_lookup_insert_ne. intros ->. exact (Hi Hj). }
      intros j i0 l0. unfold other_ids. cbn [List.filter].
      rewrite Hat. cbn [negb]. fold (other_ids is_tool_change store ids).
      destruct j as [|j]; cbn [lookup list_lookup].
      * intros [= <-] Hl0. assert (l0 = l) by congruence. subst l0.
        rewrite (Hout i Hi), Nat.add_0_r.
        apply list_lookup_insert_eq. exact Hlt.
      * intros Hj Hl0.
        assert (Hin0 : In i0 ids).
        { apply list_elem_of_lookup_2, list_elem_of_In in Hj.
          unfold other_ids in Hj. apply List.filter_In in Hj. tauto. }
        assert (Hne : i <> i0) by (intros ->; exact (Hi Hin0)).
        rewrite (Hoth j i0 l0).
        -- f_equal. f_equal. unfold filled1.
           destruct (filled <? s) eqn:Ef.
           ++ replace (S filled + j) with (filled + S j) by lia. reflexivity.
           ++ apply Nat.ltb_ge in Ef.
              rewrite (proj2 (Nat.ltb_ge (filled + j) s)) by lia.
              rewrite (proj2 (Nat.ltb_ge (filled + S j) s)) by lia.
              reflexivity.
        -- rewrite Hoids. exact Hj.
        -- rewrite list_lookup_insert_ne by exact Hne. exact Hl0.
Qed.

(** The two loops over one bucket. *)
Lemma tag_bucket_exact ids s store store1 filled store2 :
  tag_switch is_tool_change ids s store 0 = inr (store1, filled) ->
  tag_other is_tool_change ids s store1 filled = inr store2 ->
  List.NoDup ids ->
  (forall i, ~ In i ids -> store2 !! i = store !! i) /\
  (forall i l, In i ids -> store !! i = Some l -> htc l = true ->
     store2 !! i = Some (set_action ACT_SWITCH (set_tower_slots s l))) /\
  (forall j i l,
     other_ids is_tool_change store ids !! j = Some i ->
     store !! i = Some l ->
     store2 !! i
     = Some (set_action
               (if switch_count is_tool_change store ids + j <? s
                then ACT_INFILL else ACT_PASS)
               (set_tower_slots s l))).
Proof.
  intros Hsw Hot Hnd.
  destruct (tag_switch_exact _ _ _ _ _ _ Hsw) as (Hf & Hout1 & Hin1 & Hsome).
  destruct (tag_other_exact _ _ _ _ _ Hot Hnd) as (Hout2 & Hsw2 & Hoth2).
  simpl in Hf. subst filled.
  assert (Hsame : forall i, In i ids ->
            has_tool_changes_at is_tool_change store1 i
            = has_tool_changes_at is_tool_change store i).
  { intros i Hi. destruct (Hsome i Hi) as [l Hl].
    unfold has_tool_changes_at. rewrite (Hin1 i l Hi Hl), Hl.
    apply htc_switch_tagged. }
  destruct (switch_count_ext store store1 ids Hsame) as [_ Hoids].
  split; [intros i Hi; rewrite Hout2, Hout1 by exact Hi; reflexivity|].
  split.
  - intros i l Hi Hl Hh. rewrite Hsw2.
    + rewrite (Hin1 i l Hi Hl). unfold switch_tagged. fold htc.
      rewrite Hh. reflexivity.
    + exact Hi.
    + rewrite (Hsame i Hi). unfold has_tool_changes_at. rewrite Hl. exact Hh.
  - intros j i l Hj Hl.
    assert (Hi : In i ids /\ htc l = false).
    { apply list_elem_of_lookup_2, list_elem_of_In in Hj.
      unfold other_ids in Hj. apply List.filter_In in Hj as [Hi Hn].
      split; [exact Hi|]. unfold has_tool_changes_at in Hn.
      rewrite Hl in Hn. apply negb_true_iff in Hn. exact Hn. }
    destruct Hi as [Hi Hh].
    rewrite (Hoth2 j i (set_tower_slots s l)).
    + reflexivity.
    + rewrite Hoids. exact Hj.
    + rewrite (Hin1 i l Hi Hl). unfold switch_tagged. fold htc.
      rewrite Hh. reflexivity.
Qed.

Lemma NoDup_app_disjoint {A} (l1 l2 : list A) x :
  List.NoDup (l1 ++ l2) -> In x l1 -> ~ In x l2.
Proof.
  induction l1 as [|a l1 IH]; simpl; intros Hnd Hin; [tauto|].
  apply List.NoDup_cons_iff in Hnd as [Ha Hnd].
  destruct Hin as [->|Hin]; [|apply IH; assumption].
  intros Hx. apply Ha. apply in_or_app. right. exact Hx.
Qed.

(** The tagging pass over buckets that share no layer. *)
Lemma tag_pass_exact d bs : forall store store',
  (forall b, In b bs -> dict_get (b_z b) d = Some b) ->
  (forall b, In b bs -> exists s, b_slots b = Some s /\ 1 <= s) ->
  List.NoDup (concat (map b_layers bs)) ->
  tag_pass is_tool_change (map b_z bs) d store = inr store' ->
  (forall i, ~ In i (concat (map b_layers bs)) -> store' !! i = store !! i) /\
  forall b s, In b bs -> b_slots b = Some s ->
    (forall i l, In i (b_layers b) -> store !! i = Some l -> htc l = true ->
       store' !! i = Some (set_action ACT_SWITCH (set_tower_slots s l))) /\
    (forall j i l,
       other_ids is_tool_change store (b_layers b) !! j = Some i ->
       store !! i = Some l ->
       store' !! i
       = Some (set_action
                 (if switch_count is_tool_change store (b_layers b) + j <? s
                  then ACT_INFILL else ACT_PASS)
                 (set_tower_slots s l))).
Proof.
  induction bs as [|b0 bs IH]; intros store store' Hget Hslots Hnd Hrun;
    cbn [map tag_pass concat] in *.
  - injection Hrun as <-. split; [reflexivity | intros b s []].
  - destruct (Hslots b0) as (s0 & Hs0 & Hs1); [left; reflexivity|].
    unfold getslots, getitem in Hrun.
    rewrite (Hget b0) in Hrun by (left; reflexivity).
    cbn [raise_if_none bind] in Hrun. rewrite Hs0 in Hrun.
    cbn [raise_if_none bind] in Hrun.
    destruct (s0 =? 0) eqn:E0; [apply Nat.eqb_eq in E0; lia|].
    apply bind_inr in Hrun as ([store1 filled] & Hsw & Hrun).
    cbn [bind] in Hrun.
    apply bind_inr in Hrun as (store2 & Hot & Hrun).
    pose proof (List.NoDup_app_remove_r _ _ Hnd) as Hnd_rest.
    pose proof (List.NoDup_app_remove_l _ _ Hnd) as Hnd0.
    destruct (tag_bucket_exact _ _ _ _ _ _ Hsw Hot Hnd_rest)
      as (Hout0 & Hsw0 & Hoth0).
    destruct (IH store2 store') as [Hout Hin]; try assumption.
    { intros b Hb. apply Hget. right. exact Hb. }
    { intros b Hb. apply Hslots. right. exact Hb. }
    split.
    { intros i Hi. rewrite Hout, Hout0; [reflexivity | |];
        intros Hin'; apply Hi; apply in_or_app; auto. }
    intros b s [<-|Hb] Hs.
    + assert (s = s0) by congruence. subst s.
      assert (Hkeep : forall i, In i (b_layers b0) ->
                store' !! i = store2 !! i).
      { intros i Hi. apply Hout. exact (NoDup_app_disjoint _ _ i Hnd Hi). }
      split.
      * intros i l Hi Hl Hh. rewrite (Hkeep i Hi). apply Hsw0; assumption.
      * intros j i l Hj Hl.
        assert (Hi : In i (b_layers b0)).
        { apply list_elem_of_lookup_2, list_elem_of_In in Hj.
          unfold other_ids in Hj. apply List.filter_In in Hj. tauto. }
        rewrite (Hkeep i Hi). apply Hoth0; assumption.
    + assert (Hsame : forall i, In i (b_layers b) ->
                store2 !! i = store !! i).
      { intros i Hi. apply Hout0. intros Hi0.
        apply (NoDup_app_disjoint _ _ i Hnd Hi0).
        apply in_concat. exists (b_layers b). split; [|exact Hi].
        apply in_map, Hb. }
      destruct (switch_count_ext store store2 (b_layers b)) as [Hcnt Hoids].
      { intros i Hi. unfold has_tool_changes_at. rewrite (Hsame i Hi).
        reflexivity. }
      destruct (Hin b s Hb Hs) as [Hsw' Hoth'].
      split.
      * intros i l Hi Hl Hh. apply Hsw'; [exact Hi | | exact Hh].
        rewrite (Hsame i Hi). exact Hl.
      * intros j i l Hj Hl. rewrite <- Hcnt.
        assert (Hi : In i (b_layers b)).
        { apply list_elem_of_lookup_2, list_elem_of_In in Hj.
          unfold other_ids in Hj. apply List.filter_In in Hj. tauto. }
        apply Hoth'; [rewrite Hoids; exact Hj|].
        rewrite (Hsame i Hi). exact Hl.
Qed.

(** [filter_layers], layer by layer: what each layer of each bucket
    carries on exit. *)
Lemma filter_layers_exact layers r :
  filter_layers is_tool_change layers = inr r ->
  forall b s, In b (f_layer_data r) -> b_slots b = Some s ->
    (forall i l, In i (b_layers b) -> layers !! i = Some l -> htc l = true ->
       f_layers r !! i = Some (set_action ACT_SWITCH (set_tower_slots s l))) /\
    (forall j i l,
       other_ids is_tool_change layers (b_layers b) !! j = Some i ->
       layers !! i = Some l ->
       f_layers r !! i
       = Some (set_action
                 (if switch_count is_tool_change layers (b_layers b) + j <? s
                  then ACT_INFILL else ACT_PASS)
                 (set_tower_slots s l))).
Proof.
  intros Hrun b s Hb Hs.
  destruct (filter_layers_steps layers r Hrun) as (slots & _ & Htag).
  destruct (filter_layers_buckets layers r Hrun) as (Hnd & Hkeys & _ & Hperm).
  destruct (filter_layers_spec is_tool_change layers)
    as (rs & r0 & _ & Hrun0 & _ & _ & Hslots & _).
  assert (r0 = r) by congruence. subst r0.
  destruct (zs_buckets (f_layer_data r) (rev (zs_desc (populate 0 layers []))) Hnd)
    as (bs & Hzbs & Hbs & Hget).
  { rewrite <- Permutation_rev, Hkeys. apply zs_desc_perm. }
  rewrite Hzbs in Htag.
  destruct (tag_pass_exact (f_layer_data r) bs layers (f_layers r))
    as [_ Hin]; try assumption.
  - intros b' Hb'. apply Hslots. eapply Permutation_in; [exact Hbs | exact Hb'].
  - apply (Permutation_NoDup (l := seq 0 (length layers))); [|apply List.seq_NoDup].
    symmetry. rewrite <- Hperm. unfold all_ids.
    apply Permutation_concat, Permutation_map, Hbs.
  - apply Hin; [|exact Hs].
    eapply Permutation_in; [symmetry; exact Hbs | exact Hb].
Qed.

(** *** The buckets *)

Lemma dict_alter_In f k d b :
  In b (dict_alter f k d) ->
  In b d \/ exists b0, In b0 d /\ Qeq_bool (b_z b0) k = true /\ b = f b0.
Proof.
  induction d as [|b' d IH]; cbn [dict_alter]; [intros []|].
  destruct (Qeq_bool (b_z b') k) eqn:E.
  - intros [<-|Hin]; [right; exists b'; simpl; auto | left; right; exact Hin].
  - intros [<-|Hin]; [left; left; reflexivity|].
    destruct (IH Hin) as [Hd|(b0 & Hb0 & Hk & ->)]; [left; right; exact Hd|].
    right. exists b0. simpl. auto.
Qed.

Lemma dict_get_Qeq k k' d : (k == k')%Q -> dict_get k d = dict_get k' d.
Proof.
  intros Hk. induction d as [|b d IH]; cbn [dict_get]; [reflexivity|].
  assert (Hb : Qeq_bool (b_z b) k = Qeq_bool (b_z b) k').
  { destruct (Qeq_bool (b_z b) k) eqn:E, (Qeq_bool (b_z b) k') eqn:E';
      try reflexivity.
    - apply Qeq_bool_eq in E. apply Qeq_bool_neq in E'.
      exfalso. apply E'. rewrite E. exact Hk.
    - apply Qeq_bool_eq in E'. apply Qeq_bool_neq in E.
      exfalso. apply E. rewrite E'. symmetry. exact Hk. }
  rewrite Hb, IH. reflexivity.
Qed.

Lemma Sorted_snoc (l : list nat) i :
  Sorted lt l -> (forall j, In j l -> j < i) -> Sorted lt (l ++ [i]).
Proof.
  induction 1 as [|a l Hs IH Hhd]; intros Hlt; cbn [app].
  - repeat constructor.
  - constructor.
    + apply IH. intros j Hj. apply Hlt. right. exact Hj.
    + destruct Hhd as [|b l Hab]; cbn [app]; constructor;
        [apply Hlt; left; reflexivity | exact Hab].
Qed.

(** Step 1 puts each layer into the bucket of its Z, in the order of the
    layers. *)
Lemma populate_groups (layers : list Layer_t) ls : forall i0 d,
  drop i0 layers = ls ->
  (forall b, In b d ->
     Sorted lt (b_layers b) /\
     forall i, In i (b_layers b) ->
       i < i0 /\ exists l, layers !! i = Some l /\ (z l == b_z b)%Q) ->
  forall b, In b (populate i0 ls d) ->
    Sorted lt (b_layers b) /\
    forall i, In i (b_layers b) ->
      exists l, layers !! i = Some l /\ (z l == b_z b)%Q.
Proof.
  induction ls as [|l ls IH]; intros i0 d Hdrop Hinv; cbn [populate].
  - intros b Hb. destruct (Hinv b Hb) as [Hs Hi]. split; [exact Hs|].
    intros i Hin. apply Hi. exact Hin.
  - assert (Hl : layers !! i0 = Some l).
    { rewrite <- (Nat.add_0_r i0), <- lookup_drop, Hdrop. reflexivity. }
    assert (Hdrop' : drop (S i0) layers = ls).
    { rewrite (drop_S _ _ _ Hl) in Hdrop. congruence. }
    apply (IH (S i0) _ Hdrop'). intros b Hb.
    apply dict_alter_In in Hb as [Hb|(b0 & Hb0 & Hk & ->)].
    + assert (Hold : In b d \/ b = mkBucket (z l) [] None).
      { destruct (dict_get (z l) d); [left; exact Hb|].
        apply in_app_or in Hb as [Hb|[<-|[]]]; auto. }
      destruct Hold as [Hold| ->].
      * destruct (Hinv b Hold) as [Hs Hi]. split; [exact Hs|].
        intros i Hin. destruct (Hi i Hin) as [Hlt Hz]. split; [lia | exact Hz].
      * split; [constructor | intros i []].
    + assert (Hold : (Sorted lt (b_layers b0) /\
                      forall i, In i (b_layers b0) ->
                        i < i0 /\ exists l, layers !! i = Some l /\
                                            (z l == b_z b0)%Q)).
      { assert (Hcase : In b0 d \/ b0 = mkBucket (z l) [] None).
        { destruct (dict_get (z l) d); [left; exact Hb0|].
          apply in_app_or in Hb0 as [Hb0|[<-|[]]]; auto. }
        destruct Hcase as [Hd| ->]; [apply Hinv, Hd|].
        split; [constructor | intros i []]. }
      destruct Hold as [Hs Hi]. cbn [append_layer b_layers b_z]. split.
      * apply Sorted_snoc; [exact Hs|]. intros j Hj. apply Hi, Hj.
      * intros i Hin. apply in_app_or in Hin as [Hin|[<-|[]]].
        -- destruct (Hi i Hin) as [Hlt Hz]. split; [lia | exact Hz].
        -- split; [lia|]. exists l. split; [exact Hl|].
           apply Qeq_bool_eq in Hk. symmetry. exact Hk.
Qed.

Lemma same_columns {A B C} (f : A -> B) (g : A -> C) (d1 d : list A) a :
  map f d1 = map f d -> map g d1 = map g d -> In a d1 ->
  exists a0, In a0 d /\ f a0 = f a /\ g a0 = g a.
Proof.
  revert d. induction d1 as [|x d1 IH]; intros [|y d] Hf Hg Hin;
    try discriminate; [destruct Hin|].
  injection Hf as Hf0 Hf. injection Hg as Hg0 Hg.
  destruct Hin as [->|Hin].
  - exists y. simpl. auto.
  - destruct (IH d Hf Hg Hin) as (a0 & Ha0 & Hfa & Hga).
    exists a0. simpl. auto.
Qed.

(** X26. [filter_layers] groups the layers by Z: the keys of the
    dictionary are pairwise different, every layer is in exactly one
    bucket, the one of its own Z, the layers of a bucket are in the order
    of the file, and every layer leaves with the slot count recorded for
    its bucket, which is at least 1. *)
Theorem filter_layers_groups_by_z (layers : list Layer_t) :
  exists r,
    filter_layers is_tool_change layers = inr r /\
    NoDupA Qeq (map b_z (f_layer_data r)) /\
    Permutation (all_ids (f_layer_data r)) (seq 0 (length layers)) /\
    (forall b, In b (f_layer_data r) -> Sorted lt (b_layers b)) /\
    forall i l', f_layers r !! i = Some l' ->
      exists b s,
        dict_get (z l') (f_layer_data r) = Some b /\
        In i (b_layers b) /\
        b_slots b = Some s /\ 1 <= s /\ tower_slots l' = s.
Proof.
  destruct (filter_layers_spec is_tool_change layers)
    as (rs & r & _ & Hrun & _ & _ & Hslots & Htags & _).
  exists r. split; [exact Hrun|].
  destruct (filter_layers_buckets layers r Hrun) as (Hnd & Hkeys & Hlay & Hperm).
  split; [exact Hnd|]. split; [exact Hperm|].
  assert (Hpop : forall b, In b (f_layer_data r) ->
            Sorted lt (b_layers b) /\
            forall i, In i (b_layers b) ->
              exists l, layers !! i = Some l /\ (z l == b_z b)%Q).
  { intros b Hb.
    destruct (same_columns b_z b_layers _ _ b Hkeys Hlay Hb)
      as (b0 & Hb0 & Hz0 & Hl0).
    rewrite <- Hz0, <- Hl0.
    apply (populate_groups layers layers 0 []); [reflexivity | intros ? [] | exact Hb0]. }
  split; [intros b Hb; apply Hpop, Hb|].
  intros i l' Hl'.
  assert (Hi : i < length layers).
  { rewrite (Forall2_length _ _ _ Htags). eapply lookup_lt_Some; exact Hl'. }
  assert (Hin : In i (all_ids (f_layer_data r))).
  { eapply Permutation_in; [symmetry; exact Hperm|]. apply in_seq. lia. }
  unfold all_ids in Hin. apply in_concat in Hin as (ids & Hids & Hi').
  apply in_map_iff in Hids as (b & <- & Hb).
  destruct (Hslots b Hb) as (s & Hs & Hs1).
  destruct (Hpop b Hb) as [_ Hz]. destruct (Hz i Hi') as (l & Hl & Hzl).
  destruct (Forall2_lookup_l _ _ _ _ _ Htags Hl) as (l'' & Hl'' & Hbody & _).
  assert (l'' = l') by congruence. subst l''.
  assert (Hzz : z l' = z l) by (unfold body in Hbody; congruence).
  exists b, s. split.
  { rewrite Hzz, (dict_get_Qeq _ _ _ Hzl). apply dict_get_self; assumption. }
  split; [exact Hi'|]. split; [exact Hs|]. split; [exact Hs1|].
  destruct (filter_layers_exact layers r Hrun b s Hb Hs) as [Hsw Hoth].
  destruct (htc l) eqn:E.
  - rewrite (Hsw i l Hi' Hl E) in Hl'. injection Hl' as <-. reflexivity.
  - assert (Ho : In i (other_ids is_tool_change layers (b_layers b))).
    { unfold other_ids. apply List.filter_In. split; [exact Hi'|].
      unfold has_tool_changes_at. rewrite Hl. fold htc. rewrite E.
      reflexivity. }
    apply list_elem_of_In, list_elem_of_lookup_1 in Ho as [j Hj].
    rewrite (Hoth j i l Hj Hl) in Hl'. injection Hl' as <-. reflexivity.
Qed.

(** X27. In each bucket the layers without tool changes fill the slots
    that the layers with tool changes leave free: with [n] layers that
    have tool changes and [s] slots, the layers without are tagged in the
    order of the bucket, the first [s - n] of them [ACT_INFILL] and the
    others [ACT_PASS]. *)
Theorem filter_layers_infill_until_filled (layers : list Layer_t) :
  exists r,
    filter_layers is_tool_change layers = inr r /\
    forall b s, In b (f_layer_data r) -> b_slots b = Some s ->
      forall j i,
        other_ids is_tool_change layers (b_layers b) !! j = Some i ->
        exists l',
          f_layers r !! i = Some l' /\
          action l'
          = Some (if switch_count is_tool_change layers (b_layers b) + j <? s
                  then ACT_INFILL else ACT_PASS).
Proof.
  destruct (filter_layers_spec is_tool_change layers)
    as (rs & r & _ & Hrun & _).
  exists r. split; [exact Hrun|].
  intros b s Hb Hs j i Hj.
  destruct (filter_layers_buckets layers r Hrun) as (_ & _ & _ & Hperm).
  destruct (filter_layers_exact layers r Hrun b s Hb Hs) as [_ Hoth].
  assert (Hin : In i (b_layers b)).
  { apply list_elem_of_lookup_2, list_elem_of_In in Hj.
    unfold other_ids in Hj. apply List.filter_In in Hj. tauto. }
  assert (Hi : i < length layers).
  { eapply ids_valid; [exact Hperm | exact Hb | exact Hin]. }
  destruct (lookup_lt_is_Some_2 layers i Hi) as [l Hl].
  eexists. split; [apply (Hoth j i l Hj Hl) | reflexivity].
Qed.

(** *** [max_slots] *)

Lemma slot_step_value s c r :
  fst (slot_step s c r) = s \/ fst (slot_step s c r) = r.
Proof.
  unfold slot_step.
  destruct (3 <=? (if s <? r then S c else c)); simpl; auto.
Qed.

Lemma slot_state_value rs : forall s c,
  fst (slot_state s c rs) = s \/ In (fst (slot_state s c rs)) rs.
Proof.
  induction rs as [|r rs IH]; intros s c; [left; reflexivity|].
  rewrite slot_state_cons.
  destruct (IH (fst (slot_step s c r)) (snd (slot_step s c r))) as [H|H].
  - rewrite H. destruct (slot_step_value s c r) as [-> | ->];
      [left; reflexivity | right; left; reflexivity].
  - right. right. exact H.
Qed.

Lemma slot_scan_le_final rs : forall s c,
  c <= 2 -> Forall (fun x => x <= fst (slot_state s c rs)) (slot_scan s c rs).
Proof.
  induction rs as [|r rs IH]; intros s c Hc; cbn [slot_scan]; constructor.
  - rewrite slot_state_cons. apply slot_state_inv.
    apply slot_step_inv, Hc.
  - rewrite slot_state_cons. apply IH. apply slot_step_inv, Hc.
Qed.

Lemma slot_scan_last rs : forall s c pre x,
  slot_scan s c rs = pre ++ [x] -> x = fst (slot_state s c rs).
Proof.
  induction rs as [|r rs IH]; intros s c pre x; cbn [slot_scan].
  - destruct pre; discriminate.
  - rewrite slot_state_cons. destruct pre as [|p pre]; cbn [app].
    + intros [= <- Hnil]. destruct rs; [reflexivity | discriminate].
    + intros [= _ Hrest]. exact (IH _ _ _ _ Hrest).
Qed.

(** X28. [self.max_slots] is the slot count of the lowest bucket, which
    is the largest slot count recorded; it is 1 or the required count of
    one of the buckets, and 1 when there is no layer. *)
Theorem max_slots_is_largest_recorded (layers : list Layer_t) :
  exists r rs ss,
    filter_layers is_tool_change layers = inr r /\
    required_counts is_tool_change layers = inr rs /\
    recorded_slots r = inr ss /\
    Forall (fun s => s <= f_max_slots r) ss /\
    (forall pre x, ss = pre ++ [x] -> x = f_max_slots r) /\
    (f_max_slots r = 1 \/ In (f_max_slots r) rs) /\
    (layers = [] -> f_max_slots r = 1).
Proof.
  destruct (filter_layers_spec is_tool_change layers)
    as (rs & r & Hrs & Hrun & Hrec & Hmax & _).
  exists r, rs, (slot_scan 1 0 rs).
  split; [exact Hrun|]. split; [exact Hrs|]. split; [exact Hrec|].
  rewrite Hmax.
  split; [apply slot_scan_le_final; lia|].
  split; [intros pre x; apply slot_scan_last|].
  split; [apply slot_state_value|].
  intros ->. vm_compute in Hrs. injection Hrs as <-. reflexivity.
Qed.

End ClassifierMore.

(** Stale tags are replaced: the layer without tool change that came with
    a switch tag leaves as infill, the layer with a tool change that came
    with a pass tag leaves as a switch. *)
Lemma filter_layers_tags_by_tool_change_witness :
  exists r,
    filter_layers is_tool_change_ex stale_layers = inr r /\
    Forall2 (fun l l' =>
               body l = body l' /\
               if has_tool_changes is_tool_change_ex l
               then action l' = Some ACT_SWITCH
               else action l' = Some ACT_INFILL \/ action l' = Some ACT_PASS)
            stale_layers (f_layers r) /\
    map action (f_layers r)
    = [Some ACT_INFILL; Some ACT_SWITCH; Some ACT_PASS].
Proof.
  destruct (filter_layers_tags_by_tool_change is_tool_change_ex stale_layers)
    as (r & Hrun & Hall).
  exists r. split; [exact Hrun|]. split; [exact Hall|].
  vm_compute in Hrun. injection Hrun as <-. reflexivity.
Defined.
